(* ===== verification/_CoqProject ===== *)
-Q . S2P
Prelude.v
GoTime.v
Regex.v
RegexSpec.v
Results.v
Provider.v
Flags.v
Cmd.v
SourceForge.v
PyPI.v
