(* ===== verification/Prelude.v ===== *)
(** * Cuppa release resolution: a verification development

    This library models the Go program [cuppa] (DataDrake/cuppa), the part
    that resolves the releases of a package by asking upstream package
    hosts, and proves what makes it correct.  The sources under [src/]:

    - [src/providers/sourceforge/provider.go]: the SourceForge feed adapter
      (the expressions [TarballRegex] and [ProjectRegex], the RSS types
      [Item] and [Feed], [toResults], [Latest], [Match], [Name],
      [Releases]);
    - [src/providers/pypi/releases.go]: the PyPI index conversion
      ([ConvertURLS], the payload type [Releases], [Convert]);
    - [src/cmd/releases.go]: the [releases] subcommand ([Flags], [Short],
      [Usage], and [Execute], the resolution orchestrator over the
      registry [providers.All()]).

    The packages [results] (Result, ResultSet, Status) and [providers]
    (the interface; the registry [All()] is a parameter of [Execute])
    and the rest of the PyPI adapter are not under [src/]; they are
    modelled from the specification.

    How the parts interact: [Execute] parses the command line, then asks
    every provider of the registry, in order, to [Match] the query; on a
    match it calls the provider's [Releases] with the canonical name
    [Match] returned; [Releases] issues an HTTP request through the
    transport, decodes the body and converts it into a [ResultSet] of
    [Result]s with a [Status].  Nothing is shared between providers but
    the trace of observable events.

    ** Files and what they model

    - [Prelude] (this file): the Go effects every component shares.  A Go
      computation [Go E A] is a [GoResult] (a value or a [Panic]) with the
      list of events it emitted; [go_bind] threads both; [go_defer]
      appends an event on every exit path, panic included, as Go's
      [defer] does; [go_index] and [go_index_Z] are slice indexing and
      [go_slice_from] re-slicing, which panic out of range.  The monad
      laws form the rewrite database [go_rw]; the hint database [cuppa]
      collects shared lemmas (suffixes of lists, invariants of
      [fold_left]).
    - [GoTime]: the part of Go's [time.Parse] the adapters call, as an
      interpreter of the layout's chunks ([RFC1123] for the feed dates,
      the PyPI upload-time layout); a failed parse is [None], which
      [parse_or_zero] replaces by the zero [Time] as the adapters do.
    - [Regex]: Go's [regexp] as the adapters use it: an AST, the
      continuation-passing backtracking matcher [mtc] with Go's
      leftmost-first priority (alternation left first, greedy and lazy
      repetition, capturing groups, [$]), the leftmost scan [find_from]
      and [FindStringSubmatch] ([[]] is Go's [nil]).
    - [RegexSpec]: the declarative language semantics [matches] of the
      same AST and the proof that [mtc] is sound and complete for it.
    - [Results]: [Status], [Result], [ResultSet], [AddResult] (overwrite
      by (Name, Version), else append), [Len], [First]; the key invariant
      [rs_wf], the abstract map [rs_lookup] and the equivalence [rs_equiv]
      (same results up to order) with its [Proper] instances.
    - [Provider]: the provider interface as the record [Provider] of
      Name, Match and Releases; the event type of traces; the HTTP client
      as the class [Transport]; [Latest_of]; and [ProviderContract], what
      the orchestrator relies on (no panic on a matched name, [OK] comes
      with a non-empty set, only transport events emitted).
    - [Flags]: [Flags], [Short] and [Usage] of the subcommand, and the
      part of Go's [flag] package they reach: [parseOne] and [Parse] for
      a flag set that defines no flag, under [ExitOnError]; [help_arg],
      the shape of the arguments the package documents as a request for
      help.
    - [Cmd]: [Execute] from [os.Args]; its provider loop as the fold
      [run_providers] of [check_provider] and as the step relation [step]
      over [cstate] with the invariant [loop_inv] of its reachable states;
      the specification [found_spec] / [printed_spec] of spec section 4.4.
    - [SourceForge]: the two expressions transcribed constructor by
      constructor, [toResults], [Match], [split_name] and [status_of_code]
      (the first lines and the switch of [Releases]), [Releases] with the
      transport and the XML decoder as section parameters, [Latest], and
      the proof that the adapter meets [ProviderContract].
    - [PyPI]: [ConvertURLS] and [Convert] over the version map (a
      [gmap]), with [convert_loop] over any enumeration of the map since
      Go's map order is unspecified; [Adapter.Releases], the HTTP part of
      the adapter, from the specification, with the endpoint and [Match]
      as parameters; and the adapter under [Execute].

    ** What is proved (the manifest lists the 26 properties by id)

    - SourceForge (C1-C10, C17-C18, C20-C21, C23): [Releases] never
      panics on a name [Match] returned, and panics before any request
      on a name neither expression matches; the HTTP status
      classification; the body is closed exactly once, last, on every
      path after a response; [OK] comes with a non-empty, duplicate-free
      set whose versions are the captures of [TarballRegex]; an empty
      feed is [NotFound]; [Match] is idempotent, returns the whole link
      for every link in the strict expression's language, and refines
      the languages of the two expressions (it answers [""] exactly when
      no suffix of the query is in either language); the last item per
      version wins; [Latest] returns the first result; SourceForge
      adapters meet the orchestrator's contract whatever the transport
      and decoder.  Two findings, each for every input of its shape: for
      a name only [ProjectRegex] matches, the group swap requests the
      feed of the artifact group and names the set after the project
      group; and the ["C"] appended to [pubDate] stores every date whose
      text ends in a digit (a numeric zone, as in the spec's example)
      with the zero time, while every date in [UT] is stored exactly
      (format then parse round trip).
    - Cmd (C11-C12, C19, C26): under the contract, [Execute] with one
      positional argument probes every provider in registry order,
      prints exactly the sets of the providers that reached [OK], and
      returns [GOOD] iff one did (else [Fatalln] exits 1); reordering the
      registry (a parallel fan-out) changes neither the outcome nor the
      printed sets up to order; a first argument starting with a dash
      makes [flag.Parse] exit before any provider is probed, with status
      0 after the usage exactly when it asks for help and status 2 after
      an error line otherwise; by rule induction, every reachable state
      of the loop's machine has probed a prefix of the registry with one
      check line each, its [found] flag records whether a match was
      reported, and a crash comes right after the crashing provider's
      check line.
    - PyPI (C13-C16, C22, C24-C25): [Convert] panics exactly when a
      version has no file record, and then [Execute] crashes before the
      providers after PyPI are probed; otherwise [Convert] refines the
      version map (one result per version, from its last record), and
      every enumeration order of the map gives equivalent sets; with a
      decoder that never yields an empty version the adapter meets the
      provider contract, so [Execute]'s guarantees hold for a registry
      with it; after a response the body is closed once and last on
      every path, the panic included; an upload time in PyPI's format is
      stored exactly when its day exists in its month, and as the zero
      time otherwise (format then parse round trip).
    - Library lemmas: the regex matcher respects pointwise-equal
      continuations ([mtc_ext]), is sound and complete for the language
      semantics ([RegexSpec.mtc_sound], [RegexSpec.mtc_complete]); an
      end-anchored match consumes the rest of the input, re-running on
      the whole match reproduces the submatches
      ([FindStringSubmatch_rematch]), and a whole input in the language
      is its own match ([RegexSpec.FindStringSubmatch_whole]); the scan
      is leftmost ([find_from_leftmost]); every chunk of [time.Parse]
      consumes a prefix of the value, and no zone reads to its end a text
      ending in a digit and ["C"] ([GoTime.parse_RFC1123_digit_C]);
      [AddResult] refines map insertion.

    ** Bounds and fuel

    The only fuel is the repetition bound of the regex matcher: a
    repetition on input [s] runs with [S (length s)] iterations, and an
    iteration is accepted only when it consumed input, so the bound never
    stops a repetition ([Regex.loop_fuel_irrelevant]: any larger fuel
    gives the same result; [RegexSpec.mtc_complete]: no match of the
    unbounded semantics is lost).  [GoTime.skip] carries a fuel of the two
    lengths plus one, which each step decreases by consuming a character.
    The provider loop needs no fuel: it is structural on the registry.  Go [int]s are modelled as [Z] where they
    index ([go_index_Z]: a negative index panics) and as the parsed values
    of [time.Parse], whose 64-bit overflow check is not modelled (dates
    have four-digit years).

    ** Not modelled

    Colored console output and the [waterlog] logger set-up (log lines
    are structured trace events); the HTTP client and the XML and JSON
    decoders (parameters: a function from URL to response or error and
    functions from body to value or error); [providers.All()], whose
    members and order the spec does not give (the orchestrator's
    theorems take any registry); the PyPI [Match] grammar and endpoint; the flags of other subcommands
    (this one defines none, so the [flag] model covers no defined flag);
    UTF-8 decoding in [regexp] (inputs are byte strings, and for ASCII
    input, which URLs are, bytes and runes coincide); the time zone
    database that resolves zone abbreviations; and concurrency: the
    reference code is sequential, and the spec's parallel fan-out is
    covered only by the order-independence theorem.  Every function,
    method and type of the three files under [src/] has its definition;
    the lines left are licence comments, package clauses, imports, and
    the receiver [type Releases struct{}] of [src/cmd/releases.go],
    which carries no state, so its methods are plain functions here.
    The PyPI provider and the registry stay partly modelled because
    their files are not under [src/] and the specification does not
    give the PyPI endpoint, its [Match] grammar, or the registry's list.
*)

From Stdlib Require Import String Ascii List Bool Arith ZArith Lia Permutation.
Import ListNotations.

Declare Scope go_scope.
Delimit Scope go_scope with go.

(** ** Go results: a value or a run-time panic *)

Inductive GoResult (A : Type) : Type :=
| Ret (a : A)
| Panic (msg : string).
Arguments Ret {A} a.
Arguments Panic {A} msg.

(** A Go computation: its outcome and the events it emitted, in order. *)
Definition Go (E A : Type) : Type := (GoResult A * list E)%type.

Section GoMonad.
Context {E : Type}.

Definition go_ret {A} (a : A) : Go E A := (Ret a, []).
Definition go_panic {A} (msg : string) : Go E A := (Panic msg, []).
Definition go_emit (e : E) : Go E unit := (Ret tt, [e]).

Definition go_bind {A B} (m : Go E A) (f : A -> Go E B) : Go E B :=
  match m with
  | (Ret a, t1) => let (r, t2) := f a in (r, t1 ++ t2)
  | (Panic msg, t1) => (Panic msg, t1)
  end.

(** [defer e]: the event [e] is emitted when the function returns,
    whether it returns normally or panics. *)
Definition go_defer {A} (e : E) (m : Go E A) : Go E A :=
  (fst m, snd m ++ [e]).

(** Slice indexing [l[i]]: out of range is a run-time panic. *)
Definition go_index {A} (l : list A) (i : nat) : Go E A :=
  match nth_error l i with
  | Some x => go_ret x
  | None => go_panic "index out of range"
  end.

(** Indexing with a Go [int] index, which may be negative. *)
Definition go_index_Z {A} (l : list A) (i : Z) : Go E A :=
  if (i <? 0)%Z then go_panic "index out of range" else go_index l (Z.to_nat i).

(** Re-slicing [l[n:]]: a lower bound past the length is a run-time
    panic. *)
Definition go_slice_from {A} (l : list A) (n : nat) : Go E (list A) :=
  if n <=? length l then go_ret (skipn n l) else go_panic "slice bounds out of range".

(** Slice element assignment [l[i] = x], for an index already known to
    be in range. *)
Fixpoint list_set {A} (l : list A) (i : nat) (x : A) : list A :=
  match l, i with
  | [], _ => []
  | _ :: l', O => x :: l'
  | y :: l', S i' => y :: list_set l' i' x
  end.

Definition is_panic {A} (m : Go E A) : bool :=
  match fst m with Ret _ => false | Panic _ => true end.
End GoMonad.

Notation "'let!' x ':=' m 'in' k" := (go_bind m (fun x => k))
  (at level 10, x name, m at level 100, k at level 200) : go_scope.
Notation "'let!' ' p ':=' m 'in' k" := (go_bind m (fun p => k))
  (at level 10, p pattern, m at level 100, k at level 200) : go_scope.

(** ** Laws of the Go monad *)

Create HintDb cuppa discriminated.
Create Rewrite HintDb go_rw.

Section GoLaws.
Context {E : Type}.

Lemma go_bind_ret_l {A B} (a : A) (f : A -> Go E B) :
  go_bind (go_ret a) f = f a.
Proof. unfold go_bind, go_ret. destruct (f a). reflexivity. Qed.

Lemma go_bind_ret_r {A} (m : Go E A) : go_bind m go_ret = m.
Proof. destruct m as [[a|msg] t]; simpl; rewrite ?app_nil_r; reflexivity. Qed.

Lemma go_bind_assoc {A B C} (m : Go E A) (f : A -> Go E B) (g : B -> Go E C) :
  go_bind (go_bind m f) g = go_bind m (fun a => go_bind (f a) g).
Proof.
  destruct m as [[a|msg] t]; simpl; [|reflexivity].
  destruct (f a) as [[b|msg] t2]; simpl; [|reflexivity].
  destruct (g b) as [r t3]. rewrite app_assoc. reflexivity.
Qed.

Lemma go_bind_panic {A B} (msg : string) (f : A -> Go E B) :
  go_bind (go_panic msg) f = go_panic msg.
Proof. reflexivity. Qed.

End GoLaws.

#[export] Hint Rewrite @go_bind_ret_l @go_bind_ret_r @go_bind_assoc @go_bind_panic : go_rw.

(** ** Shared list lemmas *)

(** [s] is a suffix of [t]. *)
Definition suffix_of {A} (s t : list A) : Prop := exists p, t = p ++ s.

Section Suffix.
Context {A : Type}.

Lemma suffix_of_refl (s : list A) : suffix_of s s.
Proof. exists []. reflexivity. Qed.

Lemma suffix_of_trans (s t u : list A) :
  suffix_of s t -> suffix_of t u -> suffix_of s u.
Proof. intros [p ->] [q ->]. exists (q ++ p). apply app_assoc. Qed.

Lemma suffix_of_cons (x : A) (s t : list A) :
  suffix_of (x :: s) t -> suffix_of s t.
Proof. intros [p ->]. exists (p ++ [x]). rewrite <- app_assoc. reflexivity. Qed.

Lemma suffix_of_length (s t : list A) : suffix_of s t -> length s <= length t.
Proof. intros [p ->]. rewrite length_app. lia. Qed.

Lemma suffix_of_nil_r (s : list A) : suffix_of s [] -> s = [].
Proof. intros [p H]. symmetry in H. apply app_eq_nil in H. tauto. Qed.

Lemma suffix_of_cons_inv (x : A) (s t : list A) :
  suffix_of t (x :: s) -> t = x :: s \/ suffix_of t s.
Proof.
  intros [[|y p] H]; simpl in H; [now left|].
  injection H as -> ->. right. now exists p.
Qed.
Lemma suffix_of_cons_r (x : A) (s t : list A) : suffix_of s t -> suffix_of s (x :: t).
Proof. intros [p ->]. exists (x :: p). reflexivity. Qed.

Lemma suffix_of_skipn (n : nat) (l : list A) : suffix_of (skipn n l) l.
Proof. exists (firstn n l). symmetry. apply firstn_skipn. Qed.

(** A suffix of a list ending in [b] is empty or ends in [b]. *)
Lemma suffix_of_snoc (s x : list A) (b : A) :
  suffix_of s (x ++ [b]) -> s = [] \/ exists s0, s = s0 ++ [b] /\ suffix_of s0 x.
Proof.
  intros [p H]. destruct s as [|y s] using rev_ind; [now left|]. right. clear IHs.
  rewrite app_assoc in H. apply app_inj_tail in H as [Hx ->]. exists s. split; [reflexivity|].
  exists p. exact Hx.
Qed.

(** A suffix of a list ending in [a; b]: empty, [[b]], or ending in [a; b]. *)
Lemma suffix_of_snoc2 (s x : list A) (a b : A) :
  suffix_of s (x ++ [a; b]) -> s = [] \/ s = [b] \/ exists s0, s = s0 ++ [a; b].
Proof.
  intros H. replace (x ++ [a; b]) with ((x ++ [a]) ++ [b]) in H by (rewrite <- app_assoc; reflexivity).
  destruct (suffix_of_snoc _ _ _ H) as [->|(s0 & -> & H0)]; [now left|right].
  destruct (suffix_of_snoc _ _ _ H0) as [->|(s1 & -> & _)]; [now left|right].
  exists s1. rewrite <- app_assoc. reflexivity.
Qed.

(** The last two elements of lists that end alike. *)
Lemma snoc2_inj (x y : list A) (a b c d : A) : x ++ [a; b] = y ++ [c; d] -> a = c /\ b = d.
Proof.
  intros H. replace (x ++ [a; b]) with ((x ++ [a]) ++ [b]) in H by (rewrite <- app_assoc; reflexivity).
  replace (y ++ [c; d]) with ((y ++ [c]) ++ [d]) in H by (rewrite <- app_assoc; reflexivity).
  apply app_inj_tail in H as [H ->]. apply app_inj_tail in H as [_ ->]. auto.
Qed.
End Suffix.

#[export] Hint Resolve suffix_of_refl suffix_of_trans suffix_of_cons suffix_of_length : cuppa.
#[export] Hint Resolve suffix_of_cons_r suffix_of_skipn : cuppa.

(** An invariant of the accumulator of a [fold_left]. *)
Lemma fold_left_invariant {A B} (I : B -> Prop) (f : B -> A -> B) (l : list A) (b : B) :
  I b -> (forall b' x, In x l -> I b' -> I (f b' x)) -> I (fold_left f l b).
Proof.
  revert b. induction l as [|x l IH]; intros b Hb Hf; simpl; [exact Hb|].
  apply IH; [apply Hf; simpl; auto|]. intros b' y Hy. apply Hf. simpl. auto.
Qed.

Lemma existsb_Permutation {A} (f : A -> bool) (l1 l2 : list A) :
  Permutation l1 l2 -> existsb f l1 = existsb f l2.
Proof.
  induction 1; simpl; auto.
  - rewrite IHPermutation. reflexivity.
  - rewrite !Bool.orb_assoc, (Bool.orb_comm (f y)). reflexivity.
  - congruence.
Qed.

(** ** Strings as byte lists *)

Lemma string_list_ascii_roundtrip (l : list ascii) :
  list_ascii_of_string (string_of_list_ascii l) = l.
Proof. apply list_ascii_of_string_of_list_ascii. Qed.

Lemma list_ascii_of_string_app (s1 s2 : string) :
  list_ascii_of_string (s1 ++ s2) = list_ascii_of_string s1 ++ list_ascii_of_string s2.
Proof. induction s1 as [|a s1 IH]; simpl; [reflexivity|]. rewrite IH. reflexivity. Qed.

#[export] Hint Rewrite string_list_ascii_roundtrip string_of_list_ascii_of_string : go_rw.

(** ** Tactics *)

(** Split an equation on a Go computation into its outcome and trace. *)
Ltac go_inv H :=
  match type of H with
  | (_, _) = (_, _) => injection H as; subst
  end.

(** Case on the boolean tests the code branches on. *)
Ltac case_if :=
  match goal with
  | |- context [if ?b then _ else _] => let E := fresh "Hif" in destruct b eqn:E
  end.
