(* ===== verification/GoTime.v ===== *)
(** * The subset of Go's [time.Parse] the adapters call

    A layout is given by its chunks, as Go's [nextStdChunk] splits it:
    literal text and the standard fields [Mon], [02], [Jan], [01],
    [2006], [15], [04], [05] and [MST].  [parse] interprets the chunks
    left to right the way Go's [parse] does (its helpers [skip],
    [getnum], [lookup], [parseTimeZone], [parseGMT], [parseSignedOffset]
    and the fractional-second special case after the seconds), then
    rejects extra text and validates the day against the month.  Any
    error is [None]; the adapters replace it by [zero_time], Go's
    [time.Time{}].  Times are kept as civil fields and the zone name:
    resolving an abbreviation against the local zone database is not
    modelled.  The lemmas show that the RFC1123 text of a date in [UT] ([rfc1123_UT], numbers written with leading zeros as
    feeds write them) parses back, with the ["C"] the feed adapter
    appends, to the same time in UTC ([parse_rfc1123_UT]), one lemma per
    chunk of the layout; the same lemmas, with those of the numeric month
    and of seconds ending the value, serve the text PyPI writes for an
    upload time ([iso_datetime]), whose round trip is proved in [PyPI].
    The last group shows the other side of the feed adapter's ["C"]:
    every chunk consumes a prefix of the value, and no zone reads to its
    end a text that ends in a digit and ["C"], so such dates never parse
    ([parse_RFC1123_digit_C]). *)

From Stdlib Require Import String Ascii List Bool ZArith Lia.
From S2P Require Import Prelude.
Import ListNotations.
Local Open Scope Z_scope.

Module GoTime.

Record Time : Type := mkTime {
  year : Z; month : Z; day : Z; hour : Z; minute : Z; second : Z; nsec : Z;
  zone : string }.

(** [time.Time{}]: January 1, year 1, 00:00:00 UTC. *)
Definition zero_time : Time := mkTime 1 1 1 0 0 0 0 "UTC".

Inductive chunk : Type :=
| Lit (s : string)
| StdWeekDay | StdZeroDay | StdMonth | StdZeroMonth | StdLongYear
| StdHour | StdZeroMinute | StdZeroSecond | StdTZ.

(** [time.RFC1123 = "Mon, 02 Jan 2006 15:04:05 MST"]. *)
Definition RFC1123 : list chunk :=
  [StdWeekDay; Lit ", "; StdZeroDay; Lit " "; StdMonth; Lit " "; StdLongYear; Lit " ";
   StdHour; Lit ":"; StdZeroMinute; Lit ":"; StdZeroSecond; Lit " "; StdTZ].

(** ** Go's parsing helpers, on byte lists *)

Definition digit_val (c : ascii) : Z := Z.of_nat (nat_of_ascii c) - 48.
Definition is_digit (c : ascii) : bool := (0 <=? digit_val c) && (digit_val c <=? 9).

Definition isDigitAt (s : list ascii) (i : nat) : bool :=
  match nth_error s i with Some c => is_digit c | None => false end.

(** [getnum(s, fixed)]: one or two digits; exactly two when [fixed]. *)
Definition getnum (s : list ascii) (fixed : bool) : option (Z * list ascii) :=
  match s with
  | c0 :: rest =>
      if negb (is_digit c0) then None else
      match rest with
      | c1 :: rest' =>
          if is_digit c1 then Some (digit_val c0 * 10 + digit_val c1, rest')
          else if fixed then None else Some (digit_val c0, rest)
      | [] => if fixed then None else Some (digit_val c0, rest)
      end
  | [] => None
  end.

Fixpoint cutspace (s : list ascii) : list ascii :=
  match s with
  | " "%char :: s' => cutspace s'
  | _ => s
  end.

(** [skip(value, prefix)]: a space of the layout matches any run of
    spaces of the value. *)
Fixpoint skip (fuel : nat) (value prefix : list ascii) : option (list ascii) :=
  match fuel with
  | O => Some value
  | S fuel' =>
    match prefix with
    | [] => Some value
    | " "%char :: _ =>
        match value with
        | c :: _ => if negb (Ascii.eqb c " "%char) then None
                    else skip fuel' (cutspace value) (cutspace prefix)
        | [] => skip fuel' (cutspace value) (cutspace prefix)
        end
    | p :: prefix' =>
        match value with
        | c :: value' => if Ascii.eqb c p then skip fuel' value' prefix' else None
        | [] => None
        end
    end
  end.

(** [match(s1, s2)]: ASCII case-insensitive equality of equal-length
    strings. *)
Definition lower (c : ascii) : Z := Z.lor (Z.of_nat (nat_of_ascii c)) 32.
Fixpoint match_ci (s1 s2 : list ascii) : bool :=
  match s1, s2 with
  | c1 :: s1', c2 :: s2' =>
      (Ascii.eqb c1 c2 || ((lower c1 =? lower c2) && (97 <=? lower c1) && (lower c1 <=? 122)))
      && match_ci s1' s2'
  | [], [] => true
  | _, _ => false
  end.

(** [lookup(tab, val)]: index of the first table entry that prefixes
    [val] case-insensitively. *)
Fixpoint lookup_from (i : Z) (tab : list string) (val : list ascii) : option (Z * list ascii) :=
  match tab with
  | [] => None
  | v :: tab' =>
      let lv := list_ascii_of_string v in
      if (length lv <=? length val)%nat && match_ci (firstn (length lv) val) lv
      then Some (i, skipn (length lv) val)
      else lookup_from (i + 1) tab' val
  end.

Definition shortDayNames : list string := ["Sun"; "Mon"; "Tue"; "Wed"; "Thu"; "Fri"; "Sat"]%string.
Definition shortMonthNames : list string :=
  ["Jan"; "Feb"; "Mar"; "Apr"; "May"; "Jun"; "Jul"; "Aug"; "Sep"; "Oct"; "Nov"; "Dec"]%string.

(** [leadingInt]: the leading decimal digits and what follows them
    (Go's overflow check at 2^63 is not modelled). *)
Fixpoint leadingInt_acc (acc : Z) (s : list ascii) : Z * list ascii :=
  match s with
  | c :: s' => if is_digit c then leadingInt_acc (acc * 10 + digit_val c) s' else (acc, s)
  | [] => (acc, s)
  end.

(** [parseSignedOffset]: a sign and an hour offset of at most 23. *)
Definition parseSignedOffset (value : list ascii) : nat :=
  match value with
  | sgn :: rest =>
      if negb (Ascii.eqb sgn "-"%char || Ascii.eqb sgn "+"%char) then 0%nat else
      let (x, rem) := leadingInt_acc 0 rest in
      if (length rem =? length rest)%nat then 0%nat
      else if 23 <? x then 0%nat
      else (length value - length rem)%nat
  | [] => 0%nat
  end.

Definition parseGMT (value : list ascii) : nat :=
  let value' := skipn 3 value in
  match value' with
  | [] => 3%nat
  | _ => (3 + parseSignedOffset value')%nat
  end.

Fixpoint count_upper (n : nat) (s : list ascii) : nat :=
  match n, s with
  | S n', c :: s' => if (65 <=? digit_val c + 48) && (digit_val c + 48 <=? 90)
                     then S (count_upper n' s') else 0%nat
  | _, _ => 0%nat
  end.

Definition is_prefix (p : string) (s : list ascii) : bool :=
  let lp := list_ascii_of_string p in
  if list_eq_dec ascii_dec (firstn (length lp) s) lp then true else false.

(** [parseTimeZone]: the length of a zone abbreviation, if any. *)
Definition parseTimeZone (value : list ascii) : option nat :=
  if (length value <? 3)%nat then None
  else if is_prefix "ChST" value || is_prefix "MeST" value then Some 4%nat
  else if is_prefix "GMT" value then Some (parseGMT value)
  else match value with
       | c :: _ =>
           if Ascii.eqb c "+"%char || Ascii.eqb c "-"%char then
             let n := parseSignedOffset value in if (n =? 0)%nat then None else Some n
           else
             match count_upper 6 value with
             | 3%nat => Some 3%nat
             | 4%nat => if Ascii.eqb (nth 3 value " "%char) "T"%char || is_prefix "WITA" value
                        then Some 4%nat else None
             | 5%nat => if Ascii.eqb (nth 4 value " "%char) "T"%char then Some 5%nat else None
             | _ => None
             end
       | [] => None
       end.

(** [parseNanoseconds(value, n)] after the seconds: [value] starts with
    ['.'] or [','] followed by [n - 1] digits. *)
Definition parseNanoseconds (value : list ascii) (n : nat) : Z :=
  let n' := Nat.min n 10 in
  let (ns, _) := leadingInt_acc 0 (firstn (n' - 1) (skipn 1 value)) in
  ns * 10 ^ Z.of_nat (10 - n').

Fixpoint count_digits (s : list ascii) : nat :=
  match s with
  | c :: s' => if is_digit c then S (count_digits s') else 0%nat
  | [] => 0%nat
  end.

(** ** The parser's state and the chunk interpreter *)

Record pstate : Type := mkP {
  p_year : Z; p_month : Z; p_day : Z; p_hour : Z; p_min : Z; p_sec : Z; p_nsec : Z;
  p_utc : bool; p_zone : string }.

Definition init_pstate : pstate := mkP 0 1 1 0 0 0 0 false "".

Definition in_rangeZ (lo x hi : Z) : bool := (lo <=? x) && (x <? hi).

Definition step_chunk (ch : chunk) (v : list ascii) (st : pstate) : option (pstate * list ascii) :=
  let 'mkP y mo d h mi se ns u z := st in
  match ch with
  | Lit s => option_map (fun v' => (st, v')) (skip (length v + String.length s + 1) v (list_ascii_of_string s))
  | StdWeekDay => option_map (fun '(_, v') => (st, v')) (lookup_from 0 shortDayNames v)
  | StdMonth => option_map (fun '(i, v') => (mkP y (i + 1) d h mi se ns u z, v'))
                           (lookup_from 0 shortMonthNames v)
  | StdZeroMonth =>
      match getnum v true with
      | Some (m, v') => if in_rangeZ 1 m 13 then Some (mkP y m d h mi se ns u z, v') else None
      | None => None
      end
  | StdZeroDay => option_map (fun '(dd, v') => (mkP y mo dd h mi se ns u z, v')) (getnum v true)
  | StdLongYear =>
      if (length v <? 4)%nat || negb (isDigitAt v 0) then None else
      let (yy, rem) := leadingInt_acc 0 (firstn 4 v) in
      match rem with [] => Some (mkP yy mo d h mi se ns u z, skipn 4 v) | _ => None end
  | StdHour =>
      match getnum v false with
      | Some (hh, v') => if in_rangeZ 0 hh 24 then Some (mkP y mo d hh mi se ns u z, v') else None
      | None => None
      end
  | StdZeroMinute =>
      match getnum v true with
      | Some (mm, v') => if in_rangeZ 0 mm 60 then Some (mkP y mo d h mm se ns u z, v') else None
      | None => None
      end
  | StdZeroSecond =>
      match getnum v true with
      | Some (ss, v') =>
          if negb (in_rangeZ 0 ss 60) then None else
          match v' with
          | c :: _ =>
              if (Ascii.eqb c "."%char || Ascii.eqb c ","%char) && isDigitAt v' 1 then
                let n := (1 + count_digits (skipn 1 v'))%nat in
                Some (mkP y mo d h mi ss (parseNanoseconds v' n) u z, skipn n v')
              else Some (mkP y mo d h mi ss ns u z, v')
          | [] => Some (mkP y mo d h mi ss ns u z, v')
          end
      | None => None
      end
  | StdTZ =>
      if is_prefix "UTC" v then Some (mkP y mo d h mi se ns true z, skipn 3 v)
      else match parseTimeZone v with
           | Some n => Some (mkP y mo d h mi se ns u (string_of_list_ascii (firstn n v)), skipn n v)
           | None => None
           end
  end.

Fixpoint run_chunks (l : list chunk) (v : list ascii) (st : pstate) : option (pstate * list ascii) :=
  match l with
  | [] => Some (st, v)
  | ch :: l' =>
      match step_chunk ch v st with
      | Some (st', v') => run_chunks l' v' st'
      | None => None
      end
  end.

Definition isLeap (y : Z) : bool :=
  (y mod 4 =? 0) && (negb (y mod 100 =? 0) || (y mod 400 =? 0)).

Definition daysIn (m y : Z) : Z :=
  if (m =? 2) && isLeap y then 29
  else nth (Z.to_nat (m - 1)) [31; 28; 31; 30; 31; 30; 31; 31; 30; 31; 30; 31] 0.

(** [time.Parse(layout, value)]; [None] is a [*ParseError]. *)
Definition parse (layout : list chunk) (value : string) : option Time :=
  match run_chunks layout (list_ascii_of_string value) init_pstate with
  | Some (mkP y mo d h mi se ns u z, []) =>
      if (d <? 1) || (daysIn mo y <? d) then None
      else Some (mkTime y mo d h mi se ns (if u then "UTC" else if String.eqb z "" then "UTC" else z))
  | _ => None
  end.

(** [t, _ := time.Parse(layout, value)]: the error is dropped and the
    zero time stands for a failed parse. *)
Definition parse_or_zero (layout : list chunk) (value : string) : Time :=
  match parse layout value with Some t => t | None => zero_time end.

(** ** Valid calendar times *)

Definition valid_time (t : Time) : Prop :=
  1 <= month t <= 12 /\ 1 <= day t <= daysIn (month t) (year t) /\
  0 <= hour t < 24 /\ 0 <= minute t < 60 /\ 0 <= second t < 60.

(** ** Dates written in RFC1123 with the zone [UT] parse back *)

(** The decimal digit [n], and numbers written on two and four digits
    with leading zeros, as an RSS feed writes them. *)
Definition digit (n : Z) : ascii := ascii_of_nat (Z.to_nat (48 + n)).
Definition pad2 (n : Z) : list ascii := [digit (n / 10); digit (n mod 10)].
Definition pad4 (n : Z) : list ascii :=
  [digit (n / 1000); digit (n / 100 mod 10); digit (n / 10 mod 10); digit (n mod 10)].

(** An RFC1123 date in [UT] ("Mon, 02 Jan 2006 15:04:05 UT") with the
    weekday name [wd]; [time.Parse] ignores the weekday's value. *)
Definition rfc1123_UT (wd : string) (t : Time) : list ascii :=
  list_ascii_of_string wd ++ list_ascii_of_string ", "%string ++ pad2 (day t) ++ [" "%char] ++
  list_ascii_of_string (nth (Z.to_nat (month t - 1)) shortMonthNames ""%string) ++ [" "%char] ++
  pad4 (year t) ++ [" "%char] ++ pad2 (hour t) ++ [":"%char] ++ pad2 (minute t) ++ [":"%char] ++
  pad2 (second t) ++ list_ascii_of_string " UT"%string.

(** The calendar fields a four-digit RFC1123 date can carry. *)
Definition date_ok (t : Time) : Prop :=
  0 <= year t <= 9999 /\ valid_time t.

(** An upload time as the PyPI JSON API writes it,
    ["2016-01-01T00:00:00"]: every field on its fixed number of digits,
    no fraction and no zone. *)
Definition iso_datetime (t : Time) : list ascii :=
  pad4 (year t) ++ ["-"%char] ++ pad2 (month t) ++ ["-"%char] ++ pad2 (day t) ++ ["T"%char] ++
  pad2 (hour t) ++ [":"%char] ++ pad2 (minute t) ++ [":"%char] ++ pad2 (second t).

(** The fields that text can write and the layout's fields accept; the
    day is any two digits, whether or not it exists in its month. *)
Definition fields_ok (t : Time) : Prop :=
  0 <= year t <= 9999 /\ 1 <= month t <= 12 /\ 0 <= day t < 100 /\
  0 <= hour t < 24 /\ 0 <= minute t < 60 /\ 0 <= second t < 60.

(** The day check that [parse] makes once the layout is consumed. *)
Definition day_ok (t : Time) : bool := (1 <=? day t) && (day t <=? daysIn (month t) (year t)).

Lemma digit_spec n :
  0 <= n <= 9 -> is_digit (digit n) = true /\ digit_val (digit n) = n /\ digit n <> " "%char.
Proof.
  intros Hn. unfold is_digit, digit_val, digit.
  rewrite nat_ascii_embedding by lia. rewrite Z2Nat.id by lia.
  replace (48 + n - 48) with n by lia. split; [|split; [reflexivity|]].
  - apply andb_true_iff. rewrite Z.leb_le, Z.leb_le. lia.
  - intros E. apply (f_equal nat_of_ascii) in E.
    rewrite nat_ascii_embedding in E by lia. change (nat_of_ascii " "%char) with 32%nat in E. lia.
Qed.

Lemma cutspace_nonspace c s : c <> " "%char -> cutspace (c :: s) = c :: s.
Proof. intros H. destruct c as [[] [] [] [] [] [] [] []]; try reflexivity. congruence. Qed.

Lemma getnum_pad2 n rest b : 0 <= n < 100 -> getnum (pad2 n ++ rest) b = Some (n, rest).
Proof.
  intros Hn.
  destruct (digit_spec (n / 10)) as (D1 & V1 & _);
    [split; [apply Z.div_pos|apply Z.lt_succ_r, Z.div_lt_upper_bound]; lia|].
  destruct (digit_spec (n mod 10)) as (D2 & V2 & _); [pose proof (Z.mod_pos_bound n 10); lia|].
  unfold pad2. cbn [app getnum]. rewrite D1, D2, V1, V2. cbn [negb].
  f_equal. f_equal. pose proof (Z.div_mod n 10). lia.
Qed.

Lemma cutspace_digit n rest : 0 <= n <= 9 -> cutspace (digit n :: rest) = digit n :: rest.
Proof. intros Hn. apply cutspace_nonspace, digit_spec, Hn. Qed.

Lemma div10_bound n : 0 <= n < 100 -> 0 <= n / 10 <= 9.
Proof. intros Hn. split; [apply Z.div_pos|apply Z.lt_succ_r, Z.div_lt_upper_bound]; lia. Qed.

Lemma mod10_bound n : 0 <= n mod 10 <= 9.
Proof. pose proof (Z.mod_pos_bound n 10). lia. Qed.

Lemma skip_nil fuel v : skip fuel v [] = Some v.
Proof. destruct fuel; reflexivity. Qed.

(** The separators [", "] and [" "] of the layout, before a value that
    does not start with a space, and [":"]. *)
Lemma step_lit_sep (sep : string) v st :
  sep = ", "%string \/ sep = " "%string -> cutspace v = v ->
  step_chunk (Lit sep) (list_ascii_of_string sep ++ v) st = Some (st, v).
Proof.
  intros Hs Hv. destruct st. destruct Hs as [->| ->]; cbv beta iota zeta delta [step_chunk option_map];
    cbn [list_ascii_of_string app length String.length Nat.add skip Ascii.eqb negb cutspace];
    rewrite Hv, skip_nil; reflexivity.
Qed.

Lemma step_lit_colon v st : step_chunk (Lit ":") ([":"%char] ++ v) st = Some (st, v).
Proof. destruct st. cbv beta iota zeta delta [step_chunk option_map]. cbn. rewrite skip_nil. reflexivity. Qed.

Lemma step_weekday wd rest st :
  In wd shortDayNames -> step_chunk StdWeekDay (list_ascii_of_string wd ++ rest) st = Some (st, rest).
Proof. destruct st. simpl. intros H. repeat destruct H as [<-|H]; try contradiction; reflexivity. Qed.

Definition month_name (m : Z) : string := nth (Z.to_nat (m - 1)) shortMonthNames ""%string.

Lemma month_cases m : 1 <= m <= 12 ->
  m = 1 \/ m = 2 \/ m = 3 \/ m = 4 \/ m = 5 \/ m = 6 \/ m = 7 \/ m = 8 \/ m = 9 \/ m = 10 \/ m = 11 \/ m = 12.
Proof. lia. Qed.

(** One goal per month, with [m] replaced by its number. *)
Ltac month_split m Hm :=
  let Hc := fresh "Hc" in
  pose proof (month_cases m Hm) as Hc;
  repeat (destruct Hc as [Hc|Hc]; [subst m|]); try subst m.

Lemma step_month m rest y mo d h mi se ns u z :
  1 <= m <= 12 ->
  step_chunk StdMonth (list_ascii_of_string (month_name m) ++ rest) (mkP y mo d h mi se ns u z) =
  Some (mkP y m d h mi se ns u z, rest).
Proof. intros Hm. month_split m Hm; reflexivity. Qed.

Lemma cutspace_month m rest : 1 <= m <= 12 ->
  cutspace (list_ascii_of_string (month_name m) ++ rest) = list_ascii_of_string (month_name m) ++ rest.
Proof. intros Hm. month_split m Hm; reflexivity. Qed.

Lemma in_rangeZ_true lo x hi : lo <= x < hi -> in_rangeZ lo x hi = true.
Proof. intros H. unfold in_rangeZ. apply andb_true_iff. rewrite Z.leb_le, Z.ltb_lt. exact H. Qed.

Lemma step_day dd rest y mo d h mi se ns u z : 0 <= dd < 100 ->
  step_chunk StdZeroDay (pad2 dd ++ rest) (mkP y mo d h mi se ns u z) =
  Some (mkP y mo dd h mi se ns u z, rest).
Proof. intros H. cbv beta iota zeta delta [step_chunk option_map]. rewrite getnum_pad2 by exact H. reflexivity. Qed.

Lemma step_hour hh rest y mo d h mi se ns u z : 0 <= hh < 24 ->
  step_chunk StdHour (pad2 hh ++ rest) (mkP y mo d h mi se ns u z) =
  Some (mkP y mo d hh mi se ns u z, rest).
Proof.
  intros H. cbv beta iota zeta delta [step_chunk]. rewrite getnum_pad2 by lia.
  rewrite in_rangeZ_true by exact H. reflexivity.
Qed.

Lemma step_minute mm rest y mo d h mi se ns u z : 0 <= mm < 60 ->
  step_chunk StdZeroMinute (pad2 mm ++ rest) (mkP y mo d h mi se ns u z) =
  Some (mkP y mo d h mm se ns u z, rest).
Proof.
  intros H. cbv beta iota zeta delta [step_chunk]. rewrite getnum_pad2 by lia.
  rewrite in_rangeZ_true by exact H. reflexivity.
Qed.

(** The seconds, followed by the space before the zone (no fraction). *)
Lemma step_second ss rest y mo d h mi se ns u z : 0 <= ss < 60 ->
  step_chunk StdZeroSecond (pad2 ss ++ " "%char :: rest) (mkP y mo d h mi se ns u z) =
  Some (mkP y mo d h mi ss ns u z, " "%char :: rest).
Proof.
  intros H. cbv beta iota zeta delta [step_chunk]. rewrite getnum_pad2 by lia.
  rewrite in_rangeZ_true by exact H. reflexivity.
Qed.

Lemma pad4_value y : 0 <= y <= 9999 ->
  ((((0 * 10 + y / 1000) * 10 + y / 100 mod 10) * 10 + y / 10 mod 10) * 10 + y mod 10) = y.
Proof. intros H. Z.to_euclidean_division_equations. lia. Qed.

Lemma step_year yy rest y mo d h mi se ns u z : 0 <= yy <= 9999 ->
  step_chunk StdLongYear (pad4 yy ++ rest) (mkP y mo d h mi se ns u z) =
  Some (mkP yy mo d h mi se ns u z, rest).
Proof.
  intros H.
  destruct (digit_spec (yy / 1000)) as (D1 & V1 & _);
    [split; [apply Z.div_pos|apply Z.lt_succ_r, Z.div_lt_upper_bound]; lia|].
  destruct (digit_spec (yy / 100 mod 10)) as (D2 & V2 & _); [apply mod10_bound|].
  destruct (digit_spec (yy / 10 mod 10)) as (D3 & V3 & _); [apply mod10_bound|].
  destruct (digit_spec (yy mod 10)) as (D4 & V4 & _); [apply mod10_bound|].
  unfold pad4. cbv beta iota zeta delta [step_chunk]. cbn [app length Nat.ltb Nat.leb isDigitAt nth_error firstn skipn].
  rewrite D1. cbn [negb orb leadingInt_acc]. rewrite D1, D2, D3, D4, V1, V2, V3, V4. cbn [leadingInt_acc].
  rewrite pad4_value by exact H. reflexivity.
Qed.

Lemma step_utc y mo d h mi se ns u z :
  step_chunk StdTZ (list_ascii_of_string "UTC") (mkP y mo d h mi se ns u z) =
  Some (mkP y mo d h mi se ns true z, []).
Proof. reflexivity. Qed.

Lemma daysIn_le m y : 1 <= m <= 12 -> daysIn m y <= 31.
Proof.
  intros Hm. unfold daysIn. destruct ((m =? 2) && isLeap y); [lia|].
  month_split m Hm; apply Z.leb_le; vm_compute; reflexivity.
Qed.

Lemma cutspace_pad2 n rest : 0 <= n < 100 -> cutspace (pad2 n ++ rest) = pad2 n ++ rest.
Proof. intros H. apply cutspace_digit, div10_bound, H. Qed.

Lemma cutspace_pad4 n rest : 0 <= n <= 9999 -> cutspace (pad4 n ++ rest) = pad4 n ++ rest.
Proof.
  intros H. apply cutspace_digit.
  split; [apply Z.div_pos|apply Z.lt_succ_r, Z.div_lt_upper_bound]; lia.
Qed.

(** The one-character separators of numeric layouts. *)
Lemma step_lit_char (c : ascii) v st :
  c = "-"%char \/ c = "T"%char \/ c = ":"%char ->
  step_chunk (Lit (String c EmptyString)) (c :: v) st = Some (st, v).
Proof.
  intros Hc. destruct st. destruct Hc as [->|[->| ->]];
    cbv beta iota zeta delta [step_chunk option_map]; cbn; rewrite skip_nil; reflexivity.
Qed.

Lemma step_zero_month mo' rest y mo d h mi se ns u z : 1 <= mo' <= 12 ->
  step_chunk StdZeroMonth (pad2 mo' ++ rest) (mkP y mo d h mi se ns u z) =
  Some (mkP y mo' d h mi se ns u z, rest).
Proof.
  intros H. cbv beta iota zeta delta [step_chunk]. rewrite getnum_pad2 by lia.
  rewrite in_rangeZ_true by lia. reflexivity.
Qed.

(** The seconds at the end of the value. *)
Lemma step_second_end ss y mo d h mi se ns u z : 0 <= ss < 60 ->
  step_chunk StdZeroSecond (pad2 ss) (mkP y mo d h mi se ns u z) =
  Some (mkP y mo d h mi ss ns u z, []).
Proof.
  intros H. rewrite <- (app_nil_r (pad2 ss)). cbv beta iota zeta delta [step_chunk].
  rewrite getnum_pad2 by lia. rewrite in_rangeZ_true by exact H. reflexivity.
Qed.

(** Round trip: the RFC1123 text of a date in [UT] with the ["C"] the
    feed adapter appends parses back to the same calendar time in UTC,
    with no fraction of a second. *)
Theorem parse_rfc1123_UT wd t :
  In wd shortDayNames -> date_ok t ->
  parse RFC1123 (string_of_list_ascii (rfc1123_UT wd t) ++ "C") =
    Some (mkTime (year t) (month t) (day t) (hour t) (minute t) (second t) 0 "UTC").
Proof.
  intros Hwd (Hy & Hm & Hd & Hh & Hmi & Hs). pose proof (daysIn_le (month t) (year t) Hm) as Hd31.
  unfold parse. rewrite list_ascii_of_string_app, string_list_ascii_roundtrip.
  unfold rfc1123_UT. rewrite <- !app_assoc.
  change (list_ascii_of_string " UT" ++ list_ascii_of_string "C")
    with (list_ascii_of_string " " ++ list_ascii_of_string "UTC").
  change ([" "%char] ++ ?v) with (list_ascii_of_string " " ++ v).
  fold (month_name (month t)).
  unfold RFC1123, init_pstate. cbn [run_chunks].
  rewrite step_weekday by exact Hwd. cbv iota beta.
  rewrite step_lit_sep by (auto; apply cutspace_pad2; lia). cbv iota beta.
  rewrite step_day by lia. cbv iota beta.
  rewrite step_lit_sep by (auto; apply cutspace_month; lia). cbv iota beta.
  rewrite step_month by lia. cbv iota beta.
  rewrite step_lit_sep by (auto; apply cutspace_pad4; lia). cbv iota beta.
  rewrite step_year by lia. cbv iota beta.
  rewrite step_lit_sep by (auto; apply cutspace_pad2; lia). cbv iota beta.
  rewrite step_hour by lia. cbv iota beta.
  rewrite step_lit_colon. cbv iota beta.
  rewrite step_minute by lia. cbv iota beta.
  rewrite step_lit_colon. cbv iota beta.
  change (list_ascii_of_string " " ++ list_ascii_of_string "UTC")
    with (" "%char :: list_ascii_of_string "UTC").
  rewrite step_second by lia. cbv iota beta.
  change (" "%char :: list_ascii_of_string "UTC")
    with (list_ascii_of_string " " ++ list_ascii_of_string "UTC").
  rewrite step_lit_sep by (auto; reflexivity). cbv iota beta.
  rewrite step_utc. cbv iota beta.
  replace ((day t <? 1) || (daysIn (month t) (year t) <? day t)) with false
    by (symmetry; apply orb_false_iff; split; apply Z.ltb_ge; lia).
  reflexivity.
Qed.

(** ** A date whose text ends in a digit does not parse once ["C"] is appended *)

(** Every chunk of the layout consumes a prefix of the value. *)
Lemma cutspace_suffix l : suffix_of (cutspace l) l.
Proof.
  induction l as [|c l IH]; [apply suffix_of_refl|].
  destruct (ascii_dec c " ") as [->|Hc].
  - simpl. apply suffix_of_cons_r, IH.
  - rewrite (cutspace_nonspace c l Hc). apply suffix_of_refl.
Qed.

Lemma skip_cons_nonspace fuel v p0 p :
  p0 <> " "%char ->
  skip (S fuel) v (p0 :: p) =
    match v with c :: v' => if Ascii.eqb c p0 then skip fuel v' p else None | [] => None end.
Proof. intros H. destruct p0 as [[] [] [] [] [] [] [] []]; try reflexivity. congruence. Qed.

Lemma skip_suffix fuel v p v' : skip fuel v p = Some v' -> suffix_of v' v.
Proof.
  revert v p. induction fuel as [|fuel IH]; intros v p H; [injection H as <-; apply suffix_of_refl|].
  destruct p as [|p0 p]; [injection H as <-; apply suffix_of_refl|].
  destruct (ascii_dec p0 " ") as [->|Hp].
  - simpl in H. destruct v as [|c v].
    + exact (IH _ _ H).
    + destruct (negb _); [discriminate|].
      eapply suffix_of_trans; [exact (IH _ _ H)|apply cutspace_suffix].
  - rewrite skip_cons_nonspace in H by exact Hp. destruct v as [|c v]; [discriminate|].
    destruct (Ascii.eqb c p0); [|discriminate]. apply suffix_of_cons_r, (IH _ _ H).
Qed.

Lemma getnum_suffix v b n v' : getnum v b = Some (n, v') -> suffix_of v' v.
Proof.
  unfold getnum. destruct v as [|c0 [|c1 r]]; [discriminate| |];
    destruct (negb (is_digit c0)); try discriminate;
    repeat match goal with |- context [if ?x then _ else _] => destruct x end;
    intros H; first [discriminate H | injection H as _ <-; auto with cuppa].
Qed.

Lemma lookup_from_suffix i tab v j v' : lookup_from i tab v = Some (j, v') -> suffix_of v' v.
Proof.
  revert i. induction tab as [|x tab IH]; intros i; simpl; [discriminate|].
  destruct (_ && _); [intros H; injection H as _ <-; apply suffix_of_skipn|apply IH].
Qed.

Lemma step_chunk_suffix ch v st st' v' : step_chunk ch v st = Some (st', v') -> suffix_of v' v.
Proof.
  destruct st. destruct ch; cbv beta iota zeta delta [step_chunk option_map].
  - destruct (skip _ _ _) eqn:E; [|discriminate]. intros H; injection H as _ <-. exact (skip_suffix _ _ _ _ E).
  - destruct (lookup_from _ _ _) as [[i w]|] eqn:E; [|discriminate].
    intros H; injection H as _ <-. exact (lookup_from_suffix _ _ _ _ _ E).
  - destruct (getnum v true) as [[n w]|] eqn:E; [|discriminate].
    intros H; injection H as _ <-. exact (getnum_suffix _ _ _ _ E).
  - destruct (lookup_from _ _ _) as [[i w]|] eqn:E; [|discriminate].
    intros H; injection H as _ <-. exact (lookup_from_suffix _ _ _ _ _ E).
  - destruct (getnum v true) as [[n w]|] eqn:E; [|discriminate]. destruct (in_rangeZ _ _ _); [|discriminate].
    intros H; injection H as _ <-. exact (getnum_suffix _ _ _ _ E).
  - destruct (_ || _); [discriminate|]. destruct (leadingInt_acc _ _) as [yy [|c r]]; [|discriminate].
    intros H; injection H as _ <-. exact (suffix_of_skipn 4 v).
  - destruct (getnum v false) as [[n w]|] eqn:E; [|discriminate]. destruct (in_rangeZ _ _ _); [|discriminate].
    intros H; injection H as _ <-. exact (getnum_suffix _ _ _ _ E).
  - destruct (getnum v true) as [[n w]|] eqn:E; [|discriminate]. destruct (in_rangeZ _ _ _); [|discriminate].
    intros H; injection H as _ <-. exact (getnum_suffix _ _ _ _ E).
  - destruct (getnum v true) as [[n w]|] eqn:E; [|discriminate].
    pose proof (getnum_suffix _ _ _ _ E) as Hw. destruct (negb _); [discriminate|].
    destruct w as [|c w]; [intros H; injection H as _ <-; exact Hw|].
    destruct (_ && _); intros H; injection H as _ <-; [|exact Hw].
    eapply suffix_of_trans; [apply suffix_of_skipn|exact (suffix_of_cons _ _ _ Hw)].
  - destruct (is_prefix _ _); [intros H; injection H as _ <-; exact (suffix_of_skipn 3 v)|].
    destruct (parseTimeZone v); [|discriminate]. intros H; injection H as _ <-. apply suffix_of_skipn.
Qed.

Lemma run_chunks_suffix l v st st' v' : run_chunks l v st = Some (st', v') -> suffix_of v' v.
Proof.
  revert v st. induction l as [|ch l IH]; intros v st; simpl; [intros H; injection H as _ <-; apply suffix_of_refl|].
  destruct (step_chunk ch v st) as [[st1 v1]|] eqn:E; [|discriminate].
  intros H. eapply suffix_of_trans; [exact (IH _ _ H)|exact (step_chunk_suffix _ _ _ _ _ E)].
Qed.

Lemma run_chunks_app l1 l2 v st :
  run_chunks (l1 ++ l2) v st =
  match run_chunks l1 v st with Some (st', v') => run_chunks l2 v' st' | None => None end.
Proof.
  revert v st. induction l1 as [|ch l1 IH]; intros v st; simpl; [reflexivity|].
  destruct (step_chunk ch v st) as [[st1 v1]|]; [apply IH|reflexivity].
Qed.

(** [leadingInt] stops before a final non-digit. *)
Lemma leadingInt_rem acc l c : is_digit c = false -> snd (leadingInt_acc acc (l ++ [c])) <> [].
Proof.
  revert acc. induction l as [|x l IH]; intros acc Hc; simpl.
  - rewrite Hc. discriminate.
  - destruct (is_digit x); [apply IH, Hc|discriminate].
Qed.

(** An offset ending in a non-digit never covers the whole value. *)
Lemma parseSignedOffset_lt v0 c :
  is_digit c = false -> (parseSignedOffset (v0 ++ [c]) < length (v0 ++ [c]))%nat.
Proof.
  intros Hc. destruct v0 as [|sgn rest].
  - unfold parseSignedOffset. simpl. destruct (negb _); simpl; lia.
  - unfold parseSignedOffset. cbn [app]. destruct (negb _); [simpl; lia|].
    pose proof (leadingInt_rem 0 rest c Hc) as Hr.
    destruct (leadingInt_acc 0 (rest ++ [c])) as [x rem]. simpl in Hr.
    destruct (_ =? _)%nat; [simpl; lia|]. destruct (23 <? x); [simpl; lia|].
    destruct rem; [congruence|]. simpl. lia.
Qed.

Lemma digit_not_upper d :
  is_digit d = true -> ((65 <=? digit_val d + 48) && (digit_val d + 48 <=? 90)) = false.
Proof.
  unfold is_digit. intros H. apply andb_true_iff in H as [H1 H2]. apply Z.leb_le in H1, H2.
  apply andb_false_iff. left. apply Z.leb_gt. lia.
Qed.

(** A zone abbreviation stops at the first character that is not an
    upper-case letter. *)
Lemma count_upper_le n w0 d r :
  ((65 <=? digit_val d + 48) && (digit_val d + 48 <=? 90)) = false ->
  (count_upper n (w0 ++ d :: r) <= length w0)%nat.
Proof.
  intros Hd. revert n. induction w0 as [|x w0 IH]; intros [|n]; simpl; try lia.
  - rewrite Hd. lia.
  - destruct ((65 <=? digit_val x + 48) && _); [specialize (IH n); lia|lia].
Qed.

Lemma is_prefix_full p w :
  is_prefix p w = true -> skipn (length (list_ascii_of_string p)) w = [] -> w = list_ascii_of_string p.
Proof.
  unfold is_prefix. destruct (list_eq_dec _ _ _) as [E|]; [|discriminate]. intros _ Hs.
  rewrite <- (firstn_skipn (length (list_ascii_of_string p)) w), E, Hs, app_nil_r. reflexivity.
Qed.

Lemma skipn_nil_length {A} n (l : list A) : skipn n l = [] -> (length l <= n)%nat.
Proof. intros H. pose proof (length_skipn n l) as E. rewrite H in E. simpl in E. lia. Qed.

(** The payload of an equation between [Some]s, without reducing it. *)
Local Ltac some_inj E :=
  cbn [orb negb] in E;
  match type of E with Some ?a = Some ?b =>
    let H := fresh in assert (H : a = b) by congruence; clear E; subst b end.

(** The zone field never consumes a whole value that ends in a digit
    followed by ["C"]: no abbreviation, offset or [GMT] form ends that way. *)
Lemma tz_rejects w0 d st st' :
  is_digit d = true -> step_chunk StdTZ (w0 ++ [d; "C"%char]) st <> Some (st', []).
Proof.
  intros Hd. assert (HC : is_digit "C"%char = false) by reflexivity.
  assert (Hlast : forall l0 a, w0 ++ [d; "C"%char] = l0 ++ [a; "T"%char] -> False)
    by (intros l0 a E; apply snoc2_inj in E as [_ E]; discriminate).
  assert (Hmid : forall l0, w0 ++ [d; "C"%char] <> l0 ++ ["T"%char; "C"%char])
    by (intros l0 E; apply snoc2_inj in E as [-> _]; discriminate).
  assert (Hlen : length (w0 ++ [d; "C"%char]) = (length w0 + 2)%nat) by (rewrite length_app; reflexivity).
  assert (Hpso : (parseSignedOffset (w0 ++ [d; "C"%char]) < length (w0 ++ [d; "C"%char]))%nat).
  { replace (w0 ++ [d; "C"%char]) with ((w0 ++ [d]) ++ ["C"%char]) by (rewrite <- app_assoc; reflexivity).
    apply parseSignedOffset_lt, HC. }
  assert (Hcu : (count_upper 6 (w0 ++ [d; "C"%char]) <= length w0)%nat) by (apply count_upper_le, digit_not_upper, Hd).
  assert (Hgmt : forall y ys, skipn 3 (w0 ++ [d; "C"%char]) = y :: ys ->
                   (parseSignedOffset (y :: ys) < length (y :: ys))%nat).
  { intros y ys E. destruct (suffix_of_snoc (y :: ys) (w0 ++ [d]) "C"%char) as [|(s0 & Es & _)];
      [rewrite <- E, <- app_assoc; apply suffix_of_skipn|discriminate|].
    rewrite Es. apply parseSignedOffset_lt, HC. }
  destruct st. cbv beta iota zeta delta [step_chunk].
  destruct (is_prefix "UTC" _) eqn:HU.
  { intros H. injection H as _ Hs.
    change (skipn (length (list_ascii_of_string "UTC")) (w0 ++ [d; "C"%char]) = []) in Hs.
    apply (Hmid ["U"%char]), (is_prefix_full _ _ HU Hs). }
  destruct (parseTimeZone _) as [n|] eqn:Hz; [|discriminate]. intros H. injection H as _ Hs.
  apply skipn_nil_length in Hs. revert Hz. unfold parseTimeZone.
  destruct (_ <? 3)%nat; [discriminate|].
  destruct (is_prefix "ChST" _) eqn:H1.
  { intros E; some_inj E. apply (Hlast ["C"%char; "h"%char] "S"%char), (is_prefix_full _ _ H1).
    apply length_zero_iff_nil. rewrite length_skipn. simpl. lia. }
  destruct (is_prefix "MeST" _) eqn:H2.
  { intros E; some_inj E. apply (Hlast ["M"%char; "e"%char] "S"%char), (is_prefix_full _ _ H2).
    apply length_zero_iff_nil. rewrite length_skipn. simpl. lia. }
  simpl orb. destruct (is_prefix "GMT" _) eqn:H3.
  { unfold parseGMT. destruct (skipn 3 _) as [|y ys] eqn:E3.
    - intros E; some_inj E. apply (Hlast ["G"%char] "M"%char), (is_prefix_full _ _ H3 E3).
    - intros E; some_inj E. specialize (Hgmt y ys eq_refl).
      pose proof (length_skipn 3 (w0 ++ [d; "C"%char])) as L3. rewrite E3 in L3. lia. }
  destruct (w0 ++ [d; "C"%char]) as [|c r] eqn:Ew; [discriminate|].
  destruct (_ || _).
  { destruct (_ =? 0)%nat; [discriminate|]. intros E; some_inj E. lia. }
  destruct (count_upper 6 (c :: r)) as [|[|[|[|[|[|k]]]]]]; try discriminate.
  - intros E; some_inj E. lia.
  - destruct (_ || _); [|discriminate]. intros E; some_inj E. lia.
  - destruct (Ascii.eqb _ _); [|discriminate]. intros E; some_inj E. lia.
Qed.

(** Hence [time.Parse(time.RFC1123, date + "C")] fails on every date
    whose text ends in a digit, such as a numeric zone [-0700] or a date
    with no zone at all. *)
Lemma parse_RFC1123_digit_C v0 d :
  is_digit d = true -> parse RFC1123 (string_of_list_ascii (v0 ++ [d]) ++ "C") = None.
Proof.
  intros Hd. unfold parse. rewrite list_ascii_of_string_app, string_list_ascii_roundtrip.
  change (list_ascii_of_string "C") with ["C"%char]. rewrite <- app_assoc. cbn [app].
  change RFC1123 with ([StdWeekDay; Lit ", "; StdZeroDay; Lit " "; StdMonth; Lit " "; StdLongYear;
    Lit " "; StdHour; Lit ":"; StdZeroMinute; Lit ":"; StdZeroSecond; Lit " "] ++ [StdTZ]).
  rewrite run_chunks_app.
  destruct (run_chunks _ _ init_pstate) as [[st1 w]|] eqn:E1; [|reflexivity].
  apply run_chunks_suffix in E1. cbn [run_chunks].
  destruct (step_chunk StdTZ w st1) as [[st2 [|c r]]|] eqn:E2; [|destruct st2; reflexivity|reflexivity].
  exfalso. destruct (suffix_of_snoc2 _ _ _ _ E1) as [->|[->|(w0 & ->)]].
  - destruct st1. discriminate E2.
  - destruct st1. discriminate E2.
  - exact (tz_rejects w0 d st1 st2 Hd E2).
Qed.

End GoTime.
