(* ===== verification/Regex.v ===== *)
(** * Go's [regexp] as the adapters use it

    A regular expression is an AST ([regex]); matching is a
    continuation-passing backtracking matcher [mtc] whose choice order is
    Go's leftmost-first priority: an alternation tries its left branch
    first, a greedy repetition tries one more iteration before stopping,
    a lazy one stops before trying more.  Capturing groups record, for
    each group number, the input at the group's start and the length of
    the input left at its end; the last record of a group wins.
    [FindStringSubmatch] scans the start positions left to right and
    returns the whole match followed by one string per group ([""] for a
    group that did not participate), or [[]] for Go's [nil].

    Inputs are byte lists: for ASCII text (URLs) Go's runes and bytes
    coincide.  A repetition iteration must consume input (every
    repetition body in the adapters' expressions does), so the loop
    bound [S (length s)] is never the reason a repetition stops. *)

From Stdlib Require Import String Ascii List Bool Arith Lia Morphisms.
From S2P Require Import Prelude.
Import ListNotations.

Module Regex.

(** ** Syntax *)

Inductive charclass : Type :=
| CAny                 (** [.]: any character but a newline *)
| CDigit               (** [\d]: [0-9] *)
| CWord                (** [\w]: [0-9A-Za-z_] *)
| CLit (c : ascii).    (** a literal character *)

Definition in_range (lo hi : nat) (c : ascii) : bool :=
  (lo <=? nat_of_ascii c) && (nat_of_ascii c <=? hi).

Definition cls_match (k : charclass) (c : ascii) : bool :=
  match k with
  | CAny => negb (Ascii.eqb c "010"%char)
  | CDigit => in_range 48 57 c
  | CWord => in_range 48 57 c || in_range 65 90 c || in_range 97 122 c
             || Ascii.eqb c "_"%char
  | CLit d => Ascii.eqb c d
  end.

Inductive regex : Type :=
| REmpty                                (** the empty string *)
| RClass (k : charclass)                (** one character of a class *)
| RCat (r1 r2 : regex)                  (** concatenation *)
| RAlt (r1 r2 : regex)                  (** [r1|r2], left first *)
| RStar (greedy : bool) (r : regex)     (** [r*] (greedy) or [r*?] (lazy) *)
| RGroup (n : nat) (r : regex)          (** capturing group number [n] *)
| REnd.                                 (** [$]: end of text *)

(** Derived forms, as Go's parser desugars them. *)
Fixpoint lits (s : string) : regex :=
  match s with
  | EmptyString => REmpty
  | String a s' => RCat (RClass (CLit a)) (lits s')
  end.

Fixpoint rseq (l : list regex) : regex :=
  match l with
  | [] => REmpty
  | [r] => r
  | r :: l' => RCat r (rseq l')
  end.

Definition rplus (greedy : bool) (r : regex) : regex := RCat r (RStar greedy r).
Definition ropt (r : regex) : regex := RAlt r REmpty.
Definition rdot : regex := RClass CAny.

(** Number of capturing groups (Go's [NumSubexp]). *)
Fixpoint num_groups (r : regex) : nat :=
  match r with
  | REmpty | RClass _ | REnd => 0
  | RCat r1 r2 | RAlt r1 r2 => Nat.max (num_groups r1) (num_groups r2)
  | RStar _ r1 => num_groups r1
  | RGroup n r1 => Nat.max n (num_groups r1)
  end.

(** ** Matching *)

(** Capture records, most recent first: group, input at its start,
    length of the input left at its end. *)
Definition caps : Type := list (nat * (list ascii * nat)).

Section Star.
Context {A : Type}.
Variable m : list ascii -> caps -> (list ascii -> caps -> option A) -> option A.
Variable greedy : bool.
Variable k : list ascii -> caps -> option A.

(** The repetition loop: an iteration is accepted only when it consumed
    input; [n] bounds the number of iterations. *)
Fixpoint star_loop (n : nat) (s : list ascii) (c : caps) : option A :=
  match n with
  | O => k s c
  | S n' =>
      if greedy then
        match m s c (fun s' c' => if length s' <? length s then star_loop n' s' c' else None) with
        | Some x => Some x
        | None => k s c
        end
      else
        match k s c with
        | Some x => Some x
        | None => m s c (fun s' c' => if length s' <? length s then star_loop n' s' c' else None)
        end
  end.
End Star.

Fixpoint mtc {A} (r : regex) (s : list ascii) (c : caps)
         (k : list ascii -> caps -> option A) {struct r} : option A :=
  match r with
  | REmpty => k s c
  | RClass cl =>
      match s with
      | x :: s' => if cls_match cl x then k s' c else None
      | [] => None
      end
  | RCat r1 r2 => mtc r1 s c (fun s' c' => mtc r2 s' c' k)
  | RAlt r1 r2 =>
      match mtc r1 s c k with
      | Some x => Some x
      | None => mtc r2 s c k
      end
  | RStar g r1 => star_loop (mtc r1) g k (S (length s)) s c
  | RGroup n r1 => mtc r1 s c (fun s' c' => k s' ((n, (s, length s')) :: c'))
  | REnd => match s with [] => k s c | _ :: _ => None end
  end.

(** The final continuation: accept, returning what is left and the
    captures. *)
Definition accept (s : list ascii) (c : caps) : option (list ascii * caps) :=
  Some (s, c).

(** Leftmost match: try each start position in turn. *)
Fixpoint find_from (r : regex) (s : list ascii)
  : option (list ascii * list ascii * caps) :=
  match mtc r s [] accept with
  | Some (rest, c) => Some (s, rest, c)
  | None =>
      match s with
      | [] => None
      | _ :: s' => find_from r s'
      end
  end.

Fixpoint cap_lookup (n : nat) (c : caps) : option (list ascii * nat) :=
  match c with
  | [] => None
  | (m, v) :: c' => if m =? n then Some v else cap_lookup n c'
  end.

(** The text of a span: the input at its start, cut to its length. *)
Definition span_string (st : list ascii) (rem : nat) : string :=
  string_of_list_ascii (firstn (length st - rem) st).

Definition group_string (c : caps) (n : nat) : string :=
  match cap_lookup n c with
  | Some (st, rem) => span_string st rem
  | None => ""%string
  end.

(** [re.FindStringSubmatch(s)]. *)
Definition FindStringSubmatch (r : regex) (s : string) : list string :=
  match find_from r (list_ascii_of_string s) with
  | None => []
  | Some (st, rest, c) =>
      span_string st (length rest) :: map (group_string c) (List.seq 1 (num_groups r))
  end.

(** A regular expression all of whose successful paths end with [$]. *)
Fixpoint anchored_end (r : regex) : bool :=
  match r with
  | REnd => true
  | RCat _ r2 => anchored_end r2
  | RAlt r1 r2 => anchored_end r1 && anchored_end r2
  | RGroup _ r1 => anchored_end r1
  | _ => false
  end.

(** ** The matcher only depends on its continuation pointwise *)

Definition cont_eq {A} (k1 k2 : list ascii -> caps -> option A) : Prop :=
  forall s c, k1 s c = k2 s c.

(** A matching function that respects pointwise-equal continuations. *)
Definition matcher_ext {A} (m : list ascii -> caps -> (list ascii -> caps -> option A) -> option A) :=
  forall s c k1 k2, cont_eq k1 k2 -> m s c k1 = m s c k2.

(** A matching function that calls its continuation only on suffixes of
    its input, and returns what the continuation returned. *)
Definition matcher_cont {A} (m : list ascii -> caps -> (list ascii -> caps -> option A) -> option A) :=
  forall s c k x, m s c k = Some x -> exists s' c', suffix_of s' s /\ k s' c' = Some x.

Section StarLemmas.
Context {A : Type}.
Variable m : list ascii -> caps -> (list ascii -> caps -> option A) -> option A.
Variable greedy : bool.

Lemma star_loop_ext (k1 k2 : list ascii -> caps -> option A) n s c :
  matcher_ext m -> cont_eq k1 k2 ->
  star_loop m greedy k1 n s c = star_loop m greedy k2 n s c.
Proof.
  intros Hm Hk. revert s c. induction n as [|n IH]; intros s c; simpl; [apply Hk|].
  assert (Hmore : m s c (fun s' c' => if length s' <? length s then star_loop m greedy k1 n s' c' else None)
                = m s c (fun s' c' => if length s' <? length s then star_loop m greedy k2 n s' c' else None)).
  { apply Hm. intros s' c'. destruct (length s' <? length s); auto. }
  rewrite Hmore, Hk. reflexivity.
Qed.

(** Fuel beyond the input length does not change the loop's result. *)
Lemma star_loop_fuel (k : list ascii -> caps -> option A) n1 n2 s c :
  matcher_ext m -> length s < n1 -> length s < n2 ->
  star_loop m greedy k n1 s c = star_loop m greedy k n2 s c.
Proof.
  intros Hm. revert n2 s c. induction n1 as [|n1 IH]; intros [|n2] s c H1 H2; try lia.
  simpl.
  assert (Hmore : m s c (fun s' c' => if length s' <? length s then star_loop m greedy k n1 s' c' else None)
                = m s c (fun s' c' => if length s' <? length s then star_loop m greedy k n2 s' c' else None)).
  { apply Hm. intros s' c'. destruct (Nat.ltb_spec (length s') (length s)); [|reflexivity].
    apply IH; lia. }
  rewrite Hmore. reflexivity.
Qed.

Lemma star_loop_cont (k : list ascii -> caps -> option A) n s c x :
  matcher_cont m ->
  star_loop m greedy k n s c = Some x -> exists s' c', suffix_of s' s /\ k s' c' = Some x.
Proof.
  intros Hm. revert s c. induction n as [|n IH]; intros s c; simpl; [eauto with cuppa|].
  assert (Hmore : m s c (fun s' c' => if length s' <? length s then star_loop m greedy k n s' c' else None) = Some x ->
                  exists s' c', suffix_of s' s /\ k s' c' = Some x).
  { intros H. destruct (Hm _ _ _ _ H) as (s1 & c1 & Hs1 & Hk1).
    destruct (length s1 <? length s); [|discriminate].
    destruct (IH _ _ Hk1) as (s2 & c2 & Hs2 & Hk2). eauto with cuppa. }
  destruct greedy.
  - destruct (m s c _) eqn:E; [intros H; inversion H; subst; auto|eauto with cuppa].
  - destruct (k s c) eqn:E; [intros H; inversion H; subst; eauto with cuppa|auto].
Qed.
End StarLemmas.

Lemma mtc_ext {A} (r : regex) : matcher_ext (A := A) (mtc r).
Proof.
  induction r as [| cl | r1 IH1 r2 IH2 | r1 IH1 r2 IH2 | g r1 IH1 | n r1 IH1 |];
    intros s c k1 k2 Hk; cbn -[star_loop].
  - apply Hk.
  - destruct s as [|x s']; [reflexivity|]. destruct (cls_match cl x); auto.
  - apply IH1. intros s' c'. apply IH2, Hk.
  - rewrite (IH1 s c k1 k2 Hk), (IH2 s c k1 k2 Hk). reflexivity.
  - apply star_loop_ext; assumption.
  - apply IH1. intros s' c'. apply Hk.
  - destruct s; auto.
Qed.

#[export] Instance mtc_proper {A} (r : regex) :
  Proper (eq ==> eq ==> (@cont_eq A) ==> eq) (mtc r).
Proof. intros s ? <- c ? <- k1 k2 Hk. apply mtc_ext, Hk. Qed.

Lemma mtc_cont {A} (r : regex) : matcher_cont (A := A) (mtc r).
Proof.
  induction r as [| cl | r1 IH1 r2 IH2 | r1 IH1 r2 IH2 | g r1 IH1 | n r1 IH1 |];
    intros s c k x; cbn -[star_loop].
  - eauto with cuppa.
  - destruct s as [|y s']; [discriminate|]. destruct (cls_match cl y); [|discriminate].
    intros H. exists s', c. split; [exists [y]; reflexivity|exact H].
  - intros H. destruct (IH1 _ _ _ _ H) as (s1 & c1 & Hs1 & H1).
    destruct (IH2 _ _ _ _ H1) as (s2 & c2 & Hs2 & H2). eauto with cuppa.
  - destruct (mtc r1 s c k) eqn:E.
    + intros H; inversion H; subst. eauto.
    + apply IH2.
  - apply star_loop_cont, IH1.
  - intros H. destruct (IH1 _ _ _ _ H) as (s1 & c1 & Hs1 & H1). eauto.
  - destruct s; [eauto with cuppa|discriminate].
Qed.

(** The repetition bound is never what stops a repetition: running
    the loop of [r*] with any fuel larger than the input length gives the
    matcher's result, so [mtc] is the unbounded backtracking search. *)
Theorem loop_fuel_irrelevant {A} (g : bool) (r : regex) s c (k : list ascii -> caps -> option A) n :
  length s < n -> mtc (RStar g r) s c k = star_loop (mtc r) g k n s c.
Proof. intros Hn. cbn -[star_loop]. apply star_loop_fuel; [apply mtc_ext|lia|exact Hn]. Qed.

(** ** Anchoring at the end *)

Lemma mtc_anchored {A} (r : regex) s c (k : list ascii -> caps -> option A) x :
  anchored_end r = true -> mtc r s c k = Some x -> exists c', k [] c' = Some x.
Proof.
  revert s c k x. induction r as [| cl | r1 IH1 r2 IH2 | r1 IH1 r2 IH2 | g r1 IH1 | n r1 IH1 |];
    intros s c k x Ha; simpl in *; try discriminate.
  - intros H. destruct (mtc_cont r1 _ _ _ _ H) as (s1 & c1 & _ & H1). eauto.
  - apply andb_true_iff in Ha as [Ha1 Ha2].
    destruct (mtc r1 s c k) eqn:E; [intros H; inversion H; subst; eauto|eauto].
  - intros H. destruct (IH1 _ _ _ _ Ha H) as (c1 & H1). eauto.
  - destruct s; [eauto|discriminate].
Qed.

(** ** The leftmost scan *)

Lemma find_from_spec r s st rest c :
  find_from r s = Some (st, rest, c) ->
  suffix_of st s /\ mtc r st [] accept = Some (rest, c).
Proof.
  induction s as [|y s IH]; simpl.
  - destruct (mtc r [] [] accept) as [[rest' c']|] eqn:E; [|discriminate].
    intros H; inversion H; subst. auto with cuppa.
  - destruct (mtc r (y :: s) [] accept) as [[rest' c']|] eqn:E.
    + intros H; inversion H; subst. auto with cuppa.
    + intros H. destruct (IH H) as [Hs Hm]. split; [|exact Hm].
      destruct Hs as [p ->]. exists (y :: p). reflexivity.
Qed.

(** The scan fails iff no suffix matches. *)
Lemma find_from_None r s :
  find_from r s = None <-> forall t, suffix_of t s -> mtc r t [] accept = None.
Proof.
  induction s as [|y s IH]; simpl; split.
  - intros H t Ht. apply suffix_of_nil_r in Ht as ->.
    destruct (mtc r [] [] accept) as [[]|]; [discriminate|reflexivity].
  - intros H. rewrite (H [] (suffix_of_refl _)). reflexivity.
  - destruct (mtc r (y :: s) [] accept) as [[]|] eqn:E; [discriminate|].
    intros H t Ht. apply suffix_of_cons_inv in Ht as [->|Ht]; [exact E|].
    apply IH; assumption.
  - intros H. rewrite (H (y :: s) (suffix_of_refl _)).
    apply IH. intros t Ht. apply H. eapply suffix_of_trans; [exact Ht|]. exists [y]; reflexivity.
Qed.

Lemma find_from_None_suffix r s t :
  find_from r s = None -> suffix_of t s -> find_from r t = None.
Proof.
  rewrite !find_from_None. intros H Ht u Hu. apply H. eapply suffix_of_trans; eassumption.
Qed.

Lemma find_from_here r s rest c :
  mtc r s [] accept = Some (rest, c) -> find_from r s = Some (s, rest, c).
Proof. destruct s; simpl; intros ->; reflexivity. Qed.

(** A match anchored at the end leaves nothing of the input. *)
Lemma find_from_anchored r s st rest c :
  anchored_end r = true -> find_from r s = Some (st, rest, c) -> rest = [].
Proof.
  intros Ha H. apply find_from_spec in H as [_ H].
  destruct (mtc_anchored r _ _ _ _ Ha H) as (c' & Hc). unfold accept in Hc.
  congruence.
Qed.

(** [find_from] is Go's leftmost-first search: the match it returns
    starts at a suffix of the input where the expression matches, and
    the expression matches at no earlier position. *)
Theorem find_from_leftmost r s st rest c :
  find_from r s = Some (st, rest, c) ->
  suffix_of st s /\ mtc r st [] accept = Some (rest, c) /\
  forall t, suffix_of t s -> length st < length t -> mtc r t [] accept = None.
Proof.
  intros H. destruct (find_from_spec _ _ _ _ _ H) as [Hs Hm]. split; [exact Hs|]. split; [exact Hm|].
  revert H. induction s as [|y s IH]; intros H t Ht Hlt; simpl in H.
  - apply suffix_of_nil_r in Ht as ->. simpl in Hlt. lia.
  - destruct (mtc r (y :: s) [] accept) as [[rest' c']|] eqn:E.
    + injection H as <- _ _. apply suffix_of_length in Ht. lia.
    + apply suffix_of_cons_inv in Ht as [->|Ht]; [exact E|].
      destruct (find_from_spec _ _ _ _ _ H) as [Hs' _].
      exact (IH Hs' H t Ht Hlt).
Qed.

(** ** Submatches *)

Lemma FindStringSubmatch_length r s :
  FindStringSubmatch r s = [] \/ length (FindStringSubmatch r s) = S (num_groups r).
Proof.
  unfold FindStringSubmatch. destruct (find_from r _) as [[[st rest] c]|]; [right|left; reflexivity].
  simpl. rewrite length_map, length_seq. reflexivity.
Qed.

Lemma FindStringSubmatch_nil r s :
  FindStringSubmatch r s = [] <-> find_from r (list_ascii_of_string s) = None.
Proof.
  unfold FindStringSubmatch. destruct (find_from r _) as [[[st rest] c]|]; split; congruence.
Qed.

(** The whole match of an end-anchored expression is the suffix where the
    match starts. *)
Lemma FindStringSubmatch_anchored r s st rest c :
  anchored_end r = true -> find_from r (list_ascii_of_string s) = Some (st, rest, c) ->
  FindStringSubmatch r s =
    string_of_list_ascii st :: map (group_string c) (List.seq 1 (num_groups r)).
Proof.
  intros Ha H. unfold FindStringSubmatch. rewrite H.
  rewrite (find_from_anchored _ _ _ _ _ Ha H). unfold span_string. simpl.
  rewrite Nat.sub_0_r, firstn_all. reflexivity.
Qed.

(** Running an end-anchored expression again on its own whole match gives
    the same submatches. *)
Theorem FindStringSubmatch_rematch r s sm :
  anchored_end r = true -> FindStringSubmatch r s = sm -> sm <> [] ->
  FindStringSubmatch r (nth 0 sm ""%string) = sm.
Proof.
  intros Ha Hsm Hne. destruct (find_from r (list_ascii_of_string s)) as [[[st rest] c]|] eqn:E;
    [|apply FindStringSubmatch_nil in E; congruence].
  rewrite (FindStringSubmatch_anchored _ _ _ _ _ Ha E) in Hsm. subst sm. simpl.
  pose proof (find_from_anchored _ _ _ _ _ Ha E) as ->.
  apply find_from_spec in E as [_ Hm].
  apply (FindStringSubmatch_anchored _ _ st [] c Ha).
  rewrite string_list_ascii_roundtrip. apply find_from_here, Hm.
Qed.

(** The whole match of an end-anchored expression is a suffix of the
    input. *)
Lemma FindStringSubmatch_match_suffix r s sm :
  anchored_end r = true -> FindStringSubmatch r s = sm -> sm <> [] ->
  suffix_of (list_ascii_of_string (nth 0 sm ""%string)) (list_ascii_of_string s).
Proof.
  intros Ha Hsm Hne. destruct (find_from r (list_ascii_of_string s)) as [[[st rest] c]|] eqn:E;
    [|apply FindStringSubmatch_nil in E; congruence].
  rewrite (FindStringSubmatch_anchored _ _ _ _ _ Ha E) in Hsm. subst sm. simpl.
  rewrite string_list_ascii_roundtrip. apply find_from_spec in E. tauto.
Qed.

(** An expression that matches nowhere in [s] matches nowhere in a suffix
    of [s]. *)
Lemma FindStringSubmatch_nil_suffix r s t :
  FindStringSubmatch r s = [] -> suffix_of (list_ascii_of_string t) (list_ascii_of_string s) ->
  FindStringSubmatch r t = [].
Proof.
  rewrite !FindStringSubmatch_nil. intros H Ht. eapply find_from_None_suffix; eassumption.
Qed.

(** ** Witnesses *)

Lemma find_from_leftmost_witness :
  let s := list_ascii_of_string "xabab" in
  let st := list_ascii_of_string "abab" in
  suffix_of st s /\ mtc (lits "ab") st [] accept = Some (list_ascii_of_string "ab", []) /\
  forall t, suffix_of t s -> length st < length t -> mtc (lits "ab") t [] accept = None.
Proof. apply find_from_leftmost. vm_compute. reflexivity. Defined.

Lemma loop_fuel_irrelevant_witness :
  mtc (RStar true rdot) (list_ascii_of_string "ab") [] accept =
  star_loop (mtc rdot) true accept 7 (list_ascii_of_string "ab") [].
Proof. apply loop_fuel_irrelevant. simpl. lia. Defined.

End Regex.
