(* ===== verification/RegexSpec.v ===== *)
(** * What the backtracking matcher computes: a language semantics

    [matches r s s'] holds when [r] matches a prefix of the input [s] and
    leaves [s'] (the relation needs the rest because [$] looks at it).  It
    is the textbook semantics of regular expressions, with no priority
    between alternatives and no bound on repetitions.  The matcher [mtc]
    of [Regex] is sound for it (every answer comes from a derivation,
    [mtc_sound]) and complete (a derivation whose rest the continuation
    accepts makes [mtc] succeed, [mtc_complete]): the fuel of a
    repetition and the rule that an iteration must consume input lose
    no match.  So [find_from], and [FindStringSubmatch] with it, fails
    exactly when no suffix of the input has a prefix in the language,
    and an input in the language of an end-anchored expression is its
    own match ([FindStringSubmatch_whole]). *)

From Stdlib Require Import String Ascii List Bool Arith Lia.
From S2P Require Import Prelude Regex.
Import ListNotations.

Module RegexSpec.
Import Regex.

Inductive matches : regex -> list ascii -> list ascii -> Prop :=
| m_empty s : matches REmpty s s
| m_class cl x s : cls_match cl x = true -> matches (RClass cl) (x :: s) s
| m_cat r1 r2 s s1 s2 : matches r1 s s1 -> matches r2 s1 s2 -> matches (RCat r1 r2) s s2
| m_alt_l r1 r2 s s' : matches r1 s s' -> matches (RAlt r1 r2) s s'
| m_alt_r r1 r2 s s' : matches r2 s s' -> matches (RAlt r1 r2) s s'
| m_star_0 g r s : matches (RStar g r) s s
| m_star_S g r s s1 s2 : matches r s s1 -> matches (RStar g r) s1 s2 -> matches (RStar g r) s s2
| m_group n r s s' : matches r s s' -> matches (RGroup n r) s s'
| m_end : matches REnd [] [].

#[export] Hint Constructors matches : cuppa.

(** A string is in the language of [r] when [r] matches all of it. *)
Definition lang (r : regex) (s : list ascii) : Prop := matches r s [].

(** ** Soundness *)

Definition matcher_sound (r : regex)
    (m : forall A, list ascii -> caps -> (list ascii -> caps -> option A) -> option A) : Prop :=
  forall A s c (k : list ascii -> caps -> option A) x,
    m A s c k = Some x -> exists s' c', matches r s s' /\ k s' c' = Some x.

Lemma star_loop_sound g r (IH : matcher_sound r (fun A => mtc (A := A) r)) {A} n s c
    (k : list ascii -> caps -> option A) x :
  star_loop (mtc r) g k n s c = Some x -> exists s' c', matches (RStar g r) s s' /\ k s' c' = Some x.
Proof.
  revert s c. induction n as [|n IHn]; intros s c; simpl; [eauto with cuppa|].
  assert (Hiter : forall y, mtc r s c (fun s' c' => if length s' <? length s then star_loop (mtc r) g k n s' c'
                                             else None) = Some y -> y = x ->
                   exists s' c', matches (RStar g r) s s' /\ k s' c' = Some x).
  { intros y H ->. destruct (IH _ _ _ _ _ H) as (s1 & c1 & Hm & Hk).
    destruct (length s1 <? length s); [|discriminate].
    destruct (IHn _ _ Hk) as (s2 & c2 & Hm2 & Hk2). eauto with cuppa. }
  destruct g.
  - destruct (mtc r s c _) eqn:E; [intros [= <-]; eapply Hiter; eauto|eauto with cuppa].
  - destruct (k s c) eqn:E; [intros [= <-]; eauto with cuppa|intros H; eapply Hiter; eauto].
Qed.

Theorem mtc_sound r : matcher_sound r (fun A => mtc (A := A) r).
Proof.
  induction r as [| cl | r1 IH1 r2 IH2 | r1 IH1 r2 IH2 | g r1 IH1 | n r1 IH1 |];
    intros A s c k x; cbn -[star_loop].
  - eauto with cuppa.
  - destruct s as [|y s]; [discriminate|]. destruct (cls_match cl y) eqn:E; [eauto with cuppa|discriminate].
  - intros H. destruct (IH1 _ _ _ _ _ H) as (s1 & c1 & Hm1 & H1).
    destruct (IH2 _ _ _ _ _ H1) as (s2 & c2 & Hm2 & H2). eauto with cuppa.
  - destruct (mtc r1 s c k) eqn:E.
    + intros [= <-]. destruct (IH1 _ _ _ _ _ E) as (s' & c' & ? & ?). eauto with cuppa.
    + intros H. destruct (IH2 _ _ _ _ _ H) as (s' & c' & ? & ?). eauto with cuppa.
  - apply star_loop_sound, IH1.
  - intros H. destruct (IH1 _ _ _ _ _ H) as (s' & c' & ? & ?). eauto with cuppa.
  - destruct s; [eauto with cuppa|discriminate].
Qed.

(** ** Completeness *)

(** [k] accepts the rest [s'] whatever the captures. *)
Definition accepts_at {A} (k : list ascii -> caps -> option A) (s' : list ascii) : Prop :=
  forall c, k s' c <> None.

Definition matcher_complete (r : regex)
    (m : forall A, list ascii -> caps -> (list ascii -> caps -> option A) -> option A) : Prop :=
  forall A s s' c (k : list ascii -> caps -> option A),
    matches r s s' -> accepts_at k s' -> m A s c k <> None.

Lemma matches_suffix r s s' : matches r s s' -> suffix_of s' s.
Proof. induction 1; eauto using suffix_of_trans with cuppa. Qed.

Lemma star_loop_complete g r (IH : matcher_complete r (fun A => mtc (A := A) r)) {A} s s' :
  matches (RStar g r) s s' ->
  forall fuel c (k : list ascii -> caps -> option A),
    length s < fuel -> accepts_at k s' -> star_loop (mtc r) g k fuel s c <> None.
Proof.
  intros H. remember (RStar g r) as rs eqn:Ers. revert g r IH Ers.
  induction H; intros g' r' IH Ers fuel c k Hn Hk; try discriminate; injection Ers as -> ->.
  - destruct fuel as [|fuel]; [lia|]. simpl. destruct g'.
    + destruct (mtc r' s c _); [discriminate|apply Hk].
    + destruct (k s c) eqn:E; [discriminate|]. exfalso. exact (Hk c E).
  - destruct (Nat.eq_dec (length s1) (length s)) as [Hl|Hl].
    + assert (s1 = s) as ->.
      { destruct (matches_suffix _ _ _ H) as [p Hp].
        assert (length p = 0) by (rewrite Hp, length_app in Hl; lia).
        destruct p; [exact (eq_sym Hp)|discriminate]. }
      eapply IHmatches2; eauto.
    + assert (Hlt : length s1 < length s).
      { destruct (matches_suffix _ _ _ H) as [p Hp]. rewrite Hp, length_app in *. lia. }
      destruct fuel as [|fuel]; [lia|].
      assert (Hin : mtc r' s c (fun s'0 c' => if length s'0 <? length s then star_loop (mtc r') g' k fuel s'0 c'
                                               else None) <> None).
      { apply (IH _ _ s1); [exact H|]. intros c'. rewrite (proj2 (Nat.ltb_lt _ _) Hlt).
        eapply IHmatches2; eauto. lia. }
      simpl. destruct g'.
      * destruct (mtc r' s c _); [discriminate|contradiction].
      * destruct (k s c); [discriminate|exact Hin].
Qed.

Theorem mtc_complete r : matcher_complete r (fun A => mtc (A := A) r).
Proof.
  induction r as [| cl | r1 IH1 r2 IH2 | r1 IH1 r2 IH2 | g r1 IH1 | n r1 IH1 |];
    intros A s s' c k H Hk; inversion H; subst; cbn -[star_loop].
  - apply Hk.
  - match goal with Hc : cls_match _ _ = true |- _ => rewrite Hc end. apply Hk.
  - eapply IH1; [eassumption|]. intros c1. eapply IH2; eassumption.
  - destruct (mtc r1 s c k) eqn:E; [discriminate|]. exfalso. eapply IH1; eassumption.
  - destruct (mtc r1 s c k); [discriminate|]. eapply IH2; eassumption.
  - eapply star_loop_complete; eauto.
  - eapply star_loop_complete; eauto.
  - eapply IH1; [eassumption|]. intros c1. apply Hk.
  - apply Hk.
Qed.

(** ** Consequences for the leftmost search *)

Lemma matches_anchored r s s' : anchored_end r = true -> matches r s s' -> s' = [].
Proof.
  intros Ha H. induction H; simpl in Ha; try discriminate; auto.
  - apply andb_true_iff in Ha. tauto.
  - apply andb_true_iff in Ha. tauto.
Qed.

Lemma accept_sound r s rest c :
  mtc r s [] accept = Some (rest, c) -> matches r s rest.
Proof.
  intros H. destruct (mtc_sound r _ _ _ _ _ H) as (s' & c' & Hm & Hk).
  unfold accept in Hk. injection Hk as -> _. exact Hm.
Qed.

(** The search fails exactly when no suffix of the input has a prefix in
    the language. *)
Theorem find_from_None_lang r s :
  find_from r s = None <-> forall t, suffix_of t s -> forall s', ~ matches r t s'.
Proof.
  rewrite find_from_None. split.
  - intros H t Ht s' Hm. apply (mtc_complete r _ t s' [] accept Hm); [intros c; discriminate|].
    apply H, Ht.
  - intros H t Ht. destruct (mtc r t [] accept) as [[rest c]|] eqn:E; [|reflexivity].
    exfalso. exact (H t Ht rest (accept_sound _ _ _ _ E)).
Qed.

(** For an end-anchored expression: Go's [nil] exactly when no suffix of
    the input is in the language, and otherwise a whole match that is a
    suffix of the input and in the language. *)
Theorem FindStringSubmatch_lang r s :
  anchored_end r = true ->
  (FindStringSubmatch r s = [] <-> forall t, suffix_of t (list_ascii_of_string s) -> ~ lang r t) /\
  (forall m rest, FindStringSubmatch r s = m :: rest ->
     suffix_of (list_ascii_of_string m) (list_ascii_of_string s) /\ lang r (list_ascii_of_string m)).
Proof.
  intros Ha. split.
  - rewrite FindStringSubmatch_nil, find_from_None_lang. unfold lang. split.
    + intros H t Ht. apply (H t Ht).
    + intros H t Ht s' Hm. pose proof (matches_anchored _ _ _ Ha Hm) as ->. exact (H t Ht Hm).
  - intros m rest H.
    destruct (find_from r (list_ascii_of_string s)) as [[[st rest'] c]|] eqn:E;
      [|apply FindStringSubmatch_nil in E; congruence].
    rewrite (FindStringSubmatch_anchored _ _ _ _ _ Ha E) in H. injection H as <- _.
    rewrite string_list_ascii_roundtrip.
    pose proof (find_from_anchored _ _ _ _ _ Ha E) as ->.
    apply find_from_spec in E as [Hs Hm]. split; [exact Hs|]. exact (accept_sound _ _ _ _ Hm).
Qed.

(** A whole input in the language of an end-anchored expression is its
    own match: the search succeeds at the first position and consumes
    everything. *)
Lemma FindStringSubmatch_whole r s :
  anchored_end r = true -> lang r (list_ascii_of_string s) ->
  exists gs, FindStringSubmatch r s = s :: gs.
Proof.
  intros Ha Hl. destruct (mtc r (list_ascii_of_string s) [] accept) as [[rest c]|] eqn:E.
  - exists (map (group_string c) (List.seq 1 (num_groups r))).
    rewrite (FindStringSubmatch_anchored _ _ _ _ _ Ha (find_from_here _ _ _ _ E)).
    rewrite string_of_list_ascii_of_string. reflexivity.
  - exfalso. refine (mtc_complete r _ _ [] [] accept Hl _ E). intros c; discriminate.
Qed.

(** Membership in the language, decided by running the matcher. *)
Lemma lang_of_mtc r s :
  match mtc r s [] accept with Some ([], _) => True | _ => False end -> lang r s.
Proof.
  destruct (mtc r s [] accept) as [[[|x rest] c]|] eqn:E; intros []. exact (accept_sound _ _ _ _ E).
Qed.

End RegexSpec.
