(* ===== verification/Results.v ===== *)
(** * The result model (package [results], modelled from the specification)

    [Status] is the three-valued outcome of a provider call.  A [Result]
    is one release; a [ResultSet] is the ordered collection of results of
    one query.  [AddResult] overwrites the result with the same
    (Name, Version) in place and appends otherwise, so a set never holds
    two results with one key ([rs_wf]) and the last result added for a
    key wins.  The abstract view of a set is the partial map [rs_lookup]
    from keys to results; [AddResult] refines map insertion.  Two sets
    are equivalent ([rs_equiv]) when they hold the same results in some
    order; [Len] and, for well-formed sets, [rs_lookup] respect it. *)

From Stdlib Require Import String List Bool Permutation Morphisms Setoid Lia.
From S2P Require Import Prelude GoTime.
Import ListNotations.

Module Results.

Inductive Status : Type := OK | NotFound | Unavailable.

Definition Status_eqb (a b : Status) : bool :=
  match a, b with
  | OK, OK | NotFound, NotFound | Unavailable, Unavailable => true
  | _, _ => false
  end.

Lemma Status_eqb_eq a b : Status_eqb a b = true <-> a = b.
Proof. destruct a, b; simpl; split; congruence. Qed.

Record Result : Type := mkResult {
  Name : string; Version : string; Location : string; Published : GoTime.Time }.

(** [results.NewResult(name, version, location, published)]. *)
Definition NewResult (name version location : string) (published : GoTime.Time) : Result :=
  mkResult name version location published.

Record ResultSet : Type := mkResultSet { query : string; results : list Result }.

(** [results.NewResultSet(name)]: empty, tagged with the query. *)
Definition NewResultSet (name : string) : ResultSet := mkResultSet name [].

Definition result_key (r : Result) : string * string := (Name r, Version r).

Definition key_eqb (k1 k2 : string * string) : bool :=
  String.eqb (fst k1) (fst k2) && String.eqb (snd k1) (snd k2).

Lemma key_eqb_eq k1 k2 : key_eqb k1 k2 = true <-> k1 = k2.
Proof.
  destruct k1 as [a b], k2 as [c d]. unfold key_eqb. simpl.
  rewrite andb_true_iff, !String.eqb_eq. split; [intros [-> ->]|intros H; inversion H]; auto.
Qed.

Fixpoint replace_or_append (r : Result) (l : list Result) : list Result :=
  match l with
  | [] => [r]
  | x :: l' => if key_eqb (result_key x) (result_key r) then r :: l'
               else x :: replace_or_append r l'
  end.

(** [rs.AddResult(r)]. *)
Definition AddResult (r : Result) (rs : ResultSet) : ResultSet :=
  mkResultSet (query rs) (replace_or_append r (results rs)).

(** [rs.Len()]. *)
Definition Len (rs : ResultSet) : nat := length (results rs).

(** [rs.First()]: [None] is the empty sentinel ([nil]). *)
Definition First (rs : ResultSet) : option Result := hd_error (results rs).

(** Adding a list of results in order. *)
Definition add_all (rs : ResultSet) (l : list Result) : ResultSet :=
  fold_left (fun acc r => AddResult r acc) l rs.

(** ** Invariant and abstract view *)

Definition rs_wf (rs : ResultSet) : Prop := NoDup (map result_key (results rs)).

Definition rs_lookup (k : string * string) (rs : ResultSet) : option Result :=
  find (fun r => key_eqb (result_key r) k) (results rs).

Definition rs_equiv (rs1 rs2 : ResultSet) : Prop :=
  query rs1 = query rs2 /\ Permutation (results rs1) (results rs2).

(** ** AddResult against the abstract map *)

Lemma find_app {A} (f : A -> bool) (l1 l2 : list A) :
  find f (l1 ++ l2) = match find f l1 with Some x => Some x | None => find f l2 end.
Proof. induction l1 as [|x l1 IH]; simpl; [reflexivity|]. destruct (f x); auto. Qed.

Lemma key_eqb_sym k1 k2 : key_eqb k1 k2 = key_eqb k2 k1.
Proof.
  destruct (key_eqb k1 k2) eqn:E; symmetry.
  - apply key_eqb_eq in E. subst. apply key_eqb_eq. reflexivity.
  - apply Bool.not_true_iff_false. intros H. apply key_eqb_eq in H. subst.
    rewrite (proj2 (key_eqb_eq _ _) eq_refl) in E. discriminate.
Qed.

Lemma key_eqb_trans k1 k2 k3 :
  key_eqb k1 k2 = true -> key_eqb k2 k3 = key_eqb k1 k3.
Proof. intros H. apply key_eqb_eq in H. subst. reflexivity. Qed.

Lemma find_replace_or_append r l k :
  find (fun x => key_eqb (result_key x) k) (replace_or_append r l) =
  if key_eqb (result_key r) k then Some r
  else find (fun x => key_eqb (result_key x) k) l.
Proof.
  induction l as [|x l IH]; simpl.
  - destruct (key_eqb (result_key r) k); reflexivity.
  - destruct (key_eqb (result_key x) (result_key r)) eqn:Exr; simpl.
    + rewrite (key_eqb_trans _ _ _ Exr). destruct (key_eqb (result_key x) k); reflexivity.
    + rewrite IH. destruct (key_eqb (result_key x) k) eqn:Exk; [|reflexivity].
      destruct (key_eqb (result_key r) k) eqn:Erk; [|reflexivity].
      rewrite key_eqb_sym in Erk. rewrite <- (key_eqb_trans _ _ _ Exk), Erk in Exr.
      discriminate.
Qed.

Lemma map_key_replace_or_append r l :
  map result_key (replace_or_append r l) =
  match find (fun x => key_eqb (result_key x) (result_key r)) l with
  | Some _ => map result_key l
  | None => map result_key l ++ [result_key r]
  end.
Proof.
  induction l as [|x l IH]; simpl; [reflexivity|].
  destruct (key_eqb (result_key x) (result_key r)) eqn:E; simpl.
  - apply key_eqb_eq in E. rewrite E. reflexivity.
  - rewrite IH. destruct (find _ l); reflexivity.
Qed.

Lemma find_none_not_in k l :
  find (fun x => key_eqb (result_key x) k) l = None -> ~ In k (map result_key l).
Proof.
  intros H Hin. apply in_map_iff in Hin as (x & Hx & Hin).
  apply find_none with (x := x) in H; [|exact Hin].
  rewrite Hx, (proj2 (key_eqb_eq k k) eq_refl) in H. discriminate.
Qed.

(** [AddResult] refines insertion into the map from keys to results: the
    added result is found under its key, other keys are unchanged. *)
Theorem AddResult_lookup r rs k :
  rs_lookup k (AddResult r rs) =
  if key_eqb (result_key r) k then Some r else rs_lookup k rs.
Proof. apply find_replace_or_append. Qed.

(** [AddResult] keeps at most one result per (Name, Version). *)
Theorem AddResult_wf r rs : rs_wf rs -> rs_wf (AddResult r rs).
Proof.
  unfold rs_wf, AddResult. simpl. rewrite map_key_replace_or_append.
  destruct (find _ (results rs)) eqn:E; [auto|].
  intros Hnd. apply NoDup_app; [exact Hnd|constructor; [intros []|constructor]|].
  intros k Hk [<-|[]]. apply (find_none_not_in _ _ E Hk).
Qed.

Lemma In_AddResult r rs x :
  In x (results (AddResult r rs)) -> x = r \/ In x (results rs).
Proof.
  unfold AddResult. simpl. induction (results rs) as [|y l IH]; simpl; [intros [->|[]]; auto|].
  destruct (key_eqb _ _); simpl; intros [->|H]; auto; destruct (IH H); auto.
Qed.

Lemma AddResult_In r rs : In r (results (AddResult r rs)).
Proof.
  unfold AddResult. simpl. induction (results rs) as [|y l IH]; simpl; [tauto|].
  destruct (key_eqb _ _); simpl; auto.
Qed.

#[export] Hint Resolve AddResult_wf AddResult_In : cuppa.

(** ** Adding several results *)

Lemma add_all_query rs l : query (add_all rs l) = query rs.
Proof. revert rs; induction l as [|x l IH]; intros rs; simpl; [|rewrite IH]; reflexivity. Qed.

(** Of several results with one key, the last one added wins. *)
Theorem add_all_lookup rs l k :
  rs_lookup k (add_all rs l) =
  match find (fun r => key_eqb (result_key r) k) (rev l) with
  | Some r => Some r
  | None => rs_lookup k rs
  end.
Proof.
  revert rs. induction l as [|x l IH]; intros rs; simpl; [reflexivity|].
  rewrite IH, find_app, AddResult_lookup. simpl.
  destruct (find _ (rev l)); [reflexivity|]. destruct (key_eqb _ _); reflexivity.
Qed.

Lemma add_all_wf rs l : rs_wf rs -> rs_wf (add_all rs l).
Proof. revert rs. induction l as [|x l IH]; intros rs H; simpl; auto with cuppa. Qed.

Lemma replace_or_append_fresh r l :
  ~ In (result_key r) (map result_key l) -> replace_or_append r l = l ++ [r].
Proof.
  induction l as [|x l IH]; simpl; intros Hn; [reflexivity|].
  destruct (key_eqb (result_key x) (result_key r)) eqn:E.
  - apply key_eqb_eq in E. tauto.
  - rewrite IH; [reflexivity|tauto].
Qed.

(** Results with pairwise distinct new keys are appended in order. *)
Lemma add_all_fresh rs l :
  NoDup (map result_key (results rs ++ l)) -> results (add_all rs l) = results rs ++ l.
Proof.
  revert rs. induction l as [|x l IH]; intros rs Hnd; simpl; [now rewrite app_nil_r|].
  rewrite IH; unfold AddResult; simpl.
  - rewrite replace_or_append_fresh, <- app_assoc; [reflexivity|].
    rewrite map_app in Hnd. simpl in Hnd. apply NoDup_remove_2 in Hnd.
    rewrite in_app_iff in Hnd. tauto.
  - rewrite replace_or_append_fresh, <- app_assoc; [exact Hnd|].
    rewrite map_app in Hnd. simpl in Hnd. apply NoDup_remove_2 in Hnd.
    rewrite in_app_iff in Hnd. tauto.
Qed.

(** A key carried by exactly one element of a duplicate-free list is
    found at that element. *)
Lemma find_key_unique (l : list Result) k x :
  NoDup (map result_key l) -> In x l -> result_key x = k ->
  find (fun r => key_eqb (result_key r) k) l = Some x.
Proof.
  induction l as [|y l IH]; simpl; [intros _ []|].
  intros Hnd Hin Hk. inversion Hnd as [|? ? Hy Hnd']; subst.
  destruct (key_eqb (result_key y) (result_key x)) eqn:E.
  - apply key_eqb_eq in E. destruct Hin as [->|Hin]; [reflexivity|].
    exfalso. apply Hy. rewrite E. apply in_map, Hin.
  - destruct Hin as [->|Hin]; [rewrite (proj2 (key_eqb_eq _ _) eq_refl) in E; discriminate|].
    apply IH; auto.
Qed.

Lemma find_key_none (l : list Result) k :
  (forall x, In x l -> result_key x <> k) ->
  find (fun r => key_eqb (result_key r) k) l = None.
Proof.
  intros H. induction l as [|y l IH]; simpl; [reflexivity|].
  destruct (key_eqb (result_key y) k) eqn:E.
  - apply key_eqb_eq in E. exfalso. apply (H y); simpl; auto.
  - apply IH. intros x Hx. apply H. simpl. auto.
Qed.

(** The ResultSet contract of spec section 3, for any sequence of
    [AddResult] calls on a fresh set: no two results share a
    (Name, Version), the result kept for a key is the last one added with
    that key, and keys never added are absent. *)
Theorem ResultSet_last_wins name l k :
  rs_wf (add_all (NewResultSet name) l) /\
  rs_lookup k (add_all (NewResultSet name) l) =
    find (fun r => key_eqb (result_key r) k) (rev l).
Proof.
  split; [apply add_all_wf; constructor|].
  rewrite add_all_lookup. destruct (find _ (rev l)); reflexivity.
Qed.

(** ** Equivalence of result sets *)

#[export] Instance rs_equiv_Equivalence : Equivalence rs_equiv.
Proof.
  split.
  - intros rs. split; reflexivity.
  - intros a b [H1 H2]. split; symmetry; assumption.
  - intros a b c [H1 H2] [H3 H4]. split; etransitivity; eassumption.
Qed.

#[export] Instance Len_proper : Proper (rs_equiv ==> eq) Len.
Proof. intros a b [_ H]. apply Permutation_length, H. Qed.

#[export] Instance rs_wf_proper : Proper (rs_equiv ==> iff) rs_wf.
Proof.
  intros a b [_ H]. unfold rs_wf. split; apply Permutation_NoDup;
    [|symmetry]; apply Permutation_map, H.
Qed.

End Results.
