(* ===== verification/Provider.v ===== *)
(** * The provider interface and what a provider promises

    The Go program's providers (package [providers], not under [src/])
    share the interface {Name, Match, Releases}; [Latest] is derived from
    [Releases] and [ResultSet.First].  A provider is modelled as the
    record [Provider] of its three operations.  [Releases] runs in the Go
    effect of [Prelude] over the events of [Event]: the HTTP requests it
    issues, the closing of response bodies, lines written to standard
    error, and the orchestrator's log lines.  The HTTP client is the
    class [Transport]: a function from a URL to an error ([inl], Go's
    [err != nil]) or a response.  [ProviderContract] is what the
    orchestrator relies on: a name produced by [Match] never makes
    [Releases] panic, [OK] comes with a non-empty result set, and
    [Releases] emits only transport events (it does not write the
    orchestrator's log). *)

From Stdlib Require Import String List Bool ZArith.
From S2P Require Import Prelude GoTime Results.
Import ListNotations.

Module Provider.
Import Results.

Inductive Event : Type :=
| EvHttpGet (url : string)        (** [http.Get(url)] *)
| EvBodyClose                     (** [resp.Body.Close()] *)
| EvStderr (msg : string)         (** [fmt.Fprintln(os.Stderr, msg)] *)
| EvPrint (text : string)         (** the builtin [print(text)], to standard error *)
| EvCheck (provider : string)     (** "%s checking for match" *)
| EvNoMatch (provider : string)   (** "%s does not match." *)
| EvFetchFailed (s : Status)      (** "Failed to fetch releases, code: %d" *)
| EvPrintAll (rs : ResultSet)     (** [rs.PrintAll()] *)
| EvFound (provider : string)     (** "%s match(es) found." *)
| EvDone                          (** "Done" *)
| EvFatal (msg : string).         (** [w.Fatalln(msg)]: logs, then exits 1 *)

(** The events a provider's [Releases] may emit: requests, body closes
    and error lines. *)
Definition is_transport_event (e : Event) : bool :=
  match e with EvHttpGet _ | EvBodyClose | EvStderr _ => true | _ => false end.

Record Response : Type := mkResponse { StatusCode : Z; Body : string }.

Class Transport : Type := http_get : string -> string + Response.

Record Provider : Type := mkProvider {
  p_Name : string;
  p_Match : string -> string;
  p_Releases : string -> Go Event (option ResultSet * Status) }.

(** [Latest(name)]: [Releases], then [First] of the set when [OK]; a
    [nil] set under [OK] would be a nil dereference. *)
Definition Latest_of (releases : string -> Go Event (option ResultSet * Status)) (name : string)
  : Go Event (option Result * Status) :=
  go_bind (releases name) (fun '(ors, s) =>
    if negb (Status_eqb s OK) then go_ret (None, s)
    else match ors with
         | Some rs => go_ret (First rs, s)
         | None => go_panic "invalid memory address or nil pointer dereference"
         end).

Record ProviderContract (p : Provider) : Prop := {
  match_releases_safe : forall q,
      p_Match p q <> ""%string -> is_panic (p_Releases p (p_Match p q)) = false;
  releases_ok_nonempty : forall n ors t,
      p_Releases p n = (Ret (ors, OK), t) -> exists rs, ors = Some rs /\ Len rs > 0;
  releases_transport_only : forall n r t,
      p_Releases p n = (r, t) -> forallb is_transport_event t = true }.

End Provider.
