(* ===== verification/Flags.v ===== *)
(** * Command-line handling of the [releases] subcommand

    [src/cmd/releases.go] builds its flag set with [Flags] (a
    [flag.NewFlagSet("releases", flag.ExitOnError)] whose [Usage] is the
    command's [Usage]), prints help with [Usage] and [Short], and lets
    the method [Parse] of Go's [flag.FlagSet] split [os.Args[2:]] before
    [Execute] counts the positional arguments.  The part of package [flag] the command
    reaches is modelled here from Go's source: the command defines no
    flag, so [f.formal[name]] never finds one, [parseOne] never reports a
    flag as seen, and the loop of [Parse] ends at its first call of
    [parseOne].  Under [ExitOnError] a parse error prints its message and
    the usage and exits the process with status 2; [-h] and [-help] print
    the usage and exit with status 0 (Go 1.15 and later).  The exit is the
    [inr] outcome of [Parse]. *)

From Stdlib Require Import String Ascii List Bool ZArith Lia.
From S2P Require Import Prelude Provider.
Import ListNotations.
Local Open Scope go_scope.

Module Flags.
Import Provider.

(** A newline, ["\n"] in Go. *)
Definition nl : string := String "010" EmptyString.

(** [*flag.FlagSet] of a set with no flag defined: its name and its
    [Usage] field ([None] is [nil]). *)
Record FlagSet : Type := mkFlagSet {
  fs_name : string;
  fs_Usage : option (Go Event unit) }.

(** [flag.NewFlagSet(name, flag.ExitOnError)]. *)
Definition NewFlagSet (name : string) : FlagSet := mkFlagSet name None.

(** [f.PrintDefaults()]: one entry per defined flag, to [f.Output()];
    the command defines none, so it writes nothing. *)
Definition PrintDefaults (f : FlagSet) : Go Event unit := go_ret tt.

(** [(r Releases) Short() string]. *)
Definition Short : string := "Get all stable releases".

(** [(r Releases) Usage()]: [os.Args[0]] is the program name.  The call
    [r.Flags().PrintDefaults()] reads only the defined flags of the set,
    which [NewFlagSet] leaves empty whatever [Usage] field [Flags] sets. *)
Definition Usage (osargs : list string) : Go Event unit :=
  let! arg0 := go_index osargs 0 in
  let! _ := go_emit (EvPrint ("USAGE: " ++ arg0 ++ " releases <URL>" ++ nl ++ nl)) in
  let! _ := go_emit (EvPrint ("DESCRIPTION: " ++ Short ++ nl ++ nl)) in
  PrintDefaults (NewFlagSet "releases").

(** [(r Releases) Flags() *flag.FlagSet]: [rcmd.Usage = r.Usage]. *)
Definition Flags (osargs : list string) : FlagSet :=
  let rcmd := NewFlagSet "releases" in
  mkFlagSet (fs_name rcmd) (Some (Usage osargs)).

(** [f.defaultUsage()]. *)
Definition defaultUsage (f : FlagSet) : Go Event unit :=
  let! _ := go_emit (EvPrint (if String.eqb (fs_name f) "" then "Usage:" ++ nl
                              else "Usage of " ++ fs_name f ++ ":" ++ nl)) in
  PrintDefaults f.

(** [f.usage()]: the [Usage] field, or the default when it is [nil]. *)
Definition usage (f : FlagSet) : Go Event unit :=
  match fs_Usage f with
  | Some u => u
  | None => defaultUsage f
  end.

(** The errors [parseOne] returns: [flag.ErrHelp] or one built by [failf]. *)
Inductive ParseError : Type :=
| ErrHelp
| ErrMsg (msg : string).

(** [f.failf(...)]: the message to [f.Output()] (standard error), then
    the usage. *)
Definition failf (f : FlagSet) (msg : string) : Go Event (list string + ParseError) :=
  let! _ := go_emit (EvStderr msg) in
  let! _ := usage f in
  go_ret (inr (ErrMsg msg)).

(** The flag name ends at the first [=] after its first character
    ([for i := 1; i < len(name); i++ { if name[i] == '=' ... }]). *)
Fixpoint cut_value (l : list ascii) : list ascii :=
  match l with
  | [] => []
  | c :: l' => if Ascii.eqb c "="%char then [] else c :: cut_value l'
  end.

(** [f.parseOne()] on the remaining arguments: [inl rest] is
    [(false, nil)] with [f.args = rest]; [inr e] is [(false, e)].  No
    flag is defined, so the lookup [f.formal[name]] always misses. *)
Definition parseOne (f : FlagSet) (args : list string) : Go Event (list string + ParseError) :=
  match args with
  | [] => go_ret (inl [])
  | s :: rest =>
      match list_ascii_of_string s with
      | c0 :: c1 :: l =>
          if negb (Ascii.eqb c0 "-"%char) then go_ret (inl args)
          else
            let numMinuses := if Ascii.eqb c1 "-"%char then 2 else 1 in
            if Ascii.eqb c1 "-"%char && (match l with [] => true | _ => false end)
            then go_ret (inl rest)
            else
              match skipn numMinuses (c0 :: c1 :: l) with
              | [] => failf f ("bad flag syntax: " ++ s)
              | n0 :: name' =>
                  if Ascii.eqb n0 "-"%char || Ascii.eqb n0 "="%char
                  then failf f ("bad flag syntax: " ++ s)
                  else
                    let name := string_of_list_ascii (n0 :: cut_value name') in
                    if String.eqb name "help" || String.eqb name "h" then
                      let! _ := usage f in
                      go_ret (inr ErrHelp)
                    else failf f ("flag provided but not defined: -" ++ name)
              end
      | _ => go_ret (inl args)
      end
  end.

(** [f.Parse(arguments)] under [flag.ExitOnError]: [inl args] leaves the
    positional arguments [args]; [inr code] is [os.Exit(code)]. *)
Definition Parse (f : FlagSet) (arguments : list string) : Go Event (list string + Z) :=
  let! r := parseOne f arguments in
  match r with
  | inl rest => go_ret (inl rest)
  | inr ErrHelp => go_ret (inr 0%Z)
  | inr (ErrMsg _) => go_ret (inr 2%Z)
  end.

(** [f.NArg()] and [f.Arg(i)] ([""] out of range). *)
Definition NArg (args : list string) : nat := length args.
Definition Arg (args : list string) (i : nat) : string := nth i args ""%string.

(** An argument [parseOne] reads as a flag: two characters or more, the
    first a dash. *)
Definition flag_like (s : string) : bool :=
  match list_ascii_of_string s with
  | c0 :: _ :: _ => Ascii.eqb c0 "-"%char
  | _ => false
  end.

(** The two lines [Usage] prints for the program [prog]. *)
Definition usage_text (prog : string) : list Event :=
  [EvPrint ("USAGE: " ++ prog ++ " releases <URL>" ++ nl ++ nl);
   EvPrint ("DESCRIPTION: " ++ Short ++ nl ++ nl)].

(** The positional arguments a parse leaves: those it was given when the
    first one is not a flag. *)
Definition positional (args : list string) : bool :=
  match args with
  | [] => true
  | a :: _ => negb (flag_like a)
  end.

(** [p] is a prefix of [l]. *)
Fixpoint lprefix (p l : list ascii) : bool :=
  match p, l with
  | [], _ => true
  | x :: p', y :: l' => Ascii.eqb x y && lprefix p' l'
  | _ :: _, [] => false
  end.

(** [l] is the argument [p] alone or [p=value]. *)
Definition arg_is (p l : list ascii) : bool :=
  (lprefix p l && (length l =? length p)) || lprefix (p ++ ["="%char]) l.

(** The arguments with which the [flag] package documents a request for
    help: [-h] or [-help], with one or two dashes, alone or with a value. *)
Definition help_forms : list string := ["-h"; "-help"; "--h"; "--help"]%string.

Definition help_arg (a : string) : bool :=
  existsb (fun p => arg_is (list_ascii_of_string p) (list_ascii_of_string a)) help_forms.

(** The same test on what follows the dashes. *)
Definition help_name (l : list ascii) : bool :=
  existsb (fun p => arg_is (list_ascii_of_string p) l) ["h"; "help"]%string.

(** ** Lemmas *)

Lemma parseOne_positional f args :
  positional args = true -> parseOne f args = go_ret (inl args).
Proof.
  destruct args as [|a rest]; [reflexivity|]. unfold positional, flag_like, parseOne.
  destruct (list_ascii_of_string a) as [|c0 [|c1 l]]; try reflexivity.
  intros H. apply negb_true_iff in H. rewrite H. reflexivity.
Qed.

Lemma Parse_positional f args :
  positional args = true -> Parse f args = go_ret (inl args).
Proof. intros H. unfold Parse. rewrite (parseOne_positional f args H). reflexivity. Qed.

Lemma failf_eq f msg :
  fst (usage f) = Ret tt ->
  failf f msg = (Ret (inr (ErrMsg msg)), EvStderr msg :: snd (usage f)).
Proof.
  intros H. unfold failf. destruct (usage f) as [[[]|m] t]; simpl in *; [|discriminate].
  rewrite app_nil_r. reflexivity.
Qed.

Lemma help_eq f :
  fst (usage f) = Ret tt ->
  go_bind (usage f) (fun _ => go_ret (@inr (list string) _ ErrHelp)) =
  (Ret (inr ErrHelp), snd (usage f)).
Proof.
  intros H. destruct (usage f) as [[[]|m] t]; simpl in *; [|discriminate].
  rewrite app_nil_r. reflexivity.
Qed.

(** The flag name [parseOne] cuts at the first [=] is [p] exactly when
    the text is [p] or starts with [p=]. *)
(** An equivalence between two equations that both hold or both fail. *)
Local Ltac iff_trivial := split; intros H; (reflexivity || discriminate H).

Lemma cut_value_spec p l :
  ~ In "="%char p -> cut_value l = p <-> arg_is p l = true.
Proof.
  unfold arg_is. revert l. induction p as [|y p IH]; intros l Hp;
    (destruct l as [|x l]; [cbn; iff_trivial|]);
    cbn [cut_value lprefix app length andb orb Nat.eqb].
  - rewrite andb_true_r, (Ascii.eqb_sym "=" x). destruct (Ascii.eqb x "="); iff_trivial.
  - assert (Hy : y <> "="%char) by (intros ->; apply Hp; left; reflexivity).
    destruct (Ascii.eqb_spec x "=") as [->|Hx].
    + rewrite (proj2 (Ascii.eqb_neq _ _) Hy). cbn. iff_trivial.
    + destruct (Ascii.eqb_spec y x) as [<-|Hyx]; cbn [andb orb].
      * rewrite <- (IH l (fun H => Hp (or_intror H))).
        split; [intros H; injection H; auto|intros ->; reflexivity].
      * split; [intros H; injection H; congruence|intros H; discriminate H].
Qed.

Lemma string_eqb_list (l : list ascii) (s : string) :
  String.eqb (string_of_list_ascii l) s = true <-> l = list_ascii_of_string s.
Proof.
  rewrite String.eqb_eq. split; [intros <-; symmetry; apply list_ascii_of_string_of_list_ascii|].
  intros ->. apply string_of_list_ascii_of_string.
Qed.

(** The test [parseOne] makes on the name of an undefined flag. *)
Lemma name_is_help n0 l :
  n0 <> "="%char ->
  (String.eqb (string_of_list_ascii (n0 :: cut_value l)) "help" ||
   String.eqb (string_of_list_ascii (n0 :: cut_value l)) "h") = help_name (n0 :: l).
Proof.
  intros Hn. assert (Hc : cut_value (n0 :: l) = n0 :: cut_value l)
    by (simpl; destruct (Ascii.eqb_spec n0 "="); [congruence|reflexivity]).
  unfold help_name. cbn [existsb]. rewrite orb_false_r, orb_comm.
  f_equal; apply Bool.eq_iff_eq_true; rewrite string_eqb_list, <- Hc;
    (apply cut_value_spec; simpl; intuition discriminate).
Qed.

Lemma help_arg_two a l :
  list_ascii_of_string a = "-"%char :: "-"%char :: l -> help_arg a = help_name l.
Proof. intros Ea. unfold help_arg, help_name, arg_is. rewrite Ea. reflexivity. Qed.

Lemma help_arg_one a c1 l :
  list_ascii_of_string a = "-"%char :: c1 :: l -> c1 <> "-"%char -> help_arg a = help_name (c1 :: l).
Proof.
  intros Ea Hc. assert (E : Ascii.eqb "-" c1 = false) by (apply Ascii.eqb_neq; congruence).
  unfold help_arg, help_name, arg_is, help_forms. rewrite Ea.
  cbn [existsb list_ascii_of_string lprefix app length andb orb Nat.eqb].
  rewrite !Ascii.eqb_refl, E. cbn [andb orb]. rewrite !orb_false_r. reflexivity.
Qed.

(** What [parseOne] does once the dashes are stripped, the name starting
    with [n0]: a help request exactly when [help_name] holds. *)
Lemma parse_name f s n0 l :
  fst (usage f) = Ret tt ->
  let r := if Ascii.eqb n0 "-"%char || Ascii.eqb n0 "="%char then failf f ("bad flag syntax: " ++ s)
           else let name := string_of_list_ascii (n0 :: cut_value l) in
                if String.eqb name "help" || String.eqb name "h" then
                  let! _ := usage f in go_ret (inr ErrHelp)
                else failf f ("flag provided but not defined: -" ++ name) in
  if help_name (n0 :: l) then r = (Ret (inr ErrHelp), snd (usage f))
  else exists msg, r = (Ret (inr (ErrMsg msg)), EvStderr msg :: snd (usage f)).
Proof.
  intros Hu r. subst r. destruct (Ascii.eqb n0 "-" || Ascii.eqb n0 "=") eqn:Hbad.
  - replace (help_name (n0 :: l)) with false.
    + eexists. apply failf_eq, Hu.
    + apply orb_true_iff in Hbad as [H|H]; apply Ascii.eqb_eq in H; subst n0; reflexivity.
  - apply orb_false_iff in Hbad as [_ Hn]. apply Ascii.eqb_neq in Hn.
    cbv zeta. rewrite (name_is_help n0 l Hn).
    destruct (help_name (n0 :: l)); [apply help_eq, Hu|eexists; apply failf_eq, Hu].
Qed.

(** A flag-like argument other than [--]: [parseOne] reports [ErrHelp]
    after the usage exactly when the argument is a help request, and
    otherwise an error line followed by the usage. *)
Lemma parseOne_help f a rest :
  flag_like a = true -> a <> "--"%string -> fst (usage f) = Ret tt ->
  if help_arg a then parseOne f (a :: rest) = (Ret (inr ErrHelp), snd (usage f))
  else exists msg, parseOne f (a :: rest) = (Ret (inr (ErrMsg msg)), EvStderr msg :: snd (usage f)).
Proof.
  intros Hf Hd Hu. unfold flag_like in Hf.
  destruct (list_ascii_of_string a) as [|c0 [|c1 l]] eqn:Ea; try discriminate.
  apply Ascii.eqb_eq in Hf. subst c0.
  destruct (Ascii.eqb_spec c1 "-") as [->|H1].
  - destruct l as [|n0 l'].
    + exfalso. apply Hd. rewrite <- (string_of_list_ascii_of_string a), Ea. reflexivity.
    + rewrite (help_arg_two a (n0 :: l') Ea). unfold parseOne. rewrite Ea.
      exact (parse_name f a n0 l' Hu).
  - rewrite (help_arg_one a c1 l Ea H1). unfold parseOne. rewrite Ea.
    replace (Ascii.eqb c1 "-") with false by (symmetry; apply Ascii.eqb_neq, H1).
    exact (parse_name f a c1 l Hu).
Qed.

End Flags.
