(* ===== verification/Cmd.v ===== *)
(** * The [releases] subcommand ([src/cmd/releases.go], [Execute])

    [Execute] takes the registry [providers.All()] and the process
    arguments [os.Args].  It re-slices [os.Args[2:]], lets the flag set of
    [Flags] parse them ([Flags.Parse], which may exit the process), and
    returns [USAGE] unless exactly one positional argument is left.  With
    one ([execute_query]) it probes every provider in registry order
    ([check_provider]): log the check, [Match] the query, skip on no
    match, call [Releases] on the match, log a failure status and
    continue, or print the set and mark the invocation found.  It ends
    with "Done" when something was found and with [Fatalln] otherwise,
    which exits the process with status 1 ([Exit 1]).  The loop is
    modelled twice: as the fold [run_providers] and as the small-step
    machine [step] over [cstate], whose runs the fold computes
    ([run_providers_star]); the invariant [loop_inv] of its reachable
    states (probed prefix, check lines, the
    [found] flag, where a crash happens) is proved by rule induction. *)

From Stdlib Require Import String List Bool ZArith Lia Permutation.
From S2P Require Import Prelude GoTime Results Provider Flags.
Import ListNotations.
Local Open Scope go_scope.

Module Cmd.
Import Results Provider Flags.

(** The command's return value; [Exit code] is a process exit performed
    inside the call: [os.Exit(code)] in [flag.Parse], status 1 in
    [w.Fatalln]. *)
Inductive ExitCode : Type := GOOD | USAGE | Exit (code : Z).

(** [rs.PrintAll()] on the set [Releases] returned; a [nil] set is a
    nil dereference. *)
Definition PrintAll (ors : option ResultSet) : Go Event unit :=
  match ors with
  | Some rs => go_emit (EvPrintAll rs)
  | None => go_panic "invalid memory address or nil pointer dereference"
  end.

(** One iteration of [for _, p := range ps]. *)
Definition check_provider (query : string) (found : bool) (p : Provider) : Go Event bool :=
  let! _ := go_emit (EvCheck (p_Name p)) in
  let name := p_Match p query in
  if String.eqb name "" then
    let! _ := go_emit (EvNoMatch (p_Name p)) in
    go_ret found
  else
    let! '(rs, s) := p_Releases p name in
    if negb (Status_eqb s OK) then
      let! _ := go_emit (EvFetchFailed s) in
      go_ret found
    else
      let! _ := PrintAll rs in
      let! _ := go_emit (EvFound (p_Name p)) in
      go_ret true.

Fixpoint run_providers (query : string) (ps : list Provider) (found : bool) : Go Event bool :=
  match ps with
  | [] => go_ret found
  | p :: ps' =>
      let! found' := check_provider query found p in
      run_providers query ps' found'
  end.

(** Lines 64-89 of [Execute], with the one positional argument [query]:
    the logger set-up, the provider loop and the final report. *)
Definition execute_query (ps : list Provider) (query : string) : Go Event ExitCode :=
  let! found := run_providers query ps false in
  if found then
    let! _ := go_emit EvDone in
    go_ret GOOD
  else
    let! _ := go_emit (EvFatal "No releases found.") in
    go_ret (Exit 1).

(** [(r Releases) Execute() int] on the registry [ps] and the process
    arguments [osargs] ([os.Args]). *)
Definition Execute (ps : list Provider) (osargs : list string) : Go Event ExitCode :=
  let flags := Flags osargs in
  let! rest := go_slice_from osargs 2 in
  let! parsed := Parse flags rest in
  match parsed with
  | inr code => go_ret (Exit code)
  | inl args =>
      if negb (NArg args =? 1) then go_ret USAGE
      else execute_query ps (Arg args 0)
  end.

(** ** The loop as a state machine *)

Inductive cstate : Type :=
| Running (pending : list Provider) (found : bool) (trace : list Event)
| Crashed (msg : string) (trace : list Event).

Inductive step (query : string) : cstate -> cstate -> Prop :=
| step_no_match p ps found t :
    p_Match p query = ""%string ->
    step query (Running (p :: ps) found t)
               (Running ps found (t ++ [EvCheck (p_Name p); EvNoMatch (p_Name p)]))
| step_failed p ps found t ors s t' :
    p_Match p query <> ""%string ->
    p_Releases p (p_Match p query) = (Ret (ors, s), t') -> s <> OK ->
    step query (Running (p :: ps) found t)
               (Running ps found (t ++ EvCheck (p_Name p) :: t' ++ [EvFetchFailed s]))
| step_found p ps found t rs t' :
    p_Match p query <> ""%string ->
    p_Releases p (p_Match p query) = (Ret (Some rs, OK), t') ->
    step query (Running (p :: ps) found t)
               (Running ps true (t ++ EvCheck (p_Name p) :: t' ++ [EvPrintAll rs; EvFound (p_Name p)]))
| step_panic p ps found t msg t' :
    p_Match p query <> ""%string ->
    p_Releases p (p_Match p query) = (Panic msg, t') ->
    step query (Running (p :: ps) found t) (Crashed msg (t ++ EvCheck (p_Name p) :: t'))
| step_nil_set p ps found t t' :
    p_Match p query <> ""%string ->
    p_Releases p (p_Match p query) = (Ret (None, OK), t') ->
    step query (Running (p :: ps) found t)
               (Crashed "invalid memory address or nil pointer dereference" (t ++ EvCheck (p_Name p) :: t')).

Inductive star {S : Type} (R : S -> S -> Prop) : S -> S -> Prop :=
| star_refl s : star R s s
| star_step s1 s2 s3 : R s1 s2 -> star R s2 s3 -> star R s1 s3.

(** ** The fold computes the machine's runs *)

Section Loop.
Variable query : string.

(** One iteration of the loop is one step of the machine. *)
Lemma check_provider_step p ps found t :
  match check_provider query found p with
  | (Ret f, t1) => step query (Running (p :: ps) found t) (Running ps f (t ++ t1))
  | (Panic m, t1) => step query (Running (p :: ps) found t) (Crashed m (t ++ t1))
  end.
Proof.
  unfold check_provider. simpl.
  destruct (String.eqb_spec (p_Match p query) "") as [Hm|Hm].
  { simpl. apply step_no_match, Hm. }
  destruct (p_Releases p (p_Match p query)) as [[[ors s]|m] t'] eqn:Hr; simpl.
  - destruct (Status_eqb s OK) eqn:Hs; simpl.
    + apply Status_eqb_eq in Hs. subst s. destruct ors as [rs|]; simpl.
      * apply step_found; assumption.
      * rewrite app_nil_r. apply step_nil_set; assumption.
    + apply step_failed with (ors := ors); [assumption|assumption|].
      intros ->. discriminate.
  - apply step_panic; assumption.
Qed.

(** A property every step preserves holds of every state a run reaches. *)
Lemma star_invariant {S} (R : S -> S -> Prop) (I : S -> Prop) s s' :
  (forall x y, I x -> R x y -> I y) -> star R s s' -> I s -> I s'.
Proof. intros Hstep. induction 1; eauto. Qed.

(** Refinement: the fold's outcome is a run of the machine from the
    state where every provider is pending. *)
Lemma run_providers_star ps found t :
  match run_providers query ps found with
  | (Ret f, t1) => star (step query) (Running ps found t) (Running [] f (t ++ t1))
  | (Panic m, t1) => star (step query) (Running ps found t) (Crashed m (t ++ t1))
  end.
Proof.
  revert found t. induction ps as [|p ps IH]; intros found t; simpl.
  - rewrite app_nil_r. apply star_refl.
  - pose proof (check_provider_step p ps found t) as Hs.
    destruct (check_provider query found p) as [[f1|m] t1]; simpl.
    + specialize (IH f1 (t ++ t1)).
      destruct (run_providers query ps f1) as [[f2|m] t2]; simpl;
        rewrite app_assoc; eapply star_step; eassumption.
    + eapply star_step; [exact Hs|apply star_refl].
Qed.

End Loop.

(** ** The orchestrator's specification (spec section 4.4) *)

(** What probing [p] with [query] gives: [None] when it does not match
    (or its call panics), else the pair [Releases] returned. *)
Definition provider_outcome (query : string) (p : Provider) : option (option ResultSet * Status) :=
  if String.eqb (p_Match p query) "" then None
  else match p_Releases p (p_Match p query) with
       | (Ret r, _) => Some r
       | (Panic _, _) => None
       end.

Definition succeeded (query : string) (p : Provider) : bool :=
  match provider_outcome query p with Some (Some _, OK) => true | _ => false end.

Definition outcome_sets (query : string) (p : Provider) : list ResultSet :=
  match provider_outcome query p with Some (Some rs, OK) => [rs] | _ => [] end.

(** The specification: found iff some provider reached [OK]; the sets of
    all successful providers, in registry order. *)
Definition found_spec (query : string) (ps : list Provider) : bool := existsb (succeeded query) ps.
Definition printed_spec (query : string) (ps : list Provider) : list ResultSet :=
  flat_map (outcome_sets query) ps.

Definition is_check (e : Event) : bool := match e with EvCheck _ => true | _ => false end.
Definition printed_sets (t : list Event) : list ResultSet :=
  flat_map (fun e => match e with EvPrintAll rs => [rs] | _ => [] end) t.

Definition is_found (e : Event) : bool := match e with EvFound _ => true | _ => false end.

(** What the loop needs of a provider to keep its log readable: its
    [Releases] writes only transport events. *)
Definition transport_only (p : Provider) : Prop :=
  forall n r t, p_Releases p n = (r, t) -> forallb is_transport_event t = true.

(** The invariant of the loop's states reached from [Running ps _ []]:
    the registry is the providers already probed followed by the pending
    ones, the trace has one check line per probed provider, in order,
    and [found] holds iff the trace reports a match; a crash happens in
    the middle of the registry, right after one more check line. *)
Definition loop_inv (ps : list Provider) (s : cstate) : Prop :=
  match s with
  | Running pend f t =>
      exists done, ps = done ++ pend /\
        filter is_check t = map (fun p => EvCheck (p_Name p)) done /\ f = existsb is_found t
  | Crashed _ t =>
      exists done p pend, ps = done ++ p :: pend /\
        filter is_check t = map (fun p => EvCheck (p_Name p)) (done ++ [p])
  end.

Lemma transport_events_quiet t :
  forallb is_transport_event t = true -> filter is_check t = [] /\ printed_sets t = [].
Proof.
  induction t as [|e t IH]; simpl; [auto|].
  intros H. apply andb_true_iff in H as [He Ht]. destruct (IH Ht) as [H1 H2].
  destruct e; try discriminate; simpl; rewrite ?H1, ?H2; auto.
Qed.

Lemma transport_not_found t :
  forallb is_transport_event t = true -> filter is_check t = [] /\ existsb is_found t = false.
Proof.
  induction t as [|e t IH]; simpl; [auto|].
  intros H. apply andb_true_iff in H as [He Ht]. destruct (IH Ht) as [H1 H2].
  destruct e; try discriminate; simpl; rewrite ?H1, ?H2; auto.
Qed.

Lemma Forall_middle {A} (P : A -> Prop) l1 x l2 : Forall P (l1 ++ x :: l2) -> P x.
Proof. intros H. apply Forall_app in H as [_ H]. inversion H. assumption. Qed.

Lemma printed_sets_app t1 t2 : printed_sets (t1 ++ t2) = printed_sets t1 ++ printed_sets t2.
Proof. apply flat_map_app. Qed.

(** One iteration under the contract: no panic, one check line, the set
    printed iff the provider succeeded. *)
Lemma check_provider_contract query found p :
  ProviderContract p ->
  exists t1, check_provider query found p = (Ret (found || succeeded query p), t1) /\
    filter is_check t1 = [EvCheck (p_Name p)] /\ printed_sets t1 = outcome_sets query p.
Proof.
  intros Hc. unfold check_provider, succeeded, outcome_sets, provider_outcome. simpl.
  destruct (String.eqb_spec (p_Match p query) "") as [Hm|Hm].
  { simpl. rewrite Bool.orb_false_r. eexists; repeat split. }
  pose proof (match_releases_safe p Hc query Hm) as Hsafe.
  destruct (p_Releases p (p_Match p query)) as [[[ors s]|m] t'] eqn:Hr; [|discriminate].
  destruct (transport_events_quiet t' (releases_transport_only p Hc _ _ _ Hr)) as [Hq1 Hq2].
  simpl. destruct s.
  - destruct (releases_ok_nonempty p Hc _ _ _ Hr) as (rs & -> & _). simpl.
    rewrite Bool.orb_true_r. eexists; repeat split.
    + simpl. rewrite filter_app, Hq1. reflexivity.
    + simpl. rewrite printed_sets_app, Hq2. reflexivity.
  - exists (EvCheck (p_Name p) :: t' ++ [EvFetchFailed NotFound]).
    destruct ors; simpl; rewrite Bool.orb_false_r, filter_app, Hq1, printed_sets_app, Hq2; auto.
  - exists (EvCheck (p_Name p) :: t' ++ [EvFetchFailed Unavailable]).
    destruct ors; simpl; rewrite Bool.orb_false_r, filter_app, Hq1, printed_sets_app, Hq2; auto.
Qed.

(** The loop under the contract, by induction on the registry. *)
Lemma run_providers_correct query ps found :
  Forall ProviderContract ps ->
  exists t, run_providers query ps found = (Ret (found || found_spec query ps), t) /\
    filter is_check t = map (fun p => EvCheck (p_Name p)) ps /\
    printed_sets t = printed_spec query ps.
Proof.
  intros Hps. revert found. induction Hps as [|p ps Hp Hps IH]; intros found; simpl.
  - rewrite Bool.orb_false_r. exists []. auto.
  - destruct (check_provider_contract query found p Hp) as (t1 & -> & Hc1 & Hp1). simpl.
    destruct (IH (found || succeeded query p)) as (t2 & -> & Hc2 & Hp2). simpl.
    exists (t1 ++ t2). rewrite Bool.orb_assoc. split; [reflexivity|].
    rewrite filter_app, printed_sets_app, Hc1, Hc2, Hp1, Hp2. split; reflexivity.
Qed.

(** The report after the loop, under the contract. *)
Lemma execute_query_correct ps query :
  Forall ProviderContract ps ->
  exists t, execute_query ps query = (Ret (if found_spec query ps then GOOD else Exit 1), t) /\
    filter is_check t = map (fun p => EvCheck (p_Name p)) ps /\
    printed_sets t = printed_spec query ps.
Proof.
  intros Hps. destruct (run_providers_correct query ps false Hps) as (t & Hrun & Hc & Hp).
  unfold execute_query. rewrite Hrun. simpl.
  destruct (found_spec query ps); simpl.
  - exists (t ++ [EvDone]). rewrite filter_app, printed_sets_app, Hc, Hp, !app_nil_r. auto.
  - exists (t ++ [EvFatal "No releases found."]).
    rewrite filter_app, printed_sets_app, Hc, Hp, !app_nil_r. auto.
Qed.

(** When the first argument after the subcommand is not a flag, the
    parse leaves every argument positional. *)
Lemma Execute_positional ps prog sub args :
  positional args = true ->
  Execute ps (prog :: sub :: args) =
    if NArg args =? 1 then execute_query ps (Arg args 0) else go_ret USAGE.
Proof.
  intros H. unfold Execute. cbv zeta.
  change (go_slice_from (prog :: sub :: args) 2) with (@go_ret Event _ args).
  rewrite go_bind_ret_l, (Parse_positional _ args H), go_bind_ret_l.
  destruct (NArg args =? 1); reflexivity.
Qed.

(** C11. Spec 4.4 and 7: under the provider contract, [Execute] with one
    positional argument probes every provider in registry order (one check
    line each, whatever the others returned), prints exactly the sets of
    the providers that reached [OK], in order, and returns [GOOD] iff one
    of them did, exiting with status 1 through [Fatalln] otherwise; any
    other number of positional arguments returns [USAGE] at once. *)
Theorem Execute_spec ps prog sub args :
  Forall ProviderContract ps -> positional args = true ->
  match args with
  | [query] =>
      exists t, Execute ps (prog :: sub :: args) =
                  (Ret (if found_spec query ps then GOOD else Exit 1), t) /\
        filter is_check t = map (fun p => EvCheck (p_Name p)) ps /\
        printed_sets t = printed_spec query ps
  | _ => Execute ps (prog :: sub :: args) = (Ret USAGE, [])
  end.
Proof.
  intros Hps Hpos. rewrite (Execute_positional ps prog sub args Hpos).
  destruct args as [|query [|a args]]; try reflexivity.
  apply execute_query_correct, Hps.
Qed.

Lemma printed_spec_perm query ps1 ps2 :
  Permutation ps1 ps2 -> Permutation (printed_spec query ps1) (printed_spec query ps2).
Proof.
  unfold printed_spec. induction 1; simpl; auto.
  - apply Permutation_app_head. assumption.
  - rewrite !app_assoc. apply Permutation_app_tail, Permutation_app_comm.
  - etransitivity; eassumption.
Qed.

(** C12. Spec section 5 allows probing the providers in any order (a
    parallel fan-out): under the contract, reordering the registry changes
    neither whether the query is found nor, up to order, the sets
    printed. *)
Theorem registry_order_irrelevant query ps1 ps2 f1 f2 t1 t2 :
  Forall ProviderContract ps1 -> Permutation ps1 ps2 ->
  run_providers query ps1 false = (Ret f1, t1) -> run_providers query ps2 false = (Ret f2, t2) ->
  f1 = f2 /\ Permutation (printed_sets t1) (printed_sets t2).
Proof.
  intros Hc Hperm H1 H2.
  assert (Hc2 : Forall ProviderContract ps2) by (eapply Permutation_Forall; eassumption).
  destruct (run_providers_correct query ps1 false Hc) as (u1 & E1 & _ & P1).
  destruct (run_providers_correct query ps2 false Hc2) as (u2 & E2 & _ & P2).
  rewrite H1 in E1. rewrite H2 in E2. injection E1 as -> <-. injection E2 as -> <-.
  rewrite P1, P2. split.
  - unfold found_spec. simpl. apply Bool.eq_true_iff_eq. rewrite !existsb_exists.
    split; intros (p & Hin & Hs); exists p; split; auto;
      [eapply Permutation_in; eauto|eapply Permutation_in; [symmetry|]; eauto].
  - apply printed_spec_perm, Hperm.
Qed.

(** Each step probes the first pending provider, adding its check line
    and, when it reached [OK], its found line. *)
Lemma loop_inv_step query ps s s' :
  Forall transport_only ps -> loop_inv ps s -> step query s s' -> loop_inv ps s'.
Proof.
  intros Hps Hi Hs.
  destruct Hs as [p pend f t Hm|p pend f t ors st t' Hm Hr Hst|p pend f t rs t' Hm Hr
                 |p pend f t msg t' Hm Hr|p pend f t t' Hm Hr];
    destruct Hi as (done & -> & Hc & Hf);
    try (destruct (transport_not_found t' (Forall_middle _ _ _ _ Hps _ _ _ Hr)) as [Q1 Q2]);
    [exists (done ++ [p])|exists (done ++ [p])|exists (done ++ [p])|exists done, p, pend|exists done, p, pend];
    (split; [rewrite <- ?app_assoc; reflexivity|]);
    rewrite ?filter_app, ?existsb_app, Hc, ?map_app; simpl;
    rewrite ?filter_app, ?existsb_app, ?Q1, ?Q2; simpl; rewrite ?app_nil_r;
    try (split; [reflexivity|]); rewrite ?Hf, ?orb_false_r, ?orb_true_r; auto.
Qed.

(** C26. The invariant of the provider loop, by induction on the runs of
    its state machine: when every provider's [Releases] writes only
    transport events (panics allowed), every state reached from the start
    of the loop has probed a prefix of the registry, in order, with one
    check line per probed provider; the [found] flag is set exactly when
    the trace reports a match; and a crash happens right after the check
    line of the provider that crashed, the providers after it unprobed. *)
Theorem loop_invariant query ps s :
  Forall transport_only ps -> star (step query) (Running ps false []) s -> loop_inv ps s.
Proof.
  intros Hps Hs. apply (star_invariant _ _ _ _ (fun x y => loop_inv_step query ps x y Hps) Hs).
  exists []. auto.
Qed.

(** A provider that panics aborts the whole run: the providers after it
    in the registry are never probed and the process crashes with the
    panic. *)
Lemma run_providers_panic query ps1 p ps2 found f1 t1 msg t' :
  run_providers query ps1 found = (Ret f1, t1) ->
  p_Match p query <> ""%string ->
  p_Releases p (p_Match p query) = (Panic msg, t') ->
  run_providers query (ps1 ++ p :: ps2) found = (Panic msg, t1 ++ EvCheck (p_Name p) :: t').
Proof.
  revert found t1. induction ps1 as [|q ps1 IH]; intros found t1 H1 Hm Hr; simpl in *.
  - injection H1 as -> <-. unfold check_provider. simpl.
    destruct (String.eqb_spec (p_Match p query) "") as [E|_]; [contradiction|].
    rewrite Hr. reflexivity.
  - destruct (check_provider query found q) as [[f|m] u] eqn:Hq; simpl in *; [|discriminate].
    destruct (run_providers query ps1 f) as [[f'|m] u'] eqn:Hrest; simpl in *; [|discriminate].
    injection H1 as <- <-. rewrite (IH f u' Hrest Hm Hr). simpl. rewrite app_assoc. reflexivity.
Qed.

(** C19. The command line the spec leaves to an external parser: a
    first argument after the subcommand that starts with a dash (other
    than [--]) is read by [flag.Parse] as an undefined flag, so the
    process exits before any provider is probed.  It exits with status 0
    after printing only the usage exactly when the argument asks for help
    ([-h] or [-help], with one or two dashes, alone or with [=value]), and
    otherwise with status 2 after an error line and the usage; spec
    section 6 lists only [GOOD] and [USAGE]. *)
Theorem Execute_flag_exits ps prog sub a rest :
  flag_like a = true -> a <> "--"%string ->
  if help_arg a then Execute ps (prog :: sub :: a :: rest) = (Ret (Exit 0), usage_text prog)
  else exists msg, Execute ps (prog :: sub :: a :: rest) = (Ret (Exit 2), EvStderr msg :: usage_text prog).
Proof.
  intros Hf Hd. unfold Execute. cbv zeta.
  change (go_slice_from (prog :: sub :: a :: rest) 2) with (@go_ret Event _ (a :: rest)).
  rewrite go_bind_ret_l. unfold Parse.
  pose proof (parseOne_help (Flags (prog :: sub :: a :: rest)) a rest Hf Hd eq_refl) as H.
  destruct (help_arg a); [|destruct H as [msg H]; exists msg]; rewrite H; reflexivity.
Qed.

(** ** The scenario of spec section 8, and witnesses *)

Local Open Scope string_scope.

Definition demo_set : ResultSet :=
  mkResultSet "pkg" [NewResult "pkg" "1.0" "https://x/pkg-1.0.tar.gz" GoTime.zero_time].

(** An index-style provider that finds [pkg], and a feed-style provider
    that matches everything and whose upstream is unavailable. *)
Definition demo_index : Provider :=
  mkProvider "Index" (fun q => if String.eqb q "pkg" then q else "")
             (fun _ => (Ret (Some demo_set, OK), [EvHttpGet "https://x/pkg"; EvBodyClose])).
Definition demo_feed : Provider :=
  mkProvider "Feed" (fun q => q)
             (fun _ => (Ret (None, Unavailable), [EvHttpGet "https://y/feed"; EvBodyClose])).
(** A provider whose conversion panics after the request. *)
Definition demo_crash : Provider :=
  mkProvider "Broken" (fun q => q)
             (fun _ => (Panic "index out of range", [EvHttpGet "https://z/pkg"; EvBodyClose])).

Lemma demo_index_contract : ProviderContract demo_index.
Proof.
  split; simpl.
  - intros q _. reflexivity.
  - intros n ors t E. injection E as <- <-. exists demo_set. split; [reflexivity|vm_compute; lia].
  - intros n r t E. injection E as <- <-. reflexivity.
Qed.

Lemma demo_feed_contract : ProviderContract demo_feed.
Proof.
  split; simpl.
  - intros q _. reflexivity.
  - intros n ors t E. discriminate.
  - intros n r t E. injection E as <- <-. reflexivity.
Qed.

Lemma Execute_spec_witness :
  Forall ProviderContract [demo_index; demo_feed] /\
  exists t, Execute [demo_index; demo_feed] ["cuppa"; "releases"; "pkg"] = (Ret GOOD, t) /\
    filter is_check t = [EvCheck "Index"; EvCheck "Feed"] /\ printed_sets t = [demo_set].
Proof.
  assert (Hc : Forall ProviderContract [demo_index; demo_feed])
    by (constructor; [exact demo_index_contract|constructor; [exact demo_feed_contract|constructor]]).
  split; [exact Hc|].
  exact (Execute_spec [demo_index; demo_feed] "cuppa" "releases" ["pkg"] Hc eq_refl).
Defined.

Lemma registry_order_irrelevant_witness :
  true = true /\
  Permutation (printed_sets (snd (run_providers "pkg" [demo_index; demo_feed] false)))
              (printed_sets (snd (run_providers "pkg" [demo_feed; demo_index] false))).
Proof.
  apply (registry_order_irrelevant "pkg" [demo_index; demo_feed] [demo_feed; demo_index]);
    [|constructor|reflexivity|reflexivity].
  constructor; [exact demo_index_contract|constructor; [exact demo_feed_contract|constructor]].
Defined.

Lemma Execute_flag_exits_witness :
  Execute [demo_index] ["cuppa"; "releases"; "-help=1"; "pkg"] = (Ret (Exit 0), usage_text "cuppa") /\
  exists msg, Execute [demo_index] ["cuppa"; "releases"; "-x"; "pkg"] =
                (Ret (Exit 2), EvStderr msg :: usage_text "cuppa").
Proof.
  split.
  - exact (Execute_flag_exits [demo_index] "cuppa" "releases" "-help=1" ["pkg"] eq_refl ltac:(discriminate)).
  - exact (Execute_flag_exits [demo_index] "cuppa" "releases" "-x" ["pkg"] eq_refl ltac:(discriminate)).
Defined.

Lemma loop_invariant_witness :
  loop_inv [demo_index; demo_crash; demo_feed]
    (Crashed "index out of range" (snd (run_providers "pkg" [demo_index; demo_crash; demo_feed] false))).
Proof.
  apply (loop_invariant "pkg").
  - repeat apply Forall_cons; try apply Forall_nil;
      intros n r t E; simpl in E; injection E as <- <-; reflexivity.
  - exact (run_providers_star "pkg" [demo_index; demo_crash; demo_feed] false []).
Defined.

End Cmd.
