(* ===== verification/SourceForge.v ===== *)
(** * The SourceForge adapter ([src/providers/sourceforge/provider.go])

    [TarballRegex] and [ProjectRegex] are the source's two expressions
    transcribed into the AST of [Regex], group numbers as Go assigns
    them.  [toResults] keeps the feed items whose link matches
    [TarballRegex], with the version its fourth group captured.  [Match]
    tries the strict expression, then the loose one, and returns the
    whole match.  [Releases] runs in the Go effect: it splits the name
    with the same expressions (swapping groups 1 and 3 after the loose
    one, as the source does), requests the feed, classifies the HTTP
    status, decodes the body and converts it; the body is closed by a
    [defer] on every path after a response.  The transport and the XML
    decoder are the section's parameters.  The theorems cover every
    path of [Releases], [Match] against the languages of the two
    expressions, the group swap and the ["C"] appended to feed dates for
    every input of their shape, and the adapter under [Cmd.Execute]: it
    meets the orchestrator's contract for any transport and decoder. *)

From Stdlib Require Import String Ascii List Bool ZArith Arith Lia.
From S2P Require Import Prelude GoTime Regex RegexSpec Results Provider Flags Cmd.
Import ListNotations.
Local Open Scope go_scope.

Module SourceForge.
Import Regex RegexSpec Results Provider.

(** [API = "https://sourceforge.net/projects/%s/rss?path=/%s"]. *)
Definition API (project path : string) : string :=
  ("https://sourceforge.net/projects/" ++ project ++ "/rss?path=/" ++ path)%string.

(** [TarballRegex], from the source string (a space is inserted
    after the star that precedes a closing parenthesis)
    "https?://.*sourceforge.net/projects?/(.+)/files/(.+/)?(.+?)-([\d]+(?:.\d+)*\w*?)\.(?:zip|tar\..+z.* )(?:\/download)?$" *)
Definition TarballRegex : regex :=
  rseq [lits "http"; ropt (lits "s"); lits "://"; RStar true rdot; lits "sourceforge"; rdot;
        lits "net/project"; ropt (lits "s"); lits "/";
        RGroup 1 (rplus true rdot);
        lits "/files/";
        ropt (RGroup 2 (RCat (rplus true rdot) (lits "/")));
        RGroup 3 (rplus false rdot);
        lits "-";
        RGroup 4 (rseq [rplus true (RClass CDigit);
                        RStar true (RCat rdot (rplus true (RClass CDigit)));
                        RStar false (RClass CWord)]);
        lits ".";
        RAlt (lits "zip") (rseq [lits "tar."; rplus true rdot; lits "z"; RStar true rdot]);
        ropt (lits "/download");
        REnd]%string.

(** [ProjectRegex], from the source string
    "https?://.*sourceforge.net/projects?/(.+)/(?:files/)?(.+?/)?(.+?)-([\d]+(?:.\d+)*\w*?).+$" *)
Definition ProjectRegex : regex :=
  rseq [lits "http"; ropt (lits "s"); lits "://"; RStar true rdot; lits "sourceforge"; rdot;
        lits "net/project"; ropt (lits "s"); lits "/";
        RGroup 1 (rplus true rdot);
        lits "/";
        ropt (lits "files/");
        ropt (RGroup 2 (RCat (rplus false rdot) (lits "/")));
        RGroup 3 (rplus false rdot);
        lits "-";
        RGroup 4 (rseq [rplus true (RClass CDigit);
                        RStar true (RCat rdot (rplus true (RClass CDigit)));
                        RStar false (RClass CWord)]);
        rplus true rdot;
        REnd]%string.

(** [type Item struct { Link string; Date string }] (RSS [link], [pubDate]). *)
Record Item : Type := mkItem { Link : string; Date : string }.

(** [type Feed struct { Items []Item }] ([channel>item]). *)
Record Feed : Type := mkFeed { Items : list Item }.

(** [pub, _ := time.Parse(time.RFC1123, item.Date+"C")]. *)
Definition pubDate (item : Item) : GoTime.Time :=
  GoTime.parse_or_zero GoTime.RFC1123 (Date item ++ "C").

(** One iteration of the loop of [toResults]. *)
Definition toResults_item (name : string) (rs : ResultSet) (item : Item) : ResultSet :=
  let sm := FindStringSubmatch TarballRegex (Link item) in
  if negb (length sm =? 5) then rs
  else
    let pub := pubDate item in
    let r := NewResult name (nth 4 sm ""%string) (Link item) pub in
    AddResult r rs.

(** [(f *Feed) toResults(name string) *results.ResultSet]. *)
Definition toResults (f : Feed) (name : string) : ResultSet :=
  fold_left (toResults_item name) (Items f) (NewResultSet name).

(** [(c Provider) Match(query string) string]. *)
Definition Match (query : string) : string :=
  let sm := FindStringSubmatch TarballRegex query in
  if negb (length sm =? 5) then
    let sm := FindStringSubmatch ProjectRegex query in
    if negb (length sm =? 5) then ""%string
    else nth 0 sm ""%string
  else nth 0 sm ""%string.

(** [(c Provider) Name() string]. *)
Definition Name : string := "SourceForge".

(** The [switch resp.StatusCode] of [Releases]. *)
Definition status_of_code (code : Z) : Status :=
  if (code =? 200)%Z then OK
  else if (code =? 404)%Z then NotFound
  else Unavailable.

Lemma status_of_code_OK code : status_of_code code = OK <-> code = 200%Z.
Proof.
  unfold status_of_code. destruct (Z.eqb_spec code 200); [tauto|].
  destruct (code =? 404)%Z; split; congruence.
Qed.

Lemma status_of_code_non200 code :
  code <> 200%Z -> status_of_code code = if (code =? 404)%Z then NotFound else Unavailable.
Proof. intros H. unfold status_of_code. rewrite (proj2 (Z.eqb_neq _ _) H). reflexivity. Qed.

(** The first lines of [Releases]: the submatches used to build the
    request; after the loose expression groups 1 and 3 are swapped
    ([sm[1], sm[3] = sm[3], sm[1]]), which panics when it did not match
    either. *)
Definition split_name (name : string) : Go Event (list string) :=
  let sm := FindStringSubmatch TarballRegex name in
  if negb (length sm =? 5) then
    let sm := FindStringSubmatch ProjectRegex name in
    let! s3 := go_index sm 3 in
    let! s1 := go_index sm 1 in
    go_ret (list_set (list_set sm 1 s3) 3 s1)
  else go_ret sm.

(** ** The two expressions *)

Lemma TarballRegex_shape : anchored_end TarballRegex = true /\ num_groups TarballRegex = 4.
Proof. split; reflexivity. Qed.

Lemma ProjectRegex_shape : anchored_end ProjectRegex = true /\ num_groups ProjectRegex = 4.
Proof. split; reflexivity. Qed.

(** A four-group expression yields Go's [nil] or exactly five strings. *)
Lemma FSS_nil_or_5 r s :
  num_groups r = 4 -> FindStringSubmatch r s = [] \/
  (FindStringSubmatch r s <> [] /\ length (FindStringSubmatch r s) = 5).
Proof.
  intros Hg. destruct (FindStringSubmatch_length r s) as [H|H]; [left; exact H|right].
  rewrite Hg in H. split; [intros E; rewrite E in H; discriminate|exact H].
Qed.

(** What [Match] saw: either the strict expression matched, or only the
    loose one did; in both cases the returned string is the whole match
    and re-running the expressions on it reproduces what they gave. *)
Lemma Match_cases q :
  Match q <> ""%string ->
  (exists sm, FindStringSubmatch TarballRegex q = sm /\ length sm = 5 /\
     Match q = nth 0 sm ""%string /\ FindStringSubmatch TarballRegex (Match q) = sm) \/
  (FindStringSubmatch TarballRegex q = [] /\
   exists sm, FindStringSubmatch ProjectRegex q = sm /\ length sm = 5 /\
     Match q = nth 0 sm ""%string /\ FindStringSubmatch TarballRegex (Match q) = [] /\
     FindStringSubmatch ProjectRegex (Match q) = sm).
Proof.
  destruct TarballRegex_shape as [HaT HgT]. destruct ProjectRegex_shape as [HaP HgP].
  unfold Match.
  destruct (FSS_nil_or_5 TarballRegex q HgT) as [HT|[HT HT5]].
  - replace (length (FindStringSubmatch TarballRegex q)) with 0 by (rewrite HT; reflexivity).
    simpl.
    destruct (FSS_nil_or_5 ProjectRegex q HgP) as [HP|[HP HP5]];
      [rewrite HP; simpl; congruence|].
    rewrite HP5. simpl. intros _. right. split; [exact HT|].
    eexists; split; [reflexivity|]. split; [exact HP5|]. split; [reflexivity|]. split.
    + apply (FindStringSubmatch_nil_suffix _ q _ HT).
      apply (FindStringSubmatch_match_suffix ProjectRegex q _ HaP eq_refl HP).
    + apply (FindStringSubmatch_rematch _ q); auto.
  - rewrite HT5. simpl. intros _. left.
    eexists; split; [reflexivity|]. split; [exact HT5|]. split; [reflexivity|].
    apply (FindStringSubmatch_rematch _ q); auto.
Qed.

(** Both expressions start with the literal [h]: their languages hold no
    empty string. *)
Lemma matches_lead_class cl r1 r2 t s' : matches (RCat (RCat (RClass cl) r1) r2) t s' -> t <> [].
Proof.
  intros H. inversion H as [| | ? ? ? s1 ? H1 _ | | | | | |]; subst.
  inversion H1 as [| | ? ? ? ? ? H2 _ | | | | | |]; subst. inversion H2. discriminate.
Qed.

Lemma FSS_head_nonempty r q m rest :
  anchored_end r = true -> (forall t, lang r t -> t <> []) ->
  FindStringSubmatch r q = m :: rest -> m <> ""%string.
Proof.
  intros Ha Hne H ->. destruct (FindStringSubmatch_lang r q Ha) as [_ H2].
  destruct (H2 _ _ H) as [_ Hl]. exact (Hne _ Hl eq_refl).
Qed.

Lemma Tarball_nonempty t : lang TarballRegex t -> t <> [].
Proof. apply matches_lead_class. Qed.

Lemma Project_nonempty t : lang ProjectRegex t -> t <> [].
Proof. apply matches_lead_class. Qed.

(** [Match] answers [""] exactly when neither expression matches. *)
Lemma Match_nil_iff q :
  Match q = ""%string <-> FindStringSubmatch TarballRegex q = [] /\ FindStringSubmatch ProjectRegex q = [].
Proof.
  destruct TarballRegex_shape as [HaT HgT]. destruct ProjectRegex_shape as [HaP HgP].
  split.
  - intros H. destruct (FSS_nil_or_5 TarballRegex q HgT) as [HT|[HT HT5]].
    + split; [exact HT|]. destruct (FSS_nil_or_5 ProjectRegex q HgP) as [HP|[HP HP5]]; [exact HP|].
      exfalso. unfold Match in H. rewrite HT in H. cbv zeta in H. rewrite HP5 in H. simpl in H.
      destruct (FindStringSubmatch ProjectRegex q) as [|m rest] eqn:E; [contradiction|].
      exact (FSS_head_nonempty _ _ _ _ HaP Project_nonempty E H).
    + exfalso. unfold Match in H. rewrite HT5 in H. simpl in H.
      destruct (FindStringSubmatch TarballRegex q) as [|m rest] eqn:E; [contradiction|].
      exact (FSS_head_nonempty _ _ _ _ HaT Tarball_nonempty E H).
  - intros [HT HP]. unfold Match. rewrite HT, HP. reflexivity.
Qed.

Lemma go_index_in {E A} (l : list A) i d :
  i < length l -> go_index (E := E) l i = go_ret (nth i l d).
Proof.
  intros H. unfold go_index. destruct (nth_error l i) eqn:Hn.
  - rewrite (nth_error_nth _ _ d Hn). reflexivity.
  - apply nth_error_None in Hn. lia.
Qed.

Lemma length_list_set {A} (l : list A) i x : length (list_set l i x) = length l.
Proof. revert i; induction l as [|y l IH]; intros [|i]; simpl; auto. Qed.

(** [split_name] succeeds on what [Match] returned, without output, with
    five submatches. *)
Lemma split_name_Match q :
  Match q <> ""%string ->
  exists sm, split_name (Match q) = (Ret sm, []) /\ length sm = 5.
Proof.
  intros Hq. unfold split_name.
  destruct (Match_cases q Hq) as [(sm & _ & H5 & _ & HT)|(_ & sm & _ & H5 & _ & HT & HP)].
  - rewrite HT, H5. simpl. exists sm. split; [reflexivity|exact H5].
  - rewrite HT, HP. simpl. rewrite (go_index_in sm 3 ""%string), (go_index_in sm 1 ""%string) by lia.
    simpl. eexists; split; [reflexivity|]. rewrite !length_list_set. exact H5.
Qed.

Lemma split_name_Ret n sm t :
  split_name n = (Ret sm, t) -> length sm = 5 /\ t = [].
Proof.
  destruct ProjectRegex_shape as [_ HgP]. destruct TarballRegex_shape as [_ HgT].
  unfold split_name. destruct (length (FindStringSubmatch TarballRegex n) =? 5) eqn:E; simpl.
  - intros H; inversion H; subst. split; [apply Nat.eqb_eq, E|reflexivity].
  - destruct (FSS_nil_or_5 ProjectRegex n HgP) as [HP|[_ HP5]].
    + rewrite HP. discriminate.
    + rewrite (go_index_in _ 3 ""%string), (go_index_in _ 1 ""%string) by lia. simpl.
      intros H; inversion H; subst. rewrite !length_list_set. auto.
Qed.

Lemma split_name_cases n :
  (exists sm, split_name n = (Ret sm, []) /\ length sm = 5) \/
  split_name n = (Panic "index out of range", []).
Proof.
  destruct ProjectRegex_shape as [_ HgP].
  destruct (split_name n) as [[sm|msg] t] eqn:E.
  - left. destruct (split_name_Ret _ _ _ E) as [H5 ->]. eauto.
  - right. revert E. unfold split_name.
    destruct (length (FindStringSubmatch TarballRegex n) =? 5); simpl; [discriminate|].
    destruct (FSS_nil_or_5 ProjectRegex n HgP) as [HP|[_ HP5]].
    + rewrite HP. simpl. intros H; inversion H; reflexivity.
    + rewrite (go_index_in _ 3 ""%string), (go_index_in _ 1 ""%string) by lia. discriminate.
Qed.

(** ** [toResults] *)

Lemma toResults_query f name : query (toResults f name) = name.
Proof.
  unfold toResults. apply fold_left_invariant with (I := fun rs => query rs = name); [reflexivity|].
  intros rs item _ H. unfold toResults_item. destruct (negb _); [exact H|exact H].
Qed.

Lemma toResults_wf f name : rs_wf (toResults f name).
Proof.
  unfold toResults. apply fold_left_invariant; [constructor|].
  intros rs item _ H. unfold toResults_item. destruct (negb _); auto with cuppa.
Qed.

(** What a converted result is made of: an item of the feed whose link
    matches [TarballRegex], its fourth group as version. *)
Definition from_item (f : Feed) (name : string) (r : Result) : Prop :=
  exists item, In item (Items f) /\
    let sm := FindStringSubmatch TarballRegex (Link item) in
    length sm = 5 /\
    r = NewResult name (nth 4 sm ""%string) (Link item)
          (pubDate item).

Lemma toResults_In f name r :
  In r (results (toResults f name)) -> from_item f name r.
Proof.
  revert r. unfold toResults.
  apply fold_left_invariant with (I := fun rs => forall r, In r (results rs) -> from_item f name r);
    [intros r []|].
  intros rs item Hitem H r Hr. unfold toResults_item in Hr.
  destruct (length (FindStringSubmatch TarballRegex (Link item)) =? 5) eqn:E; simpl in Hr; [|auto].
  apply In_AddResult in Hr as [->|Hr]; [|auto].
  exists item. split; [exact Hitem|]. split; [apply Nat.eqb_eq, E|reflexivity].
Qed.

(** Items whose link [TarballRegex] rejects leave the set unchanged. *)
Lemma toResults_item_skip name rs item :
  FindStringSubmatch TarballRegex (Link item) = [] -> toResults_item name rs item = rs.
Proof. intros H. unfold toResults_item. rewrite H. reflexivity. Qed.

(** The results the items of a feed yield, in feed order. *)
Definition feed_results (name : string) (f : Feed) : list Result :=
  flat_map (fun item =>
    let sm := FindStringSubmatch TarballRegex (Link item) in
    if negb (length sm =? 5) then []
    else [NewResult name (nth 4 sm ""%string) (Link item)
            (pubDate item)]) (Items f).

Lemma toResults_add_all f name : toResults f name = add_all (NewResultSet name) (feed_results name f).
Proof.
  unfold toResults, feed_results, add_all. generalize (NewResultSet name).
  induction (Items f) as [|item l IH]; intros rs; simpl; [reflexivity|].
  rewrite fold_left_app. unfold toResults_item.
  destruct (negb _); simpl; apply IH.
Qed.

(** C17. Spec section 3: a converted feed holds at most one result per
    (Name, Version), and for a version listed by several items (a [.zip]
    and a [.tar.gz] of one release) the one converted last wins. *)
Theorem toResults_last_wins f name v :
  rs_wf (toResults f name) /\
  rs_lookup (name, v) (toResults f name) =
    find (fun r => key_eqb (result_key r) (name, v)) (rev (feed_results name f)).
Proof.
  rewrite toResults_add_all. destruct (ResultSet_last_wins name (feed_results name f) (name, v)) as [H1 H2].
  split; assumption.
Qed.

(** The request [Releases] issues for the submatches [sm]. *)

(** C21. The positive side of the ["C"] suffix: an item whose [pubDate]
    is an RFC1123 date in [UT], for any valid calendar time of a
    four-digit year and any weekday name, is stored with exactly that
    time, in UTC and without a fraction of a second: the appended ["C"]
    turns [UT] into the [UTC] that [time.Parse] accepts. *)
Theorem toResults_item_UT_roundtrip name rs link wd t :
  In wd GoTime.shortDayNames -> GoTime.date_ok t ->
  length (FindStringSubmatch TarballRegex link) = 5 ->
  toResults_item name rs (mkItem link (string_of_list_ascii (GoTime.rfc1123_UT wd t))) =
  AddResult (NewResult name (nth 4 (FindStringSubmatch TarballRegex link) ""%string) link
               (GoTime.mkTime (GoTime.year t) (GoTime.month t) (GoTime.day t) (GoTime.hour t)
                  (GoTime.minute t) (GoTime.second t) 0 "UTC")) rs.
Proof.
  intros Hwd Ht H5. unfold toResults_item, pubDate. cbn [Link Date]. rewrite H5. cbn [Nat.eqb negb].
  unfold GoTime.parse_or_zero. rewrite GoTime.parse_rfc1123_UT by assumption. reflexivity.
Qed.

(** C10. The negative side of the ["C"] suffix, as Go's parser runs:
    an item whose [pubDate] text ends in a digit (a numeric zone such as
    the [-0700] of the example of spec section 8, or no zone at all) is
    stored with the zero time, for every date of that shape.  With ["C"]
    appended, no suffix of such a text is a zone [time.Parse] reads to
    its end: a numeric offset stops before the ["C"], an abbreviation
    stops at the digit.  Spec section 8 expects the example to round-trip. *)
Theorem pubdate_suffix_quirk name rs link date pre d :
  length (FindStringSubmatch TarballRegex link) = 5 ->
  list_ascii_of_string date = pre ++ [d] -> GoTime.is_digit d = true ->
  toResults_item name rs (mkItem link date) =
  AddResult (NewResult name (nth 4 (FindStringSubmatch TarballRegex link) ""%string) link
               GoTime.zero_time) rs.
Proof.
  intros H5 Hdate Hd. unfold toResults_item, pubDate. cbn [Link Date]. rewrite H5. cbn [Nat.eqb negb].
  unfold GoTime.parse_or_zero.
  rewrite <- (string_of_list_ascii_of_string date), Hdate, GoTime.parse_RFC1123_digit_C by exact Hd.
  reflexivity.
Qed.

Definition feed_url (sm : list string) : string :=
  API (nth 1 sm ""%string) (nth 2 sm ""%string).

Section WithTransport.
Context {T : Transport}.
Variable xml_decode : string -> string + Feed.

(** [(c Provider) Releases(name string) ( *ResultSet, Status)]. *)
Definition Releases (name : string) : Go Event (option ResultSet * Status) :=
  let! sm := split_name name in
  let! project := go_index sm 1 in
  let! path := go_index sm 2 in
  let url := API project path in
  let! _ := go_emit (EvHttpGet url) in
  match http_get url with
  | inl err =>
      let! _ := go_emit (EvStderr err) in
      go_ret (None, Unavailable)
  | inr resp =>
      go_defer EvBodyClose (
        let s := status_of_code (StatusCode resp) in
        if negb (Status_eqb s OK) then go_ret (None, s)
        else
          match xml_decode (Body resp) with
          | inl err =>
              let! _ := go_emit (EvStderr err) in
              go_ret (None, Unavailable)
          | inr feed =>
              let! pname := go_index sm 3 in
              let rs := toResults feed pname in
              if Len rs =? 0 then go_ret (Some rs, NotFound)
              else go_ret (Some rs, s)
          end)
  end.

(** Every outcome of [Releases], by the branch of the source it takes. *)
Lemma Releases_cases n :
  (split_name n = (Panic "index out of range", []) /\
   Releases n = (Panic "index out of range", [])) \/
  exists sm, split_name n = (Ret sm, []) /\ length sm = 5 /\
  let url := feed_url sm in
  ((exists err, http_get url = inl err /\
      Releases n = (Ret (None, Unavailable), [EvHttpGet url; EvStderr err])) \/
   (exists resp, http_get url = inr resp /\ StatusCode resp <> 200%Z /\
      Releases n = (Ret (None, status_of_code (StatusCode resp)), [EvHttpGet url; EvBodyClose])) \/
   (exists resp err, http_get url = inr resp /\ StatusCode resp = 200%Z /\
      xml_decode (Body resp) = inl err /\
      Releases n = (Ret (None, Unavailable), [EvHttpGet url; EvStderr err; EvBodyClose])) \/
   (exists resp feed, http_get url = inr resp /\ StatusCode resp = 200%Z /\
      xml_decode (Body resp) = inr feed /\
      let rs := toResults feed (nth 3 sm ""%string) in
      Releases n = (Ret (Some rs, if Len rs =? 0 then NotFound else OK),
                    [EvHttpGet url; EvBodyClose]))).
Proof.
  destruct (split_name_cases n) as [(sm & Hs & H5)|Hs].
  2:{ left. split; [exact Hs|]. unfold Releases. rewrite Hs. reflexivity. }
  right. exists sm. split; [exact Hs|]. split; [exact H5|]. cbv zeta.
  unfold Releases. rewrite Hs. simpl.
  rewrite (go_index_in sm 1 ""%string), (go_index_in sm 2 ""%string) by lia. simpl.
  fold (feed_url sm).
  destruct (http_get (feed_url sm)) as [err|resp] eqn:Hget.
  - left. exists err. split; reflexivity.
  - right. destruct (Z.eqb_spec (StatusCode resp) 200) as [H200|H200].
    + right. rewrite H200. simpl.
      destruct (xml_decode (Body resp)) as [err|feed] eqn:Hdec.
      * left. exists resp, err. repeat split; auto.
      * right. exists resp, feed. repeat split; auto.
        rewrite (go_index_in sm 3 ""%string) by lia. simpl.
        destruct (Len _ =? 0); reflexivity.
    + left. exists resp. repeat split; auto.
      pose proof (status_of_code_OK (StatusCode resp)) as Hok.
      destruct (status_of_code (StatusCode resp)); [tauto|reflexivity|reflexivity].
Qed.

(** C1. The contract of spec section 8: when [Match] accepts a query, the
    canonical name it returns never makes [Releases] panic, whatever the
    transport and the decoder do. *)
Theorem Releases_Match_no_panic q :
  Match q <> ""%string -> is_panic (Releases (Match q)) = false.
Proof.
  intros Hq. destruct (split_name_Match q Hq) as (sm & Hs & _).
  destruct (Releases_cases (Match q)) as [[Hp _]|(sm' & _ & _ & H)]; [congruence|].
  destruct H as [(? & _ & ->)|[(? & _ & _ & ->)|[(? & ? & _ & _ & _ & ->)|(? & ? & _ & _ & _ & ->)]]];
    reflexivity.
Qed.

(** C5. A name that neither expression matches is a contract violation
    that fails loudly: [Releases] panics before any request. *)
Theorem Releases_unmatched_panics n :
  FindStringSubmatch TarballRegex n = [] -> FindStringSubmatch ProjectRegex n = [] ->
  Releases n = (Panic "index out of range", []).
Proof.
  intros HT HP. destruct (Releases_cases n) as [[_ H]|(sm & Hs & _)]; [exact H|].
  unfold split_name in Hs. rewrite HT, HP in Hs. discriminate.
Qed.

(** C3. Resources: the response body is closed exactly once, last, on
    every path that obtained a response, and never when the request
    failed or never happened. *)
Theorem Releases_closes_body n :
  let t := snd (Releases n) in
  t = [] \/
  (exists url err, http_get url = inl err /\ t = [EvHttpGet url; EvStderr err]) \/
  (exists url resp mid, http_get url = inr resp /\
     t = EvHttpGet url :: mid ++ [EvBodyClose] /\ ~ In EvBodyClose mid).
Proof.
  cbv zeta. destruct (Releases_cases n) as [[_ ->]|(sm & _ & _ & H)]; [left; reflexivity|right].
  destruct H as [(err & Hg & ->)|[(resp & Hg & _ & ->)|[(resp & err & Hg & _ & _ & ->)|(resp & feed & Hg & _ & _ & ->)]]].
  - left. eauto.
  - right. exists (feed_url sm), resp, []. repeat split; auto.
  - right. exists (feed_url sm), resp, [EvStderr err]. repeat split; auto.
    intros [H|[]]; discriminate.
  - right. exists (feed_url sm), resp, []. repeat split; auto.
Qed.

(** C4. Status classification (spec 4.2 step 2): a response other than
    200 gives [NotFound] for 404 and [Unavailable] otherwise, with a
    [nil] set, after closing the body. *)
Theorem Releases_http_status n sm resp :
  split_name n = (Ret sm, []) -> http_get (feed_url sm) = inr resp ->
  StatusCode resp <> 200%Z ->
  Releases n = (Ret (None, if (StatusCode resp =? 404)%Z then NotFound else Unavailable),
                [EvHttpGet (feed_url sm); EvBodyClose]).
Proof.
  intros Hs Hg H200.
  destruct (Releases_cases n) as [[Hp _]|(sm' & Hs' & _ & H)]; [congruence|].
  rewrite Hs in Hs'. injection Hs' as <-.
  destruct H as [(err & Hg' & _)|[(resp' & Hg' & _ & ->)|[(resp' & ? & Hg' & H' & _)|(resp' & ? & Hg' & H' & _)]]];
    rewrite Hg in Hg'; try discriminate; injection Hg' as <-; try contradiction.
  rewrite status_of_code_non200 by exact H200. reflexivity.
Qed.

(** C2. [OK] comes with a non-empty, duplicate-free set whose results
    all carry the set's name and the version [TarballRegex] captures in
    their location. *)
Theorem Releases_OK n ors t :
  Releases n = (Ret (ors, OK), t) ->
  exists rs, ors = Some rs /\ Len rs > 0 /\ rs_wf rs /\
    forall r, In r (results rs) ->
      Results.Name r = query rs /\
      exists sm, FindStringSubmatch TarballRegex (Location r) = sm /\ length sm = 5 /\
                 Version r = nth 4 sm ""%string.
Proof.
  destruct (Releases_cases n) as [[_ ->]|(sm & _ & _ & H)]; [discriminate|].
  destruct H as [(? & _ & ->)|[(resp & _ & H200 & ->)|[(? & ? & _ & _ & _ & ->)|(resp & feed & _ & _ & _ & ->)]]];
    intros E; try discriminate.
  - injection E as _ E. apply status_of_code_OK in E. contradiction.
  - injection E as <- E. exists (toResults feed (nth 3 sm ""%string)).
    destruct (Len _ =? 0) eqn:Hlen; [discriminate|].
    split; [reflexivity|]. split; [apply Nat.eqb_neq in Hlen; lia|].
    split; [apply toResults_wf|]. intros r Hr.
    destruct (toResults_In _ _ _ Hr) as (item & _ & H5 & ->).
    rewrite toResults_query. split; [reflexivity|]. eauto.
Qed.

(** C6. Spec 4.2 step 4: a feed that decodes but has no item whose link
    [TarballRegex] accepts is reported [NotFound], with the empty set. *)
Theorem Releases_empty_feed_NotFound n sm resp feed :
  split_name n = (Ret sm, []) -> http_get (feed_url sm) = inr resp ->
  StatusCode resp = 200%Z -> xml_decode (Body resp) = inr feed ->
  Forall (fun item => FindStringSubmatch TarballRegex (Link item) = []) (Items feed) ->
  fst (Releases n) = Ret (Some (NewResultSet (nth 3 sm ""%string)), NotFound).
Proof.
  intros Hs Hg H200 Hd Hitems.
  assert (Hrs : toResults feed (nth 3 sm ""%string) = NewResultSet (nth 3 sm ""%string)).
  { unfold toResults. induction (Items feed) as [|item l IH]; [reflexivity|].
    inversion Hitems; subst. simpl. rewrite toResults_item_skip by assumption. auto. }
  destruct (Releases_cases n) as [[Hp _]|(sm' & Hs' & _ & H)]; [congruence|].
  rewrite Hs in Hs'. injection Hs' as <-.
  destruct H as [(err & Hg' & _)|[(resp' & Hg' & H' & _)|[(resp' & ? & Hg' & _ & H' & _)|(resp' & feed' & Hg' & _ & H' & ->)]]];
    rewrite Hg in Hg'; try discriminate; injection Hg' as <-; try congruence.
  rewrite Hd in H'. injection H' as <-. rewrite Hrs. reflexivity.
Qed.

(** [(c Provider) Latest(name string) ( *Result, Status)]. *)
Definition Latest (name : string) : Go Event (option Result * Status) :=
  Latest_of Releases name.

Definition provider : Provider := mkProvider Name Match Releases.
(** The provider record of the adapter meets the contract the
    orchestrator relies on. *)
Lemma sourceforge_contract : ProviderContract (provider).
Proof.
  split; simpl.
  - intros q Hq. destruct (split_name_Match q Hq) as (sm & Hs & _).
    destruct (Releases_cases (Match q)) as [[Hp _]|(sm' & _ & _ & H)]; [congruence|].
    destruct H as [(? & _ & ->)|[(? & _ & _ & ->)|[(? & ? & _ & _ & _ & ->)|(? & ? & _ & _ & _ & ->)]]];
      reflexivity.
  - intros n ors t. destruct (Releases_cases n) as [[_ ->]|(sm & _ & _ & H)]; [discriminate|].
    destruct H as [(? & _ & ->)|[(resp & _ & H200 & ->)|[(? & ? & _ & _ & _ & ->)|(resp & feed & _ & _ & _ & ->)]]];
      intros E; try discriminate.
    + injection E as _ E. apply status_of_code_OK in E. contradiction.
    + injection E as <- E. destruct (Len _ =? 0) eqn:Hlen; [discriminate|].
      apply Nat.eqb_neq in Hlen. eexists; split; [reflexivity|lia].
  - intros n r t. destruct (Releases_cases n) as [[_ ->]|(sm & _ & _ & H)];
      [intros E; injection E as _ <-; reflexivity|].
    destruct H as [(? & _ & ->)|[(? & _ & _ & ->)|[(? & ? & _ & _ & _ & ->)|(? & ? & _ & _ & _ & ->)]]];
      intros E; injection E as _ <-; reflexivity.
Qed.

(** C18. [Latest] (lines 71-79): when [Releases] reports [OK] with a
    set, [Latest] reports [OK] with the set's first result, which exists;
    it never pairs [OK] with a [nil] result. *)
Theorem Latest_first n rs t :
  Releases n = (Ret (Some rs, OK), t) ->
  exists r, Latest n = (Ret (Some r, OK), t) /\ First rs = Some r.
Proof.
  intros H. destruct (releases_ok_nonempty provider sourceforge_contract n _ _ H) as (rs' & E & Hlen).
  injection E as <-. unfold Latest, Latest_of. rewrite H. simpl.
  unfold First, Len in *. destruct (results rs) as [|r l]; simpl in *; [lia|].
  exists r. rewrite app_nil_r. split; reflexivity.
Qed.

(** C9. The capture swap after the loose expression, for every name
    that only [ProjectRegex] matches.  [ProjectRegex] numbers its groups
    like [TarballRegex] (project, sub-path, artifact, version), so
    swapping groups 1 and 3 makes [Releases] request the feed of the
    project named by the artifact group, under the sub-path group, and
    name the result set after the project group: the request and the
    labels are exchanged (spec section 4.2 calls the swap a correction of
    a different capture order, which the expression does not have). *)
Theorem project_fallback_swaps_names n m g1 g2 g3 g4 :
  FindStringSubmatch TarballRegex n = [] ->
  FindStringSubmatch ProjectRegex n = [m; g1; g2; g3; g4] ->
  split_name n = (Ret [m; g3; g2; g1; g4], []) /\
  (exists t, snd (Releases n) = EvHttpGet (API g3 g2) :: t) /\
  (forall rs s, fst (Releases n) = Ret (Some rs, s) -> query rs = g1).
Proof.
  intros HT HP.
  assert (Hs : split_name n = (Ret [m; g3; g2; g1; g4], [])).
  { unfold split_name. rewrite HT. cbn [length Nat.eqb negb]. rewrite HP. reflexivity. }
  split; [exact Hs|].
  destruct (Releases_cases n) as [[Hp _]|(sm & Hs' & _ & Hc)]; [congruence|].
  rewrite Hs in Hs'. injection Hs' as <-. cbv zeta in Hc. unfold feed_url in Hc. cbn [nth] in Hc.
  destruct Hc as [(err & _ & ->)|[(resp & _ & _ & ->)|[(resp & err & _ & _ & _ & ->)|(resp & f & _ & _ & _ & ->)]]];
    cbn [fst snd]; (split; [eexists; reflexivity|]); intros rs s' E; inversion E; apply toResults_query.
Qed.

End WithTransport.

Local Open Scope string_scope.

(** C7. [Match] is idempotent: the canonical name it returns is accepted
    again and maps to itself. *)
Theorem Match_idempotent q :
  Match q <> ""%string -> Match (Match q) = Match q.
Proof.
  intros Hq. destruct (Match_cases q Hq) as [(sm & _ & H5 & Hm & HT)|(_ & sm & _ & H5 & Hm & HT & HP)].
  - unfold Match at 1. rewrite HT, H5. simpl. symmetry. exact Hm.
  - unfold Match at 1. rewrite HT, HP, H5. simpl. symmetry. exact Hm.
Qed.

(** C20. [Match] refines the languages of the two expressions: it
    answers [""] exactly when no suffix of the query is in the language of
    [TarballRegex] or of [ProjectRegex], and otherwise it returns a suffix
    of the query that is in the language of one of them.  The matcher's
    search order decides which suffix; the languages decide whether there
    is one. *)
Theorem Match_language q :
  (Match q = "" <-> forall t, suffix_of t (list_ascii_of_string q) ->
                     ~ lang TarballRegex t /\ ~ lang ProjectRegex t) /\
  (Match q <> "" -> suffix_of (list_ascii_of_string (Match q)) (list_ascii_of_string q) /\
     (lang TarballRegex (list_ascii_of_string (Match q)) \/
      lang ProjectRegex (list_ascii_of_string (Match q)))).
Proof.
  destruct (FindStringSubmatch_lang TarballRegex q (proj1 TarballRegex_shape)) as [HT1 HT2].
  destruct (FindStringSubmatch_lang ProjectRegex q (proj1 ProjectRegex_shape)) as [HP1 HP2].
  split.
  - rewrite Match_nil_iff, HT1, HP1. firstorder.
  - intros Hq. destruct (Match_cases q Hq) as [(sm & E & H5 & Hm & _)|(_ & sm & E & H5 & Hm & _)];
      (destruct sm as [|m rest]; [discriminate|]); simpl in Hm; rewrite Hm.
    + destruct (HT2 m rest E). auto.
    + destruct (HP2 m rest E). auto.
Qed.

(** C8. [Match] on a well-formed tarball link, for every link in the
    language of the strict expression: it returns the whole link (spec
    section 8: the full matched string), and [Releases] splits it with
    the strict expression's submatches, without the loose fallback and
    its swap.  The search starts at the first position because the link
    itself is a match there, and ends at the end of the link because the
    expression is anchored by [$]. *)
Theorem Match_tarball_whole q :
  lang TarballRegex (list_ascii_of_string q) ->
  Match q = q /\ split_name q = (Ret (FindStringSubmatch TarballRegex q), []).
Proof.
  intros Hl. destruct (FindStringSubmatch_whole _ q (proj1 TarballRegex_shape) Hl) as (gs & E).
  destruct (FSS_nil_or_5 TarballRegex q (proj2 TarballRegex_shape)) as [H|[_ H5]];
    [rewrite E in H; discriminate|].
  unfold Match, split_name. cbv zeta. rewrite H5. cbn [Nat.eqb negb]. rewrite E. split; reflexivity.
Qed.

(** ** Witnesses *)

(** A transport that always answers [code] with an empty body, and one
    that is offline. *)
Definition answer_with (code : Z) : Transport := fun _ => inr (mkResponse code "").
Definition offline : Transport := fun _ => inl "connection refused"%string.

(** A decoder that returns one fixed feed. *)
Definition decode_to (f : Feed) : string -> string + Feed := fun _ => inr f.

Definition spec_link : string :=
  "https://sourceforge.net/projects/foo/files/bar-1.2.3.tar.gz/download".

Definition spec_feed : Feed :=
  mkFeed [mkItem spec_link "Mon, 02 Jan 2006 15:04:05 UT";
          mkItem "https://sourceforge.net/projects/foo/files/README" "Sun, 01 Jan 2006 10:00:00 UT"].

Lemma Releases_Match_no_panic_witness :
  Match spec_link <> ""%string /\
  is_panic (@Releases offline (decode_to spec_feed) (Match spec_link)) = false.
Proof.
  split; [vm_compute; discriminate|].
  apply (@Releases_Match_no_panic offline). vm_compute. discriminate.
Defined.

Lemma Releases_unmatched_panics_witness :
  @Releases offline (decode_to spec_feed) "pkg"%string = (Panic "index out of range", []).
Proof. apply Releases_unmatched_panics; vm_compute; reflexivity. Defined.

Lemma Releases_http_status_witness :
  @Releases (answer_with 404) (decode_to spec_feed) spec_link =
    (Ret (None, NotFound), [EvHttpGet "https://sourceforge.net/projects/foo/rss?path=/"; EvBodyClose]).
Proof.
  apply (@Releases_http_status (answer_with 404) _ spec_link
           [spec_link; "foo"; ""; "bar"; "1.2.3"]%string (mkResponse 404 "")); vm_compute;
    [reflexivity|reflexivity|discriminate].
Defined.

Lemma Releases_OK_witness :
  exists rs, Some rs = Some (toResults spec_feed "bar") /\ Len rs > 0.
Proof.
  destruct (@Releases_OK (answer_with 200) (decode_to spec_feed) spec_link
              (Some (toResults spec_feed "bar"))
              [EvHttpGet "https://sourceforge.net/projects/foo/rss?path=/"; EvBodyClose])
    as (rs & Hrs & Hlen & _).
  - vm_compute. reflexivity.
  - exists rs. split; [symmetry; exact Hrs|exact Hlen].
Defined.

Lemma Releases_empty_feed_NotFound_witness :
  fst (@Releases (answer_with 200) (decode_to (mkFeed [mkItem "https://example.org/x" ""])) spec_link)
  = Ret (Some (NewResultSet "bar"), NotFound).
Proof.
  apply (@Releases_empty_feed_NotFound (answer_with 200) _ spec_link
           [spec_link; "foo"; ""; "bar"; "1.2.3"]%string (mkResponse 200 "")
           (mkFeed [mkItem "https://example.org/x" ""])); vm_compute; try reflexivity.
  constructor; [vm_compute; reflexivity|constructor].
Defined.

Lemma Match_idempotent_witness :
  Match spec_link <> ""%string /\ Match (Match spec_link) = Match spec_link.
Proof. split; [vm_compute; discriminate|apply Match_idempotent; vm_compute; discriminate]. Defined.

Lemma toResults_item_UT_roundtrip_witness :
  In "Mon"%string GoTime.shortDayNames /\ GoTime.date_ok (GoTime.mkTime 2006 1 2 15 4 5 0 "UTC") /\
  length (FindStringSubmatch TarballRegex spec_link) = 5 /\
  toResults_item "bar" (NewResultSet "bar")
    (mkItem spec_link (string_of_list_ascii (GoTime.rfc1123_UT "Mon" (GoTime.mkTime 2006 1 2 15 4 5 0 "UTC")))) =
  AddResult (NewResult "bar" (nth 4 (FindStringSubmatch TarballRegex spec_link) ""%string) spec_link
               (GoTime.mkTime 2006 1 2 15 4 5 0 "UTC")) (NewResultSet "bar").
Proof.
  assert (Hw : In "Mon"%string GoTime.shortDayNames) by (simpl; auto).
  assert (Ht : GoTime.date_ok (GoTime.mkTime 2006 1 2 15 4 5 0 "UTC"))
    by (unfold GoTime.date_ok, GoTime.valid_time; vm_compute; intuition discriminate).
  assert (H5 : length (FindStringSubmatch TarballRegex spec_link) = 5) by (vm_compute; reflexivity).
  split; [exact Hw|]. split; [exact Ht|]. split; [exact H5|].
  exact (toResults_item_UT_roundtrip "bar" (NewResultSet "bar") spec_link "Mon" _ Hw Ht H5).
Defined.

Lemma Match_language_witness :
  let q := "see https://sourceforge.net/projects/foo/files/bar-1.2.3.tar.gz/download"%string in
  Match q <> "" /\
  suffix_of (list_ascii_of_string (Match q)) (list_ascii_of_string q) /\
  (lang TarballRegex (list_ascii_of_string (Match q)) \/
   lang ProjectRegex (list_ascii_of_string (Match q))).
Proof.
  intros q. assert (H : Match q <> "") by (vm_compute; discriminate).
  split; [exact H|]. exact (proj2 (Match_language q) H).
Defined.

Lemma Latest_first_witness :
  exists r, @Latest (answer_with 200) (decode_to spec_feed) spec_link =
              (Ret (Some r, OK), [EvHttpGet "https://sourceforge.net/projects/foo/rss?path=/"; EvBodyClose]) /\
            First (toResults spec_feed "bar") = Some r.
Proof. apply (@Latest_first (answer_with 200)). vm_compute. reflexivity. Defined.

(** ** The adapter under the orchestrator *)

(** C23. Composition: whatever the transport and the XML decoder do, the
    SourceForge adapter meets the provider contract, so [Execute] over a
    registry containing SourceForge adapters (and adapters that meet the
    contract) probes every provider once in order, prints exactly the
    successful sets and returns [GOOD] iff one succeeded. *)
Theorem sourceforge_registry_spec (Ts : list (Transport * (string -> string + Feed)))
    ps1 ps2 prog sub query :
  Forall ProviderContract (ps1 ++ ps2)%list -> Flags.flag_like query = false ->
  let ps := (ps1 ++ map (fun '(T, dec) => @provider T dec) Ts ++ ps2)%list in
  exists t, Cmd.Execute ps [prog; sub; query] =
              (Ret (if Cmd.found_spec query ps then Cmd.GOOD else Cmd.Exit 1), t) /\
    filter Cmd.is_check t = map (fun p => EvCheck (p_Name p)) ps /\
    Cmd.printed_sets t = Cmd.printed_spec query ps.
Proof.
  intros Hps Hq ps.
  assert (Hall : Forall ProviderContract ps).
  { apply Forall_app in Hps as [H1 H2]. apply Forall_app. split; [exact H1|].
    apply Forall_app. split; [|exact H2].
    apply Forall_forall. intros p Hp. apply in_map_iff in Hp as ([T dec] & <- & _).
    apply sourceforge_contract. }
  rewrite Cmd.Execute_positional by (simpl; rewrite Hq; reflexivity).
  cbn [Flags.NArg length Nat.eqb Flags.Arg nth].
  apply Cmd.execute_query_correct, Hall.
Qed.

(** A feed listing two versions, newest first, with version 1.2.3 both as
    a tarball (dated in [UT]) and, later, as a zip dated with a numeric
    zone. *)
Definition feed_two_versions : Feed :=
  mkFeed [mkItem "https://sourceforge.net/projects/foo/files/bar-1.2.4.tar.gz/download"
                 "Tue, 03 Jan 2006 09:00:00 UT";
          mkItem spec_link "Mon, 02 Jan 2006 15:04:05 UT";
          mkItem "https://sourceforge.net/projects/foo/files/bar-1.2.3.zip/download"
                 "Mon, 02 Jan 2006 16:00:00 +0000";
          mkItem "https://sourceforge.net/projects/foo/files/README" "Sun, 01 Jan 2006 10:00:00 UT"].

Lemma sourceforge_registry_spec_witness :
  let ps := ([] ++ map (fun '(T, dec) => @provider T dec)
                      [(answer_with 200, decode_to feed_two_versions)] ++ [Cmd.demo_feed])%list in
  exists t, Cmd.Execute ps ["cuppa"; "releases"; spec_link] =
              (Ret (if Cmd.found_spec spec_link ps then Cmd.GOOD else Cmd.Exit 1), t) /\
    filter Cmd.is_check t = map (fun p => EvCheck (p_Name p)) ps /\
    Cmd.printed_sets t = Cmd.printed_spec spec_link ps.
Proof.
  apply sourceforge_registry_spec.
  - constructor; [exact Cmd.demo_feed_contract|constructor].
  - reflexivity.
Defined.

Lemma Match_tarball_whole_witness :
  lang TarballRegex (list_ascii_of_string spec_link) /\
  Match spec_link = spec_link /\ split_name spec_link = (Ret (FindStringSubmatch TarballRegex spec_link), []).
Proof.
  assert (H : lang TarballRegex (list_ascii_of_string spec_link)) by (apply lang_of_mtc; vm_compute; exact I).
  split; [exact H|]. apply Match_tarball_whole, H.
Defined.

Lemma project_fallback_swaps_names_witness :
  let q := "https://sourceforge.net/projects/mingw/files/MinGW/Base/binutils-2.28-1/download"%string in
  FindStringSubmatch TarballRegex q = [] /\
  FindStringSubmatch ProjectRegex q = [q; "mingw/files/MinGW/Base"; ""; "binutils"; "2.28-1"]%string /\
  split_name q = (Ret [q; "binutils"; ""; "mingw/files/MinGW/Base"; "2.28-1"]%string, []) /\
  (exists t, snd (@Releases (answer_with 200) (decode_to spec_feed) q) =
               EvHttpGet (API "binutils" "") :: t) /\
  (forall rs s, fst (@Releases (answer_with 200) (decode_to spec_feed) q) = Ret (Some rs, s) ->
                query rs = "mingw/files/MinGW/Base"%string).
Proof.
  intros q.
  assert (HT : FindStringSubmatch TarballRegex q = []) by (vm_compute; reflexivity).
  assert (HP : FindStringSubmatch ProjectRegex q = [q; "mingw/files/MinGW/Base"; ""; "binutils"; "2.28-1"]%string)
    by (vm_compute; reflexivity).
  split; [exact HT|]. split; [exact HP|].
  exact (@project_fallback_swaps_names (answer_with 200) (decode_to spec_feed) q q _ _ _ _ HT HP).
Defined.

Lemma pubdate_suffix_quirk_witness :
  length (FindStringSubmatch TarballRegex spec_link) = 5 /\
  list_ascii_of_string "Mon, 02 Jan 2006 15:04:05 -0700" =
    (list_ascii_of_string "Mon, 02 Jan 2006 15:04:05 -070" ++ ["0"%char])%list /\
  GoTime.is_digit "0"%char = true /\
  toResults_item "bar" (NewResultSet "bar") (mkItem spec_link "Mon, 02 Jan 2006 15:04:05 -0700") =
  AddResult (NewResult "bar" (nth 4 (FindStringSubmatch TarballRegex spec_link) ""%string) spec_link
               GoTime.zero_time) (NewResultSet "bar").
Proof.
  assert (H5 : length (FindStringSubmatch TarballRegex spec_link) = 5) by (vm_compute; reflexivity).
  split; [exact H5|]. split; [reflexivity|]. split; [reflexivity|].
  apply (pubdate_suffix_quirk _ _ _ _ (list_ascii_of_string "Mon, 02 Jan 2006 15:04:05 -070") "0"%char);
    [exact H5|reflexivity|reflexivity].
Defined.

End SourceForge.
