(* ===== verification/PyPI.v ===== *)
(** * The PyPI index conversion ([src/providers/pypi/releases.go])

    The JSON payload [Releases] maps each version to its file records
    ([URL]); it is a Go map, modelled as a [gmap].  [ConvertURLS] builds
    the result of one version from the last record of its list, indexing
    [cr[len(cr)-1]], which panics on an empty list.  [Convert] ranges over
    the map; Go's iteration order is unspecified, so the loop
    [convert_loop] is defined over any enumeration of the entries and
    [Convert] uses [map_to_list]; [Convert_order_irrelevant] shows the
    choice does not matter.  The [URL] type and [DateFormat] are declared
    in a file of the package that is not under [src/]; they are modelled
    from the specification.  The adapter's HTTP part, also outside
    [src/], is [Releases] below, modelled from spec section 4.2 with the
    endpoint and [Match] as parameters.  The last section puts the
    adapter under [Cmd.Execute]: an index with an empty version crashes
    the whole run, and a decoder that never yields one makes the adapter
    meet the provider contract. *)

From stdpp Require Import base list gmap strings.
From Stdlib Require Import String List ZArith Permutation Lia.
From S2P Require Import Prelude GoTime Results Provider Flags Cmd.
Local Open Scope go_scope.

Module PyPI.
Import Results Provider.

(** A file record: [upload_time] and [url]. *)
Record URL : Type := mkURL { UploadTime : string; url : string }.

(** [DateFormat = "2006-01-02T15:04:05"]. *)
Definition DateFormat : list GoTime.chunk :=
  [GoTime.StdLongYear; GoTime.Lit "-"; GoTime.StdZeroMonth; GoTime.Lit "-"; GoTime.StdZeroDay;
   GoTime.Lit "T"; GoTime.StdHour; GoTime.Lit ":"; GoTime.StdZeroMinute; GoTime.Lit ":";
   GoTime.StdZeroSecond].

(** [type Releases struct { Releases map[string][]URL }]. *)
Record Releases : Type := mkReleases { releases : gmap string (list URL) }.

(** [ConvertURLS(cr []URL, name, version string) *results.Result]. *)
Definition ConvertURLS (cr : list URL) (name version : string) : Go Event Result :=
  let! u := go_index_Z cr (Z.of_nat (length cr) - 1) in
  go_ret (mkResult name version (url u) (GoTime.parse_or_zero DateFormat (UploadTime u))).

(** The [for ver, rel := range crs.Releases] loop over an enumeration of
    the map ([r != nil] always holds). *)
Fixpoint convert_loop (name : string) (entries : list (string * list URL)) (rs : ResultSet)
  : Go Event ResultSet :=
  match entries with
  | [] => go_ret rs
  | (ver, rel) :: entries' =>
      let! r := ConvertURLS rel name ver in
      convert_loop name entries' (AddResult r rs)
  end.

(** [(crs *Releases) Convert(name string) *results.ResultSet]. *)
Definition Convert (crs : Releases) (name : string) : Go Event ResultSet :=
  convert_loop name (map_to_list (releases crs)) (NewResultSet name).

(** ** The adapter around [Convert] (not under [src/]; spec section 4.2) *)

Module Adapter.
Section WithTransport.
Context {T : Transport}.
(** The per-package JSON endpoint and the adapter's [Match] are not given
    by the specification; they are parameters. *)
Variable endpoint : string -> string.
Variable pypi_match : string -> string.
Variable json_decode : string -> string + Releases.

(** [Releases(name)]: request, classify the status, decode, [Convert],
    escalate an empty set to [NotFound]; the body is closed by a
    [defer]. *)
Definition Releases (name : string) : Go Event (option ResultSet * Status) :=
  let url := endpoint name in
  let! _ := go_emit (EvHttpGet url) in
  match http_get url with
  | inl err =>
      let! _ := go_emit (EvStderr err) in
      go_ret (None, Unavailable)
  | inr resp =>
      go_defer EvBodyClose (
        let code := StatusCode resp in
        let s := if (code =? 200)%Z then OK else if (code =? 404)%Z then NotFound else Unavailable in
        if negb (Status_eqb s OK) then go_ret (None, s)
        else
          match json_decode (Body resp) with
          | inl err =>
              let! _ := go_emit (EvStderr err) in
              go_ret (None, Unavailable)
          | inr crs =>
              let! rs := Convert crs name in
              if (Len rs =? 0)%nat then go_ret (Some rs, NotFound) else go_ret (Some rs, OK)
          end)
  end.

Definition provider : Provider := mkProvider "PyPI" pypi_match Releases.
End WithTransport.
End Adapter.

(** ** The conversion of one version *)

(** The record [ConvertURLS] keeps: the last of the list. *)
Definition last_url (rel : list URL) : URL := List.last rel (mkURL "" "").

(** The result the specification assigns to a version and its records. *)
Definition convert_entry (name : string) (e : string * list URL) : Result :=
  mkResult name e.1 (url (last_url e.2)) (GoTime.parse_or_zero DateFormat (UploadTime (last_url e.2))).

Lemma nth_error_last {A} (l : list A) d :
  l <> [] -> nth_error l (length l - 1) = Some (List.last l d).
Proof.
  induction l as [|x l IH]; [congruence|]. intros _.
  destruct l as [|y l]; [reflexivity|].
  specialize (IH ltac:(discriminate)). simpl in *. rewrite Nat.sub_0_r in *. exact IH.
Qed.

Lemma ConvertURLS_spec cr name ver :
  ConvertURLS cr name ver =
  match cr with
  | [] => (Panic "index out of range", [])
  | _ => (Ret (convert_entry name (ver, cr)), [])
  end.
Proof.
  destruct cr as [|u cr]; [reflexivity|].
  unfold ConvertURLS, go_index_Z.
  assert (H : (Z.of_nat (length (u :: cr)) - 1 <? 0)%Z = false) by (apply Z.ltb_ge; simpl length; lia).
  rewrite H.
  replace (Z.to_nat (Z.of_nat (length (u :: cr)) - 1)) with (length (u :: cr) - 1)%nat by lia.
  unfold go_index. rewrite (nth_error_last (u :: cr) (mkURL "" "")) by discriminate. reflexivity.
Qed.

(** [time.Parse(DateFormat, upload_time)] on the text PyPI writes: the
    time back in UTC when its day exists in its month, a parse error
    otherwise. *)
Lemma parse_DateFormat t :
  GoTime.fields_ok t ->
  GoTime.parse DateFormat (string_of_list_ascii (GoTime.iso_datetime t)) =
  if GoTime.day_ok t
  then Some (GoTime.mkTime (GoTime.year t) (GoTime.month t) (GoTime.day t) (GoTime.hour t)
                           (GoTime.minute t) (GoTime.second t) 0 "UTC")
  else None.
Proof.
  intros (Hy & Hm & Hd & Hh & Hmi & Hs).
  unfold GoTime.parse. rewrite string_list_ascii_roundtrip.
  unfold GoTime.iso_datetime, DateFormat, GoTime.init_pstate. cbn [app GoTime.run_chunks].
  rewrite GoTime.step_year by lia. cbv iota beta.
  rewrite GoTime.step_lit_char by auto. cbv iota beta.
  rewrite GoTime.step_zero_month by lia. cbv iota beta.
  rewrite GoTime.step_lit_char by auto. cbv iota beta.
  rewrite GoTime.step_day by lia. cbv iota beta.
  rewrite GoTime.step_lit_char by auto. cbv iota beta.
  rewrite GoTime.step_hour by lia. cbv iota beta.
  rewrite GoTime.step_lit_char by auto. cbv iota beta.
  rewrite GoTime.step_minute by lia. cbv iota beta.
  rewrite GoTime.step_lit_char by auto. cbv iota beta.
  rewrite GoTime.step_second_end by lia. cbv iota beta.
  unfold GoTime.day_ok. destruct (1 <=? GoTime.day t)%Z eqn:E1, (GoTime.day t <=? _)%Z eqn:E2;
    apply Z.leb_le in E1 || apply Z.leb_gt in E1; apply Z.leb_le in E2 || apply Z.leb_gt in E2;
    cbn [andb]; repeat first [rewrite (proj2 (Z.ltb_ge _ _)) by lia | rewrite (proj2 (Z.ltb_lt _ _)) by lia];
    reflexivity.
Qed.

Definition has_empty_version (entries : list (string * list URL)) : bool :=
  existsb (fun e => match e.2 with [] => true | _ => false end) entries.

(** The loop panics iff some version has no record; otherwise it adds
    the specified results in enumeration order. *)
Lemma convert_loop_panic name l rs :
  is_panic (convert_loop name l rs) = has_empty_version l.
Proof.
  revert rs. induction l as [|[ver rel] l IH]; intros rs; simpl; [reflexivity|].
  rewrite ConvertURLS_spec. destruct rel as [|u rel]; simpl; [reflexivity|].
  specialize (IH (AddResult (convert_entry name (ver, u :: rel)) rs)). unfold is_panic in *.
  destruct (convert_loop _ _ _) as [[] ?]; simpl in *; exact IH.
Qed.

Lemma convert_loop_panic_msg name l rs :
  has_empty_version l = true -> convert_loop name l rs = (Panic "index out of range", []).
Proof.
  revert rs. induction l as [|[ver rel] l IH]; intros rs; simpl; [discriminate|].
  rewrite ConvertURLS_spec. destruct rel as [|u rel]; simpl; [reflexivity|].
  intros H. rewrite IH by exact H. reflexivity.
Qed.

Lemma convert_loop_ok name l rs :
  has_empty_version l = false ->
  convert_loop name l rs = (Ret (add_all rs (map (convert_entry name) l)), []).
Proof.
  revert rs. induction l as [|[ver rel] l IH]; intros rs; simpl; [reflexivity|].
  rewrite ConvertURLS_spec. destruct rel as [|u rel]; simpl; [discriminate|].
  intros H. rewrite IH by exact H. reflexivity.
Qed.

Lemma map_key_convert_entry name l :
  map result_key (map (convert_entry name) l) = map (fun e => (name, e.1)) l.
Proof. rewrite map_map. reflexivity. Qed.

Lemma NoDup_pair_l {A B} (a : A) (l : list B) :
  List.NoDup l -> List.NoDup (map (fun b => (a, b)) l).
Proof.
  induction 1; simpl; constructor; auto.
  intros Hin. apply in_map_iff in Hin as (y & E & Hy). injection E as ->. contradiction.
Qed.

Lemma NoDup_keys_map_to_list name (m : gmap string (list URL)) :
  List.NoDup (map result_key (map (convert_entry name) (map_to_list m))).
Proof.
  rewrite map_key_convert_entry. replace (map (fun e => (name, e.1)) (map_to_list m))
    with (map (fun v => (name, v)) (map fst (map_to_list m))) by (rewrite map_map; reflexivity).
  apply NoDup_pair_l. apply NoDup_ListNoDup, NoDup_fst_map_to_list.
Qed.

Lemma has_empty_version_map (m : gmap string (list URL)) :
  has_empty_version (map_to_list m) = true <-> exists v, m !! v = Some [].
Proof.
  unfold has_empty_version. rewrite existsb_exists. split.
  - intros ([v rel] & Hin & He). destruct rel; [|discriminate]. exists v.
    apply elem_of_map_to_list, list_elem_of_In, Hin.
  - intros (v & Hv). exists (v, []). split; [|reflexivity].
    apply list_elem_of_In, elem_of_map_to_list, Hv.
Qed.

Lemma find_convert_entries name (m : gmap string (list URL)) k :
  find (fun r => key_eqb (result_key r) k) (rev (map (convert_entry name) (map_to_list m))) =
  if String.eqb k.1 name then (fun rel => convert_entry name (k.2, rel)) <$> m !! k.2 else None.
Proof.
  destruct k as [n v]. simpl.
  assert (Hin : forall x, In x (rev (map (convert_entry name) (map_to_list m))) ->
                exists v' rel, m !! v' = Some rel /\ x = convert_entry name (v', rel)).
  { intros x Hx. apply (proj2 (in_rev _ _)), in_map_iff in Hx as ([v' rel] & <- & Hx).
    exists v', rel. split; [|reflexivity]. apply elem_of_map_to_list, list_elem_of_In, Hx. }
  destruct (String.eqb_spec n name) as [->|Hn].
  - destruct (m !! v) as [rel|] eqn:Hv; simpl.
    + apply find_key_unique; [|apply (proj1 (in_rev _ _)), in_map, list_elem_of_In, elem_of_map_to_list, Hv|reflexivity].
      rewrite map_rev. apply NoDup_rev, NoDup_keys_map_to_list.
    + apply find_key_none. intros x Hx E. destruct (Hin x Hx) as (v' & rel & Hv' & ->).
      injection E as ->. congruence.
  - apply find_key_none. intros x Hx E. destruct (Hin x Hx) as (v' & rel & _ & ->).
    injection E as E _. congruence.
Qed.

(** C14. [cr[len(cr)-1]] on an empty list: [Convert] panics exactly when
    the index lists a version without any file record (PyPI reports such
    versions with an empty list), and never otherwise. *)
Theorem Convert_panics_iff crs name :
  is_panic (Convert crs name) = true <-> exists v, releases crs !! v = Some [].
Proof. unfold Convert. rewrite convert_loop_panic. apply has_empty_version_map. Qed.

(** C15. Spec 4.2 (index-style adapter): without empty versions, [Convert]
    returns one result per version of the map, keyed by the query name and
    the version, built from the version's last file record, and nothing
    else: the set refines the version map. *)
Theorem Convert_refines crs name :
  (forall v, releases crs !! v <> Some []) ->
  exists rs, Convert crs name = (Ret rs, []) /\ rs_wf rs /\ query rs = name /\
    Len rs = size (releases crs) /\
    forall k, rs_lookup k rs =
      if String.eqb k.1 name then (fun rel => convert_entry name (k.2, rel)) <$> releases crs !! k.2
      else None.
Proof.
  intros Hne.
  assert (He : has_empty_version (map_to_list (releases crs)) = false).
  { destruct (has_empty_version _) eqn:E; [|reflexivity].
    apply has_empty_version_map in E as (v & Hv). exfalso. exact (Hne v Hv). }
  unfold Convert. rewrite (convert_loop_ok _ _ _ He).
  eexists; split; [reflexivity|]. split; [apply add_all_wf; constructor|].
  split; [apply add_all_query|]. split.
  - unfold Len. rewrite add_all_fresh by apply NoDup_keys_map_to_list.
    simpl. rewrite length_map. apply length_map_to_list.
  - intros k. rewrite add_all_lookup, find_convert_entries.
    destruct (String.eqb k.1 name), (releases crs !! k.2); reflexivity.
Qed.

(** C16. Go leaves the iteration order of a map unspecified: every
    enumeration of the map gives the same outcome, a panic in all or a set
    equivalent to [Convert]'s in all. *)
Theorem Convert_order_irrelevant crs name l :
  Permutation l (map_to_list (releases crs)) ->
  match convert_loop name l (NewResultSet name), Convert crs name with
  | (Ret rs1, _), (Ret rs2, _) => rs_equiv rs1 rs2
  | (Panic _, _), (Panic _, _) => True
  | _, _ => False
  end.
Proof.
  intros Hp. unfold Convert.
  pose proof (existsb_Permutation (fun e => match e.2 with [] => true | _ => false end) _ _ Hp) as He.
  fold (has_empty_version l) (has_empty_version (map_to_list (releases crs))) in He.
  destruct (has_empty_version (map_to_list (releases crs))) eqn:E.
  - pose proof (convert_loop_panic name l (NewResultSet name)) as P1.
    pose proof (convert_loop_panic name (map_to_list (releases crs)) (NewResultSet name)) as P2.
    rewrite He in P1. rewrite E in P2. unfold is_panic in P1, P2.
    destruct (convert_loop name l _) as [[]], (convert_loop name (map_to_list _) _) as [[]];
      try discriminate; exact I.
  - rewrite (convert_loop_ok _ _ _ He), (convert_loop_ok _ _ _ E). split.
    + rewrite !add_all_query. reflexivity.
    + rewrite !add_all_fresh; simpl.
      * apply Permutation_map, Hp.
      * apply NoDup_keys_map_to_list.
      * rewrite map_key_convert_entry. eapply Permutation_NoDup;
          [apply Permutation_map; symmetry; exact Hp|].
        rewrite <- map_key_convert_entry. apply NoDup_keys_map_to_list.
Qed.

(** C25. Round trip of an upload time through [ConvertURLS]: the text
    ["2006-01-02T15:04:05"] that PyPI writes for the last file record of
    a version is stored as exactly that time, in UTC and with no fraction,
    when its day exists in its month; a day the month does not have (the
    29th of February of a common year, a day [00]) is a parse error,
    which [ConvertURLS] drops, storing the zero time. *)
Theorem ConvertURLS_upload_time cr t u name ver :
  GoTime.fields_ok t ->
  ConvertURLS (cr ++ [mkURL (string_of_list_ascii (GoTime.iso_datetime t)) u]) name ver =
  (Ret (mkResult name ver u
          (if GoTime.day_ok t
           then GoTime.mkTime (GoTime.year t) (GoTime.month t) (GoTime.day t) (GoTime.hour t)
                              (GoTime.minute t) (GoTime.second t) 0 "UTC"
           else GoTime.zero_time)), []).
Proof.
  intros Ht. rewrite ConvertURLS_spec.
  destruct (cr ++ _) as [|u0 l] eqn:E; [destruct cr; discriminate|]. rewrite <- E.
  unfold convert_entry, last_url. cbn [fst snd]. rewrite List.last_last. cbn [UploadTime url].
  unfold GoTime.parse_or_zero. rewrite parse_DateFormat by exact Ht.
  destruct (GoTime.day_ok t); reflexivity.
Qed.

(** ** Witnesses *)

Definition index_with_yanked : Releases :=
  mkReleases (<["0.1" := []]> {["1.0" := [mkURL "2016-01-01T00:00:00" "https://x/pkg-1.0.tar.gz"]]}).

Lemma Convert_panics_iff_witness :
  is_panic (Convert index_with_yanked "pkg") = true.
Proof. apply Convert_panics_iff. exists "0.1". reflexivity. Defined.

Lemma Convert_refines_witness :
  exists rs, Convert (mkReleases {["1.0" := [mkURL "x" "https://x/pkg-1.0.tar.gz"]]}) "pkg" = (Ret rs, []) /\
    Len rs = 1%nat.
Proof.
  destruct (Convert_refines (mkReleases {["1.0" := [mkURL "x" "https://x/pkg-1.0.tar.gz"]]}) "pkg")
    as (rs & H & _ & _ & Hlen & _).
  - intros v. simpl. destruct (decide (v = "1.0")) as [->|Hv].
    + rewrite lookup_singleton_eq. discriminate.
    + rewrite lookup_singleton_ne by congruence. discriminate.
  - exists rs. split; [exact H|]. rewrite Hlen. reflexivity.
Defined.

Definition index_two : Releases :=
  mkReleases (<["1.1" := [mkURL "2016-02-01T00:00:00" "https://x/pkg-1.1.tar.gz"]]>
              {["1.0" := [mkURL "2016-01-01T00:00:00" "https://x/pkg-1.0.tar.gz"]]}).

Lemma Convert_order_irrelevant_witness :
  match convert_loop "pkg" (rev (map_to_list (releases index_two))) (NewResultSet "pkg"),
        Convert index_two "pkg" with
  | (Ret rs1, _), (Ret rs2, _) => rs_equiv rs1 rs2
  | (Panic _, _), (Panic _, _) => True
  | _, _ => False
  end.
Proof. apply Convert_order_irrelevant. symmetry. apply Permutation_rev. Defined.

(** ** The adapter under the orchestrator *)

(** An index with a version without file records makes [Releases]
    panic after the request, the deferred close running on the way out. *)
Lemma Releases_empty_version {T : Transport} endpoint json_decode n body crs :
  http_get (endpoint n) = inr (mkResponse 200 body) ->
  json_decode body = inr crs ->
  (exists v, releases crs !! v = Some []) ->
  Adapter.Releases endpoint json_decode n =
    (Panic "index out of range", [EvHttpGet (endpoint n); EvBodyClose]).
Proof.
  intros Hget Hdec Hempty. unfold Adapter.Releases. rewrite Hget. simpl. rewrite Hdec.
  unfold Convert. rewrite convert_loop_panic_msg; [reflexivity|].
  apply has_empty_version_map, Hempty.
Qed.

(** C13. A PyPI index that lists a version without any file record makes
    the whole resolution crash: [ConvertURLS] panics inside the PyPI
    adapter, the panic crosses [Execute], and the providers after PyPI in
    the registry are never probed, although spec 4.4 step 3 says one
    adapter's failure never aborts the others. *)
Theorem pypi_empty_version_aborts_resolution {T : Transport} endpoint pypi_match json_decode
    ps1 ps2 prog sub query body crs :
  Forall ProviderContract ps1 -> Flags.flag_like query = false ->
  pypi_match query <> ""%string ->
  http_get (endpoint (pypi_match query)) = inr (mkResponse 200 body) ->
  json_decode body = inr crs ->
  (exists v, releases crs !! v = Some []) ->
  exists t,
    Cmd.Execute (ps1 ++ Adapter.provider endpoint pypi_match json_decode :: ps2)
                [prog; sub; query] = (Panic "index out of range", t) /\
    List.filter Cmd.is_check t = List.map (fun p => EvCheck (p_Name p)) ps1 ++ [EvCheck "PyPI"].
Proof.
  intros Hps1 Hq Hm Hget Hdec Hempty.
  destruct (Cmd.run_providers_correct query ps1 false Hps1) as (t1 & Hrun & Hc1 & _).
  pose proof (Cmd.run_providers_panic query ps1 (Adapter.provider endpoint pypi_match json_decode)
                ps2 false _ t1 _ _ Hrun Hm (Releases_empty_version _ _ _ _ _ Hget Hdec Hempty)) as Hpanic.
  eexists. split.
  - rewrite Cmd.Execute_positional by (simpl; rewrite Hq; reflexivity).
    cbn [Flags.NArg length Nat.eqb Flags.Arg nth]. unfold Cmd.execute_query. rewrite Hpanic. reflexivity.
  - rewrite filter_app, Hc1. reflexivity.
Qed.

(** The conversion writes nothing to the trace. *)
Lemma convert_loop_trace name l rs : snd (convert_loop name l rs) = [].
Proof.
  revert rs. induction l as [|[ver rel] l IH]; intros rs; simpl; [reflexivity|].
  rewrite ConvertURLS_spec. destruct rel as [|u rel]; simpl; [reflexivity|].
  specialize (IH (AddResult (convert_entry name (ver, u :: rel)) rs)).
  destruct (convert_loop _ _ _) as [r t]. simpl in *. subst t. reflexivity.
Qed.

(** Choose the outcome first, so that the trace is known when its events
    are checked. *)
Local Ltac pick_case tac := eexists; split; [|tac]; reflexivity.

(** A decoder that never yields an index with a version without file
    records makes the PyPI adapter meet the orchestrator's contract. *)
Lemma pypi_contract {T : Transport} endpoint pypi_match json_decode :
  (forall b crs, json_decode b = inr crs -> forall v, releases crs !! v <> Some []) ->
  ProviderContract (Adapter.provider endpoint pypi_match json_decode).
Proof.
  intros Hdec.
  assert (Hconv : forall b crs name, json_decode b = inr crs ->
            Convert crs name = (Ret (add_all (NewResultSet name)
                                 (map (convert_entry name) (map_to_list (releases crs)))), [])).
  { intros b crs name Hb. unfold Convert. apply convert_loop_ok.
    destruct (has_empty_version _) eqn:E; [|reflexivity].
    apply has_empty_version_map in E as (v & Hv). exfalso. exact (Hdec _ _ Hb v Hv). }
  assert (Hcases : forall n, exists t, forallb is_transport_event t = true /\
            (Adapter.Releases endpoint json_decode n = (Ret (None, NotFound), t) \/
             Adapter.Releases endpoint json_decode n = (Ret (None, Unavailable), t) \/
             (exists rs, Len rs > 0 /\ Adapter.Releases endpoint json_decode n = (Ret (Some rs, OK), t)) \/
             (exists rs, Adapter.Releases endpoint json_decode n = (Ret (Some rs, NotFound), t)))).
  { intros n. unfold Adapter.Releases. destruct (http_get (endpoint n)) as [err|resp]; simpl.
    - pick_case ltac:(right; left; reflexivity).
    - destruct (StatusCode resp =? 200)%Z; simpl.
      + destruct (json_decode (Body resp)) as [err|crs] eqn:Hb; simpl.
        * pick_case ltac:(right; left; reflexivity).
        * rewrite (Hconv _ _ n Hb). simpl.
          destruct (Len _ =? 0)%nat eqn:HL; simpl.
          -- pick_case ltac:(right; right; right; eexists; reflexivity).
          -- apply Nat.eqb_neq in HL.
             pick_case ltac:(right; right; left; eexists; split; [|reflexivity]; lia).
      + destruct (StatusCode resp =? 404)%Z; simpl;
          [pick_case ltac:(left; reflexivity)|pick_case ltac:(right; left; reflexivity)]. }
  split; simpl.
  - intros q _. destruct (Hcases (pypi_match q)) as (t & _ & [H|[H|[(rs & _ & H)|(rs & H)]]]);
      rewrite H; reflexivity.
  - intros n ors t H. destruct (Hcases n) as (t' & _ & [H'|[H'|[(rs & HL & H')|(rs & H')]]]);
      rewrite H' in H; try discriminate. injection H as <- <-. eauto.
  - intros n r t H. destruct (Hcases n) as (t' & Ht & [H'|[H'|[(rs & _ & H')|(rs & H')]]]);
      rewrite H' in H; injection H as _ <-; exact Ht.
Qed.

(** C24. Spec 4.2 step 5 for the index-style adapter: after a response,
    the body is closed exactly once and last on every path, the panic of
    [ConvertURLS] on an empty version included (the [defer] runs while
    the panic unwinds); a failed request logs the error and closes
    nothing. *)
Theorem pypi_closes_body {T : Transport} endpoint json_decode n r t :
  Adapter.Releases endpoint json_decode n = (r, t) ->
  (exists err, http_get (endpoint n) = inl err /\ t = [EvHttpGet (endpoint n); EvStderr err]) \/
  (exists resp mid, http_get (endpoint n) = inr resp /\
     t = EvHttpGet (endpoint n) :: mid ++ [EvBodyClose] /\ ~ In EvBodyClose mid).
Proof.
  unfold Adapter.Releases. destruct (http_get (endpoint n)) as [err|resp] eqn:Hg; simpl.
  - intros [= <- <-]. left. eauto.
  - intros H. right. exists resp.
    destruct (StatusCode resp =? 200)%Z; simpl in H.
    + destruct (json_decode (Body resp)) as [err|crs]; simpl in H.
      * injection H as <- <-. exists [EvStderr err]. split; [reflexivity|]. split; [reflexivity|].
        intros [E|[]]; discriminate.
      * pose proof (convert_loop_trace n (map_to_list (releases crs)) (NewResultSet n)) as Ht.
        unfold Convert in H. destruct (convert_loop _ _ _) as [[rs|m] tc]; simpl in Ht; subst tc; simpl in H.
        -- destruct (Len rs =? 0)%nat; simpl in H; injection H as <- <-; exists []; auto.
        -- injection H as <- <-. exists []. auto.
    + destruct (StatusCode resp =? 404)%Z; simpl in H; injection H as <- <-; exists []; auto.
Qed.

(** C22. The other side of C14: with a decoder that never yields an index
    listing a version without file records, a registry containing the
    PyPI adapter (and adapters that meet the contract) has every
    guarantee of [Execute]: each provider probed once in order, exactly
    the successful sets printed, and [GOOD] iff one succeeded. *)
Theorem pypi_registry_spec {T : Transport} endpoint pypi_match json_decode ps1 ps2 prog sub query :
  (forall b crs, json_decode b = inr crs -> forall v, releases crs !! v <> Some []) ->
  Forall ProviderContract (ps1 ++ ps2) -> Flags.flag_like query = false ->
  let ps := ps1 ++ Adapter.provider endpoint pypi_match json_decode :: ps2 in
  exists t, Cmd.Execute ps [prog; sub; query] =
              (Ret (if Cmd.found_spec query ps then Cmd.GOOD else Cmd.Exit 1), t) /\
    List.filter Cmd.is_check t = List.map (fun p => EvCheck (p_Name p)) ps /\
    Cmd.printed_sets t = Cmd.printed_spec query ps.
Proof.
  intros Hdec Hps Hq ps.
  assert (Hall : Forall ProviderContract ps).
  { apply Forall_app in Hps as [H1 H2]. apply Forall_app. split; [exact H1|].
    constructor; [apply pypi_contract, Hdec|exact H2]. }
  rewrite Cmd.Execute_positional by (simpl; rewrite Hq; reflexivity).
  cbn [Flags.NArg length Nat.eqb Flags.Arg nth].
  apply Cmd.execute_query_correct, Hall.
Qed.

(** A transport whose every request answers 200 with an empty body. *)
Definition answer_ok : Transport := fun _ => inr (mkResponse 200 "").

Lemma pypi_empty_version_aborts_resolution_witness :
  exists t,
    Cmd.Execute ([] ++ Adapter.provider (T := answer_ok)
                    (fun n => "https://pypi.org/pypi/" ++ n ++ "/json")%string (fun q => q)
                    (fun _ => inr index_with_yanked) :: [Cmd.demo_feed])
                ["cuppa"; "releases"; "pkg"]%string = (Panic "index out of range", t) /\
    List.filter Cmd.is_check t = List.map (fun p => EvCheck (p_Name p)) [] ++ [EvCheck "PyPI"].
Proof.
  apply (pypi_empty_version_aborts_resolution (T := answer_ok) _ _ _ [] _ _ _ _
           ""%string index_with_yanked).
  - constructor.
  - reflexivity.
  - discriminate.
  - reflexivity.
  - reflexivity.
  - exists "0.1"%string. reflexivity.
Defined.

Lemma pypi_closes_body_witness :
  Adapter.Releases (T := answer_ok) (fun n => "https://pypi.org/pypi/" ++ n ++ "/json")%string
    (fun _ => inr index_with_yanked) "pkg" =
    (Panic "index out of range",
     [EvHttpGet "https://pypi.org/pypi/pkg/json"; EvBodyClose]) /\
  ((exists err, http_get (Transport := answer_ok) "https://pypi.org/pypi/pkg/json" = inl err /\
      [EvHttpGet "https://pypi.org/pypi/pkg/json"; EvBodyClose] =
        [EvHttpGet "https://pypi.org/pypi/pkg/json"; EvStderr err]) \/
   (exists resp mid, http_get (Transport := answer_ok) "https://pypi.org/pypi/pkg/json" = inr resp /\
      [EvHttpGet "https://pypi.org/pypi/pkg/json"; EvBodyClose] =
        EvHttpGet "https://pypi.org/pypi/pkg/json" :: mid ++ [EvBodyClose] /\ ~ In EvBodyClose mid)).
Proof.
  assert (H : Adapter.Releases (T := answer_ok) (fun n => "https://pypi.org/pypi/" ++ n ++ "/json")%string
                (fun _ => inr index_with_yanked) "pkg" =
              (Panic "index out of range", [EvHttpGet "https://pypi.org/pypi/pkg/json"; EvBodyClose]))
    by (vm_compute; reflexivity).
  split; [exact H|]. exact (pypi_closes_body _ _ _ _ _ H).
Defined.

Lemma index_two_no_empty v : releases index_two !! v <> Some [].
Proof.
  intros Hv. assert (H : has_empty_version (map_to_list (releases index_two)) = true)
    by (apply has_empty_version_map; exists v; exact Hv).
  vm_compute in H. discriminate.
Qed.

Lemma pypi_registry_spec_witness :
  let ps := [] ++ Adapter.provider (T := answer_ok) (fun n => "https://pypi.org/pypi/" ++ n ++ "/json")%string
                    (fun q => q) (fun _ => inr index_two) :: [Cmd.demo_feed] in
  exists t, Cmd.Execute ps ["cuppa"; "releases"; "pkg"]%string =
              (Ret (if Cmd.found_spec "pkg" ps then Cmd.GOOD else Cmd.Exit 1), t) /\
    List.filter Cmd.is_check t = List.map (fun p => EvCheck (p_Name p)) ps /\
    Cmd.printed_sets t = Cmd.printed_spec "pkg" ps.
Proof.
  apply (pypi_registry_spec (T := answer_ok)).
  - intros b crs [= <-] v. apply index_two_no_empty.
  - constructor; [exact Cmd.demo_feed_contract|constructor].
  - reflexivity.
Defined.

Lemma ConvertURLS_upload_time_witness :
  ConvertURLS [mkURL "2016-02-28T00:00:00" "https://x/pkg-1.0.zip";
               mkURL (string_of_list_ascii (GoTime.iso_datetime (GoTime.mkTime 2016 2 29 13 5 9 0 "UTC")))
                     "https://x/pkg-1.0.tar.gz"] "pkg" "1.0" =
    (Ret (mkResult "pkg" "1.0" "https://x/pkg-1.0.tar.gz" (GoTime.mkTime 2016 2 29 13 5 9 0 "UTC")), []) /\
  ConvertURLS [mkURL (string_of_list_ascii (GoTime.iso_datetime (GoTime.mkTime 2015 2 29 13 5 9 0 "UTC")))
                     "https://x/pkg-0.9.tar.gz"] "pkg" "0.9" =
    (Ret (mkResult "pkg" "0.9" "https://x/pkg-0.9.tar.gz" GoTime.zero_time), []).
Proof.
  split.
  - apply (ConvertURLS_upload_time [mkURL "2016-02-28T00:00:00" "https://x/pkg-1.0.zip"]
             (GoTime.mkTime 2016 2 29 13 5 9 0 "UTC")).
    unfold GoTime.fields_ok; simpl; lia.
  - apply (ConvertURLS_upload_time [] (GoTime.mkTime 2015 2 29 13 5 9 0 "UTC")).
    unfold GoTime.fields_ok; simpl; lia.
Defined.

End PyPI.
